(** * napari.plugins: call-order export/import and the typed registries

    A shallow embedding of [napari/plugins/__init__.py]: the
    [PluginManager] subclass ([call_order], [set_call_order]), the three
    result callbacks ([register_dock_widget], [register_function_widget],
    [register_sample_data]) and the query [get_plugin_widget].

    Python dictionaries are insertion-ordered association lists, Python
    exceptions are values of [exn], and the module-level registries
    together with the stream of [warn] calls form an explicit state that
    the callbacks thread through a small state-and-exception monad. *)

From Stdlib Require Import String Ascii List Bool Arith Lia Permutation.
Import ListNotations.
Open Scope string_scope.
Open Scope list_scope.

Set Implicit Arguments.
Set Warnings "-register-all".

(* ================================================================== *)
(** ** Python dictionaries with [str] keys *)
(* ================================================================== *)

Module Dict.

(** A [dict] keeps its items in insertion order; [list(d)] and
    [d.items()] enumerate them in that order. *)
Abbreviation t V := (list (string * V)) (only parsing).

Section Operations.
Variable V : Type.

(** [d.get(k)] *)
Fixpoint get (k : string) (d : t V) : option V :=
  match d with
  | [] => None
  | (k', v) :: rest => if String.eqb k' k then Some v else get k rest
  end.

(** [d.get(k, default)] *)
Definition get_default (k : string) (default : V) (d : t V) : V :=
  match get k d with
  | Some v => v
  | None => default
  end.

(** [k in d] *)
Definition contains (k : string) (d : t V) : bool :=
  match get k d with
  | Some _ => true
  | None => false
  end.

(** [d[k] = v]: an existing key keeps its position, a new key goes
    last. *)
Fixpoint set (k : string) (v : V) (d : t V) : t V :=
  match d with
  | [] => [(k, v)]
  | (k', v') :: rest =>
      if String.eqb k' k then (k', v) :: rest
      else (k', v') :: set k v rest
  end.

(** [d.update(other)] *)
Definition update (other : t V) (d : t V) : t V :=
  fold_left (fun acc kv => set (fst kv) (snd kv) acc) other d.

(** [list(d)] *)
Definition keys (d : t V) : list string := map fst d.

(** Keys of a dictionary are pairwise distinct. *)
Definition wf (d : t V) : Prop := NoDup (keys d).

(** Number of items stored under key [k]. *)
Definition count (k : string) (d : t V) : nat :=
  length (filter (fun kv => String.eqb (fst kv) k) d).

End Operations.

Arguments get {V} k d.
Arguments get_default {V} k default d.
Arguments contains {V} k d.
Arguments set {V} k v d.
Arguments update {V} other d.
Arguments keys {V} d.
Arguments wf {V} d.
Arguments count {V} k d.

End Dict.

(* ================================================================== *)
(** ** Exceptions *)
(* ================================================================== *)

(** The formatted messages, kept as data. *)
Inductive Message : Type :=
| NoImplementation (spec_plugin : string)
| NoDockWidgets (plugin_name : string)
| ManyDockWidgets (plugin_name : string) (widgets : list string)
| NoWidgetNamed (plugin_name widget_name : string)
| MissingKey (key : string)
| NoAttribute (attr : string)
| OutOfRange (index : nat)
| RepeatedItem (name : string).

Inductive exn : Type :=
| KeyError (m : Message)
| ValueError (m : Message)
| AttributeError (m : Message)
| IndexError (m : Message).

Inductive result (A : Type) : Type :=
| Ok (a : A)
| Raise (e : exn).

Arguments Ok {A} a.
Arguments Raise {A} e.

Definition result_bind {A B : Type} (r : result A) (k : A -> result B)
  : result B :=
  match r with
  | Ok a => k a
  | Raise e => Raise e
  end.

Declare Scope result_scope.
Delimit Scope result_scope with result.
Notation "'let?' x ':=' r 'in' k" :=
  (result_bind r (fun x => k))
    (at level 10, x pattern, r at level 100, k at level 200) : result_scope.

(* ================================================================== *)
(** ** The plugin manager *)
(* ================================================================== *)

(** [napari_plugin_engine.HookImplementation]: the attributes the module
    reads and writes.  [function] stands for the identity of the wrapped
    callable. *)
Record HookImplementation : Type := {
  function : nat;
  plugin_name : string;
  enabled : bool
}.

(** Modelled from the spec: [napari_plugin_engine.HookCaller] is not part
    of the sources.  A hook caller holds the aggregation policy of its
    specification and "an ordered sequence of Implementations"; there is
    "no duplicate (plugin, hook-spec) pair".  [get_hookimpls] returns the
    stored sequence; [call_order] exports [reversed(get_hookimpls())] as
    "the persistable representation of current dispatch priority", so the
    dispatch order is the stored sequence read backwards ("new
    registrations are placed first"). *)
Record HookCaller : Type := {
  is_firstresult : bool;
  _nonwrappers : list HookImplementation
}.

Definition get_hookimpls (caller : HookCaller) : list HookImplementation :=
  _nonwrappers caller.

(** Modelled from the spec: the order in which a call tries the
    implementations, highest priority first.  It is the order that
    [call_order] writes out, [reversed(get_hookimpls())]. *)
Definition dispatch_order (caller : HookCaller) : list HookImplementation :=
  rev (get_hookimpls caller).

Definition dispatch_names (caller : HookCaller) : list string :=
  map plugin_name (dispatch_order caller).

Definition is_plugin (name : string) (impl : HookImplementation) : bool :=
  String.eqb (plugin_name impl) name.

(** Position of the first implementation of [name]; implementation
    objects are referred to by their position in the caller. *)
Fixpoint index_of (name : string) (impls : list HookImplementation)
  : option nat :=
  match impls with
  | [] => None
  | impl :: rest =>
      if is_plugin name impl then Some 0
      else option_map S (index_of name rest)
  end.

(** Modelled from the spec: [HookCaller.get_plugin_implementation], which
    [set_call_order] expects to raise [KeyError] for a plugin without an
    implementation ("plugins no longer installed"). *)
Definition get_plugin_implementation (caller : HookCaller) (name : string)
  : result nat :=
  match index_of name (get_hookimpls caller) with
  | Some i => Ok i
  | None => Raise (KeyError (NoImplementation name))
  end.

Fixpoint update_at (A : Type) (i : nat) (f : A -> A) (l : list A) : list A :=
  match l, i with
  | [], _ => []
  | x :: rest, 0 => f x :: rest
  | x :: rest, S j => x :: update_at j f rest
  end.

Definition with_enabled (b : bool) (impl : HookImplementation)
  : HookImplementation :=
  {| function := function impl;
     plugin_name := plugin_name impl;
     enabled := b |}.

(** [imp.enabled = b] for the implementation object at position [imp] of
    [caller]. *)
Definition set_enabled (imp : nat) (b : bool) (caller : HookCaller)
  : HookCaller :=
  {| is_firstresult := is_firstresult caller;
     _nonwrappers := update_at imp (with_enabled b) (_nonwrappers caller) |}.

Definition implements (caller : HookCaller) (name : string) : bool :=
  existsb (is_plugin name) (get_hookimpls caller).

(** The [enabled] flag of the implementation
    [get_plugin_implementation] finds for [name]. *)
Definition enabled_of (name : string) (caller : HookCaller) : option bool :=
  option_map enabled (find (is_plugin name) (get_hookimpls caller)).

Definition mem (name : string) (names : list string) : bool :=
  existsb (String.eqb name) names.

(** The first name of a list that occurs in it more than once. *)
Fixpoint repeated (names : list string) : option string :=
  match names with
  | [] => None
  | n :: rest => if mem n rest then Some n else repeated rest
  end.

(** Modelled from the spec: the hook caller after the reordering of
    [HookCaller.bring_to_front], which "reorders exactly the
    implementations named, placing them first in the given order;
    implementations not named retain their relative order after the named
    ones", and "fails silently (skip) on names not currently
    registered". *)
Definition brought_to_front (new_order : list string) (caller : HookCaller)
  : HookCaller :=
  let calls := dispatch_order caller in
  let named :=
    flat_map (fun n => match find (is_plugin n) calls with
                       | Some impl => [impl]
                       | None => []
                       end) new_order in
  let others :=
    filter (fun impl => negb (mem (plugin_name impl) new_order)) calls in
  {| is_firstresult := is_firstresult caller;
     _nonwrappers := rev (named ++ others) |}.

(** Modelled from the spec: [HookCaller.bring_to_front] is not part of
    the sources.  The spec describes the reordering for a list of
    distinct names and is silent about a list that names a plugin twice;
    the method of [napari_plugin_engine] refuses such a list with
    [ValueError('repeated item in order')] before it reorders anything,
    and so does the model. *)
Definition bring_to_front (new_order : list string) (caller : HookCaller)
  : result HookCaller :=
  match repeated new_order with
  | Some n => Raise (ValueError (RepeatedItem n))
  | None => Ok (brought_to_front new_order caller)
  end.

(** One element of a call-order list: [{'plugin': ..., 'enabled': ...}]. *)
Module Entry.
Record t : Type := { plugin : string; enabled : bool }.
End Entry.

Definition CallOrderDict : Type := Dict.t (list Entry.t).

(** [self.hooks]: hook callers by specification name. *)
Record PluginManager : Type := {
  hooks : Dict.t HookCaller
}.

Definition export_entry (impl : HookImplementation) : Entry.t :=
  {| Entry.plugin := plugin_name impl; Entry.enabled := enabled impl |}.

(** Body of the loop of [PluginManager.call_order]. *)
Definition call_order_step (order : CallOrderDict)
  (item : string * HookCaller) : CallOrderDict :=
  let (spec_name, caller) := item in
  if negb (is_firstresult caller) then order
  else
    let impls := get_hookimpls caller in
    if (1 <? length impls)%nat
    then Dict.set spec_name (map export_entry (rev impls)) order
    else order.

Definition call_order (self : PluginManager) : CallOrderDict :=
  fold_left call_order_step (hooks self) [].

(** Inner loop of [PluginManager.set_call_order]: [KeyError] from the
    lookup is caught and the entry skipped, anything else propagates. *)
Fixpoint set_call_order_entries (hook_caller : HookCaller)
  (order : list string) (ps : list Entry.t)
  : result (HookCaller * list string) :=
  match ps with
  | [] => Ok (hook_caller, order)
  | p :: rest =>
      match get_plugin_implementation hook_caller (Entry.plugin p) with
      | Raise (KeyError _) => set_call_order_entries hook_caller order rest
      | Raise e => Raise e
      | Ok imp =>
          set_call_order_entries
            (set_enabled imp (Entry.enabled p) hook_caller)
            (order ++ [Entry.plugin p]) rest
      end
  end.

(** Body of the outer loop of [PluginManager.set_call_order], for hook
    callers whose method [bring_to_front] is [method]: the method is
    called only with a non-empty [order], outside the [try], so that
    whatever it raises propagates. *)
Definition set_call_order_body
  (method : list string -> HookCaller -> result HookCaller)
  (new_order : CallOrderDict) (spec_name : string)
  (hook_caller : HookCaller) : result HookCaller :=
  (let? (hook_caller', order) :=
     set_call_order_entries hook_caller []
       (Dict.get_default spec_name [] new_order) in
   match order with
   | [] => Ok hook_caller'
   | _ :: _ => method order hook_caller'
   end)%result.

Definition set_call_order_caller (new_order : CallOrderDict)
  (spec_name : string) (hook_caller : HookCaller) : result HookCaller :=
  set_call_order_body bring_to_front new_order spec_name hook_caller.

(** Outer loop of [PluginManager.set_call_order]. *)
Fixpoint set_call_order_hooks (new_order : CallOrderDict)
  (items : Dict.t HookCaller) : result (Dict.t HookCaller) :=
  match items with
  | [] => Ok []
  | (spec_name, hook_caller) :: rest =>
      (let? hook_caller' :=
         set_call_order_caller new_order spec_name hook_caller in
       let? rest' := set_call_order_hooks new_order rest in
       Ok ((spec_name, hook_caller') :: rest'))%result
  end.

Definition set_call_order (new_order : CallOrderDict) (self : PluginManager)
  : result PluginManager :=
  (let? hooks' := set_call_order_hooks new_order (hooks self) in
   Ok {| hooks := hooks' |})%result.

(** A caller whose order [call_order] saves. *)
Definition exported (caller : HookCaller) : Prop :=
  is_firstresult caller = true /\ 1 < length (get_hookimpls caller).

(** The flag a call-order list records for [name]: that of its last
    entry naming [name], the one whose assignment is executed last. *)
Fixpoint recorded (name : string) (ps : list Entry.t) : option bool :=
  match ps with
  | [] => None
  | p :: rest =>
      match recorded name rest with
      | Some e => Some e
      | None =>
          if String.eqb (Entry.plugin p) name then Some (Entry.enabled p)
          else None
      end
  end.

(** The entries of a call-order list whose plugin has an implementation
    in [caller]. *)
Definition installed (caller : HookCaller) (ps : list Entry.t)
  : list Entry.t :=
  filter (fun p => implements caller (Entry.plugin p)) ps.

(** Two managers hold the same registered plugins: the same
    specifications, each implemented by the same plugins. *)
Definition same_plugins (a b : PluginManager) : Prop :=
  forall spec_name,
    match Dict.get spec_name (hooks a), Dict.get spec_name (hooks b) with
    | Some caller_a, Some caller_b =>
        is_firstresult caller_a = is_firstresult caller_b /\
        forall name, implements caller_a name = implements caller_b name
    | None, None => True
    | _, _ => False
    end.

(** The invariant of a hook caller: no plugin has two implementations
    of the specification. *)
Definition caller_wf (caller : HookCaller) : Prop :=
  NoDup (map plugin_name (get_hookimpls caller)).

(** The invariant of the manager: specification names are distinct and
    every hook caller satisfies its invariant. *)
Definition hooks_wf (self : PluginManager) : Prop :=
  Dict.wf (hooks self) /\
  Forall (fun item => caller_wf (snd item)) (hooks self).

(* ================================================================== *)
(** ** Python values seen by the result callbacks *)
(* ================================================================== *)

(** What a plugin may hand to a result callback.  [PyFunction] is an
    instance of [types.FunctionType] (a [def] or a [lambda]), [PyClass] a
    class object, and [PyCallable] any other callable: a built-in
    function, a bound method, or an object such as a [functools.partial],
    which has no [__name__].  [code] stands for the identity of a
    callable object; two callables of the same name are different
    objects when their [code] differs. *)
Inductive PyObj : Type :=
| PyNone
| PyBool (b : bool)
| PyInt (n : nat)
| PyStr (s : string)
| PyPath (s : string)
| PyTuple (items : list PyObj)
| PyList (items : list PyObj)
| PyDict (items : list (string * PyObj))
| PyFunction (name : string) (code : nat)
| PyClass (name : string) (code : nat)
| PyCallable (name : option string) (code : nat).

(** [callable(o)] *)
Definition callable (o : PyObj) : bool :=
  match o with
  | PyFunction _ _ | PyClass _ _ | PyCallable _ _ => true
  | _ => false
  end.

(** [isinstance(o, FunctionType)] *)
Definition is_function (o : PyObj) : bool :=
  match o with
  | PyFunction _ _ => true
  | _ => false
  end.

(** [isinstance(o, tuple)] *)
Definition is_tuple (o : PyObj) : bool :=
  match o with
  | PyTuple _ => true
  | _ => false
  end.

(** [isinstance(o, list)] *)
Definition is_list (o : PyObj) : bool :=
  match o with
  | PyList _ => true
  | _ => false
  end.

(** [isinstance(o, dict)] *)
Definition is_dict (o : PyObj) : bool :=
  match o with
  | PyDict _ => true
  | _ => false
  end.

(** [isinstance(o, (str, Path))] *)
Definition is_str_or_path (o : PyObj) : bool :=
  match o with
  | PyStr _ | PyPath _ => true
  | _ => false
  end.

(** [o.__name__] *)
Definition getattr_name (o : PyObj) : result string :=
  match o with
  | PyFunction name _ | PyClass name _ | PyCallable (Some name) _ => Ok name
  | _ => Raise (AttributeError (NoAttribute "__name__"))
  end.

(** [d[k]] *)
Definition getitem (V : Type) (k : string) (d : Dict.t V) : result V :=
  match Dict.get k d with
  | Some v => Ok v
  | None => Raise (KeyError (MissingKey k))
  end.

(** [bool(s)] for a string. *)
Definition nonempty (s : string) : bool :=
  match s with
  | EmptyString => false
  | String _ _ => true
  end.

(** [s.replace(old, new)] for one-character [old] and [new]. *)
Fixpoint replace (old new : ascii) (s : string) : string :=
  match s with
  | EmptyString => EmptyString
  | String c rest =>
      String (if Ascii.eqb c old then new else c) (replace old new rest)
  end.

(** [for x in args if isinstance(args, list) else [args]] *)
Definition iter_args (args : PyObj) : list PyObj :=
  match args with
  | PyList items => items
  | _ => [args]
  end.

(* ================================================================== *)
(** ** Registries, warnings and the callback monad *)
(* ================================================================== *)

(** The calls to [warn], with the fields formatted into each message. *)
Inductive Warning : Type :=
| InvalidTuple (plugin_name hook_name : string)
| NonCallableWidget (plugin_name hook_name : string) (_cls : PyObj)
| InvalidKwargs (plugin_name hook_name class_name : string)
| DockWidgetOverwritten (plugin_name name : string)
| NonFunction (plugin_name hook_name : string) (func : PyObj)
    (tuple_hint : bool)
| FunctionWidgetOverwritten (plugin_name name : string)
| NonDictSampleData (plugin_name hook_name : string)
| SampleMissingKeys (hook_name plugin_name name : string)
| InvalidSampleData (plugin_name name hook_name : string) (data : PyObj).

(** A dock-widget entry [(_cls, kwargs)]; [kwargs] is known to be a
    [dict] when the entry is stored. *)
Definition DockWidget : Type := (PyObj * Dict.t PyObj)%type.

(** A [SampleDict]. *)
Definition SampleDict : Type := Dict.t PyObj.

(** The module-level dictionaries and the warnings issued so far. *)
Record Registries : Type := {
  dock_widgets : Dict.t (Dict.t DockWidget);
  function_widgets : Dict.t (Dict.t PyObj);
  _sample_data : Dict.t (Dict.t SampleDict);
  warnings : list Warning
}.

Definition empty_registries : Registries :=
  {| dock_widgets := []; function_widgets := []; _sample_data := [];
     warnings := [] |}.

(** State and exceptions: a computation returns or raises, and in both
    cases leaves the registries as it mutated them. *)
Definition M (A : Type) : Type := Registries -> result A * Registries.

Definition ret (A : Type) (a : A) : M A := fun s => (Ok a, s).

Definition bind (A B : Type) (m : M A) (k : A -> M B) : M B :=
  fun s =>
    match m s with
    | (Ok a, s') => k a s'
    | (Raise e, s') => (Raise e, s')
    end.

Definition lift (A : Type) (r : result A) : M A := fun s => (r, s).

Declare Scope callback_scope.
Delimit Scope callback_scope with callback.
Notation "x <- m ;; k" := (bind m (fun x => k))
  (at level 61, m at next level, right associativity) : callback_scope.
Notation "m ;; k" := (bind m (fun _ => k))
  (at level 61, right associativity) : callback_scope.

(** The registries after some more warnings. *)
Definition with_warnings (ws : list Warning) (s : Registries) : Registries :=
  {| dock_widgets := dock_widgets s;
     function_widgets := function_widgets s;
     _sample_data := _sample_data s;
     warnings := warnings s ++ ws |}.

(** [warn(w)] *)
Definition warn (w : Warning) : M unit :=
  fun s => (Ok tt, with_warnings [w] s).

Definition read (A : Type) (field : Registries -> A) : M A :=
  fun s => (Ok (field s), s).

Definition write_dock_widgets (d : Dict.t (Dict.t DockWidget)) : M unit :=
  fun s =>
    (Ok tt,
     {| dock_widgets := d;
        function_widgets := function_widgets s;
        _sample_data := _sample_data s;
        warnings := warnings s |}).

Definition write_function_widgets (d : Dict.t (Dict.t PyObj)) : M unit :=
  fun s =>
    (Ok tt,
     {| dock_widgets := dock_widgets s;
        function_widgets := d;
        _sample_data := _sample_data s;
        warnings := warnings s |}).

Definition write_sample_data (d : Dict.t (Dict.t SampleDict)) : M unit :=
  fun s =>
    (Ok tt,
     {| dock_widgets := dock_widgets s;
        function_widgets := function_widgets s;
        _sample_data := d;
        warnings := warnings s |}).

(** [for x in xs: body(x)] *)
Fixpoint for_each (A : Type) (body : A -> M unit) (xs : list A) : M unit :=
  match xs with
  | [] => ret tt
  | x :: rest => (body x ;; for_each body rest)%callback
  end.

(** [registry[plugin_name][name] = value], after the inner dictionary
    exists. *)
Definition set_item (V : Type) (plugin_name name : string) (value : V)
  (registry : Dict.t (Dict.t V)) : Dict.t (Dict.t V) :=
  Dict.set plugin_name
    (Dict.set name value (Dict.get_default plugin_name [] registry))
    registry.

(* ================================================================== *)
(** ** The result callbacks *)
(* ================================================================== *)

Definition dock_widget_hook : string :=
  "`napari_experimental_provide_dock_widget`".

Definition function_hook : string :=
  "`napari_experimental_provide_function`".

Definition sample_data_hook : string := "napari_provide_sample_data".

(** The [isinstance(arg, tuple)] branch at the head of the loop of
    [register_dock_widget]: [None] for the empty tuple, otherwise
    [(_cls, kwargs)]. *)
Definition unpack_arg (arg : PyObj) : option (PyObj * PyObj) :=
  match arg with
  | PyTuple [] => None
  | PyTuple (_cls :: rest) =>
      Some (_cls, match rest with
                  | kwargs :: _ => kwargs
                  | [] => PyDict []
                  end)
  | _ => Some (arg, PyDict [])
  end.

Section Callbacks.

(** [napari.utils.misc.camel_to_spaces] is imported from a module that
    is not among the sources; it is a parameter of the development. *)
Variable camel_to_spaces : string -> string.

(** [str(o)] for objects that are not themselves strings depends on
    their class; it is a parameter as well. *)
Variable object_str : PyObj -> string.

(** [str(o)] *)
Definition py_str (o : PyObj) : string :=
  match o with
  | PyStr s => s
  | _ => object_str o
  end.

(** [str(kwargs.get('name', '')) or camel_to_spaces(_cls.__name__)];
    the right operand is evaluated only when the left one is empty. *)
Definition dock_widget_name (_cls : PyObj) (kwargs : Dict.t PyObj)
  : result string :=
  let explicit := py_str (Dict.get_default "name" (PyStr "") kwargs) in
  if nonempty explicit then Ok explicit
  else (let? class_name := getattr_name _cls in
        Ok (camel_to_spaces class_name))%result.

(** Body of the loop of [register_dock_widget]. *)
Definition register_dock_widget_arg (plugin_name : string) (arg : PyObj)
  : M unit :=
  let hook_name := dock_widget_hook in
  match unpack_arg arg with
  | None => warn (InvalidTuple plugin_name hook_name)
  | Some (_cls, kwargs) =>
      if negb (callable _cls)
      then warn (NonCallableWidget plugin_name hook_name _cls)
      else
        match kwargs with
        | PyDict kwargs =>
            (name <- lift (dock_widget_name _cls kwargs) ;;
             registry <- read dock_widgets ;;
             (if negb (Dict.contains plugin_name registry)
              then write_dock_widgets (Dict.set plugin_name [] registry)
              else if Dict.contains name
                        (Dict.get_default plugin_name [] registry)
              then warn (DockWidgetOverwritten plugin_name name)
              else ret tt) ;;
             registry <- read dock_widgets ;;
             write_dock_widgets
               (set_item plugin_name name (_cls, kwargs) registry)
            )%callback
        | _ =>
            (class_name <- lift (getattr_name _cls) ;;
             warn (InvalidKwargs plugin_name hook_name class_name)
            )%callback
        end
  end.

Definition register_dock_widget (args : PyObj) (plugin_name : string)
  : M unit :=
  for_each (register_dock_widget_arg plugin_name) (iter_args args).

(** [get_plugin_widget], reading the module-level [dock_widgets]. *)
Definition get_plugin_widget (dock_widgets : Dict.t (Dict.t DockWidget))
  (plugin_name : string) (widget_name : option string)
  : result DockWidget :=
  match Dict.get plugin_name dock_widgets with
  | None | Some [] => Raise (KeyError (NoDockWidgets plugin_name))
  | Some plg_wdgs =>
      match widget_name with
      | None | Some EmptyString => (* [not widget_name] *)
          if (1 <? length plg_wdgs)%nat
          then Raise (ValueError
                        (ManyDockWidgets plugin_name (Dict.keys plg_wdgs)))
          else
            match Dict.keys plg_wdgs with
            | [] => Raise (IndexError (OutOfRange 0))
            | widget_name :: _ => getitem widget_name plg_wdgs
            end
      | Some widget_name =>
          if negb (Dict.contains widget_name plg_wdgs)
          then Raise (KeyError (NoWidgetNamed plugin_name widget_name))
          else getitem widget_name plg_wdgs
      end
  end.

(** Body of the loop of [register_function_widget]. *)
Definition register_function_widget_func (plugin_name : string)
  (func : PyObj) : M unit :=
  let hook_name := function_hook in
  if negb (is_function func)
  then warn (NonFunction plugin_name hook_name func (is_tuple func))
  else
    (func_name <- lift (getattr_name func) ;;
     let name := replace "_" " " func_name in
     registry <- read function_widgets ;;
     (if negb (Dict.contains plugin_name registry)
      then write_function_widgets (Dict.set plugin_name [] registry)
      else if Dict.contains name (Dict.get_default plugin_name [] registry)
      then warn (FunctionWidgetOverwritten plugin_name name)
      else ret tt) ;;
     registry <- read function_widgets ;;
     write_function_widgets (set_item plugin_name name func registry)
    )%callback.

Definition register_function_widget (args : PyObj) (plugin_name : string)
  : M unit :=
  for_each (register_function_widget_func plugin_name) (iter_args args).

(** The [isinstance(datum, dict)] branch of [register_sample_data]:
    [None] when a dictionary lacks a required key, otherwise the
    dictionary itself or the one built from the shorthand. *)
Definition normalize_datum (name : string) (datum : PyObj)
  : option SampleDict :=
  match datum with
  | PyDict datum =>
      if negb (Dict.contains "data" datum)
         || negb (Dict.contains "display_name" datum)
      then None
      else Some datum
  | _ => Some [("data", datum); ("display_name", PyStr name)]
  end.

(** The loop of [register_sample_data] over [list(data.items())],
    filling the local dictionary [_data]. *)
Fixpoint collect_sample_data (plugin_name : string)
  (items : list (string * PyObj)) (_data : Dict.t SampleDict)
  : M (Dict.t SampleDict) :=
  let hook_name := sample_data_hook in
  match items with
  | [] => ret _data
  | (name, datum) :: rest =>
      match normalize_datum name datum with
      | None =>
          (warn (SampleMissingKeys hook_name plugin_name name) ;;
           collect_sample_data plugin_name rest _data)%callback
      | Some datum =>
          (data <- lift (getitem "data" datum) ;;
           if negb (callable data || is_str_or_path data)
           then
             warn (InvalidSampleData plugin_name name hook_name data) ;;
             collect_sample_data plugin_name rest _data
           else
             collect_sample_data plugin_name rest
               (Dict.set name datum _data))%callback
      end
  end.

Definition register_sample_data (data : PyObj) (plugin_name : string)
  : M unit :=
  let hook_name := sample_data_hook in
  match data with
  | PyDict items =>
      (_data <- collect_sample_data plugin_name items [] ;;
       registry <- read _sample_data ;;
       (if negb (Dict.contains plugin_name registry)
        then write_sample_data (Dict.set plugin_name [] registry)
        else ret tt) ;;
       registry <- read _sample_data ;;
       write_sample_data
         (Dict.set plugin_name
            (Dict.update _data (Dict.get_default plugin_name [] registry))
            registry))%callback
  | _ => warn (NonDictSampleData plugin_name hook_name)
  end.

End Callbacks.

(** [available_samples] *)
Definition available_samples (registry : Dict.t (Dict.t SampleDict))
  : list (string * string) :=
  flat_map (fun item => map (fun s => (fst item, s)) (Dict.keys (snd item)))
    registry.

(* ================================================================== *)
(** ** States the callbacks are expected to reach *)
(* ================================================================== *)

(** The warning list after an item was stored under [name]: one more
    warning when [name] was taken. *)
Definition overwrite_warning (V : Type) (w : Warning)
  (plugin_name name : string) (registry : Dict.t (Dict.t V))
  : list Warning :=
  if Dict.contains name (Dict.get_default plugin_name [] registry)
  then [w] else [].

Definition stored_dock_widget (plugin_name name : string)
  (value : DockWidget) (s : Registries) : Registries :=
  {| dock_widgets := set_item plugin_name name value (dock_widgets s);
     function_widgets := function_widgets s;
     _sample_data := _sample_data s;
     warnings :=
       warnings s
       ++ overwrite_warning (DockWidgetOverwritten plugin_name name)
            plugin_name name (dock_widgets s) |}.

Definition stored_function_widget (plugin_name name : string)
  (func : PyObj) (s : Registries) : Registries :=
  {| dock_widgets := dock_widgets s;
     function_widgets := set_item plugin_name name func (function_widgets s);
     _sample_data := _sample_data s;
     warnings :=
       warnings s
       ++ overwrite_warning (FunctionWidgetOverwritten plugin_name name)
            plugin_name name (function_widgets s) |}.

Definition stored_sample_data (plugin_name : string)
  (_data : Dict.t SampleDict) (ws : list Warning) (s : Registries)
  : Registries :=
  {| dock_widgets := dock_widgets s;
     function_widgets := function_widgets s;
     _sample_data :=
       Dict.set plugin_name
         (Dict.update _data (Dict.get_default plugin_name [] (_sample_data s)))
         (_sample_data s);
     warnings := warnings s ++ ws |}.

(** The decision [register_sample_data] takes on one item of the
    mapping: the entry to store, or the warning to issue. *)
Definition check_datum (plugin_name name : string) (datum : PyObj)
  : SampleDict + Warning :=
  match datum with
  | PyDict d =>
      match Dict.get "data" d, Dict.get "display_name" d with
      | Some data, Some _ =>
          if callable data || is_str_or_path data then inl d
          else inr (InvalidSampleData plugin_name name sample_data_hook data)
      | _, _ => inr (SampleMissingKeys sample_data_hook plugin_name name)
      end
  | _ =>
      if callable datum || is_str_or_path datum
      then inl [("data", datum); ("display_name", PyStr name)]
      else inr (InvalidSampleData plugin_name name sample_data_hook datum)
  end.

(** The accepted entries and the warnings of a whole mapping. *)
Fixpoint checked_data (plugin_name : string) (items : list (string * PyObj))
  (_data : Dict.t SampleDict) : Dict.t SampleDict :=
  match items with
  | [] => _data
  | (name, datum) :: rest =>
      match check_datum plugin_name name datum with
      | inl entry => checked_data plugin_name rest (Dict.set name entry _data)
      | inr _ => checked_data plugin_name rest _data
      end
  end.

Fixpoint checked_warnings (plugin_name : string)
  (items : list (string * PyObj)) : list Warning :=
  match items with
  | [] => []
  | (name, datum) :: rest =>
      match check_datum plugin_name name datum with
      | inl _ => checked_warnings plugin_name rest
      | inr w => w :: checked_warnings plugin_name rest
      end
  end.

(* ================================================================== *)
(** ** Sample states *)
(* ================================================================== *)

Definition impl (f : nat) (name : string) (b : bool) : HookImplementation :=
  {| function := f; plugin_name := name; enabled := b |}.

(** A manager after registering [builtins], [svg] and [pluginA]. *)
Definition sample_manager : PluginManager :=
  {| hooks :=
       [("napari_get_reader",
         {| is_firstresult := true;
            _nonwrappers := [impl 1 "builtins" true; impl 2 "svg" false;
                             impl 3 "pluginA" true] |});
        ("napari_provide_sample_data",
         {| is_firstresult := false;
            _nonwrappers := [impl 4 "builtins" true;
                             impl 5 "scikit-image" true] |});
        ("napari_get_writer",
         {| is_firstresult := true;
            _nonwrappers := [impl 6 "builtins" true] |})] |}.

(** The same plugins registered afresh, in another order, all enabled. *)
Definition fresh_manager : PluginManager :=
  {| hooks :=
       [("napari_get_reader",
         {| is_firstresult := true;
            _nonwrappers := [impl 11 "pluginA" true; impl 12 "builtins" true;
                             impl 13 "svg" true] |});
        ("napari_provide_sample_data",
         {| is_firstresult := false;
            _nonwrappers := [impl 14 "scikit-image" true;
                             impl 15 "builtins" true] |});
        ("napari_get_writer",
         {| is_firstresult := true;
            _nonwrappers := [impl 16 "builtins" true] |})] |}.

(** A stored call order that still names the uninstalled plugin
    [gone]. *)
Definition stale_order : CallOrderDict :=
  [("napari_get_reader",
    [{| Entry.plugin := "svg"; Entry.enabled := true |};
     {| Entry.plugin := "gone"; Entry.enabled := false |};
     {| Entry.plugin := "builtins"; Entry.enabled := false |}])].

(** A stored call order that names the uninstalled plugin [gone] and
    lists the installed plugin [svg] twice. *)
Definition repeated_order : CallOrderDict :=
  [("napari_get_reader",
    [{| Entry.plugin := "svg"; Entry.enabled := true |};
     {| Entry.plugin := "gone"; Entry.enabled := false |};
     {| Entry.plugin := "svg"; Entry.enabled := false |}])].

(** A hook-caller method that raises [e] whenever it is called. *)
Definition refusing (e : exn) (new_order : list string)
  (caller : HookCaller) : result HookCaller :=
  Raise e.

(** Stand-ins for [camel_to_spaces] and for [str] of other objects in
    closed examples. *)
Definition unchanged_name (s : string) : string := s.

Definition some_str (o : PyObj) : string := "<object>".

(** Dock-widget registries of a plugin with no, one and two widgets. *)
Definition no_widgets : Dict.t (Dict.t DockWidget) := [("pluginA", [])].

Definition one_widget : Dict.t (Dict.t DockWidget) :=
  [("pluginA", [("One", (PyClass "One" 1, []))])].

Definition two_widgets : Dict.t (Dict.t DockWidget) :=
  [("pluginA", [("One", (PyClass "One" 1, []));
                ("Two", (PyClass "Two" 2, []))])].

(** Two results of the sample-data hook of one plugin that use the same
    sample name. *)
Definition first_samples : PyObj :=
  PyDict [("foo", PyFunction "make_first" 1)].

Definition second_samples : PyObj :=
  PyDict [("foo", PyFunction "make_second" 2)].

(* ================================================================== *)
(** ** Notions used to state what the operations keep *)
(* ================================================================== *)

(** [exported] as a test. *)
Definition exportedb (caller : HookCaller) : bool :=
  is_firstresult caller && (1 <? length (get_hookimpls caller))%nat.

(** What identifies an implementation apart from its flag. *)
Definition identity (impl : HookImplementation) : nat * string :=
  (function impl, plugin_name impl).

(** An implementation carrying the flag that a call-order list records
    for its plugin, if it records one. *)
Definition flagged (ps : list Entry.t) (impl : HookImplementation)
  : HookImplementation :=
  match recorded (plugin_name impl) ps with
  | Some e => with_enabled e impl
  | None => impl
  end.

(** Keys are distinct at both levels of a registry. *)
Definition registry_wf (V : Type) (registry : Dict.t (Dict.t V)) : Prop :=
  Dict.wf registry /\ Forall (fun item => Dict.wf (snd item)) registry.

(** The entries of every plugin other than [plugin_name] are the same in
    [registry'] as in [registry]. *)
Definition same_for_others (V : Type) (plugin_name : string)
  (registry registry' : Dict.t (Dict.t V)) : Prop :=
  forall p, p <> plugin_name -> Dict.get p registry' = Dict.get p registry.

(** Every name registered in [registry] is still registered in
    [registry']. *)
Definition keeps_entries (V : Type)
  (registry registry' : Dict.t (Dict.t V)) : Prop :=
  forall p n,
    Dict.contains n (Dict.get_default p [] registry) = true ->
    Dict.contains n (Dict.get_default p [] registry') = true.

(** The warnings of [s'] are those of [s] followed by some more. *)
Definition extends_warnings (s s' : Registries) : Prop :=
  exists ws, warnings s' = warnings s ++ ws.

(** A registry that a callback running for [plugin_name] has worked on:
    other plugins are as they were, no registered name is gone, and keys
    are still distinct if they were. *)
Definition grows (V : Type) (plugin_name : string)
  (registry registry' : Dict.t (Dict.t V)) : Prop :=
  same_for_others plugin_name registry registry' /\
  keeps_entries registry registry' /\
  (registry_wf registry -> registry_wf registry').

Definition changes_only_dock_widgets (plugin_name : string)
  (s s' : Registries) : Prop :=
  grows plugin_name (dock_widgets s) (dock_widgets s') /\
  function_widgets s' = function_widgets s /\
  _sample_data s' = _sample_data s /\
  extends_warnings s s'.

Definition changes_only_function_widgets (plugin_name : string)
  (s s' : Registries) : Prop :=
  grows plugin_name (function_widgets s) (function_widgets s') /\
  dock_widgets s' = dock_widgets s /\
  _sample_data s' = _sample_data s /\
  extends_warnings s s'.

Definition changes_only_sample_data (plugin_name : string)
  (s s' : Registries) : Prop :=
  grows plugin_name (_sample_data s) (_sample_data s') /\
  dock_widgets s' = dock_widgets s /\
  function_widgets s' = function_widgets s /\
  extends_warnings s s'.

(** A sample value that [register_sample_data] takes in shorthand
    form. *)
Definition shorthand (datum : PyObj) : bool :=
  negb (is_dict datum) && (callable datum || is_str_or_path datum).

(* ================================================================== *)
(** ** Facts about dictionaries *)
(* ================================================================== *)

Module DictFacts.

Section Facts.
Variable V : Type.
Implicit Types (d : Dict.t V) (k : string) (v : V).

Lemma get_set_same k v d : Dict.get k (Dict.set k v d) = Some v.
Proof.
  induction d as [|[k' v'] d IH]; simpl.
  - now rewrite String.eqb_refl.
  - destruct (String.eqb k' k) eqn:E; simpl; rewrite E; auto.
Qed.

Lemma get_set_other k k' v d :
  k <> k' -> Dict.get k' (Dict.set k v d) = Dict.get k' d.
Proof.
  intros Hne. induction d as [|[k0 v0] d IH]; simpl.
  - destruct (String.eqb_spec k k'); congruence.
  - destruct (String.eqb_spec k0 k) as [->|Hk]; simpl.
    + destruct (String.eqb_spec k k'); congruence.
    + now rewrite IH.
Qed.

Lemma contains_set_same k v d : Dict.contains k (Dict.set k v d) = true.
Proof. unfold Dict.contains. now rewrite get_set_same. Qed.

Lemma contains_set_other k k' v d :
  k <> k' -> Dict.contains k' (Dict.set k v d) = Dict.contains k' d.
Proof. intros H. unfold Dict.contains. now rewrite get_set_other. Qed.

Lemma contains_set k k' v d :
  Dict.contains k' (Dict.set k v d)
  = (String.eqb k k' || Dict.contains k' d)%bool.
Proof.
  destruct (String.eqb_spec k k') as [->|Hne]; simpl.
  - apply contains_set_same.
  - now apply contains_set_other.
Qed.

Lemma get_some_in k v d : Dict.get k d = Some v -> In (k, v) d.
Proof.
  induction d as [|[k' v'] d IH]; simpl; [discriminate|].
  destruct (String.eqb_spec k' k) as [->|Hne].
  - intros [= ->]. now left.
  - intros H. right. auto.
Qed.

Lemma get_none_not_in k d :
  Dict.get k d = None <-> ~ In k (Dict.keys d).
Proof.
  induction d as [|[k' v'] d IH]; simpl.
  - tauto.
  - destruct (String.eqb_spec k' k) as [->|Hne].
    + split; [discriminate | tauto].
    + rewrite IH. tauto.
Qed.

Lemma contains_in k d :
  Dict.contains k d = true <-> In k (Dict.keys d).
Proof.
  unfold Dict.contains.
  destruct (Dict.get k d) eqn:E.
  - split; [intros _ | reflexivity].
    apply get_some_in in E.
    apply (in_map fst) in E. exact E.
  - apply get_none_not_in in E.
    split; [discriminate | tauto].
Qed.

Lemma in_get_wf k v d : Dict.wf d -> In (k, v) d -> Dict.get k d = Some v.
Proof.
  unfold Dict.wf. induction d as [|[k' v'] d IH]; simpl; [tauto|].
  intros Hnd [Heq | Hin].
  - injection Heq as -> ->. now rewrite String.eqb_refl.
  - inversion Hnd as [|? ? Hnotin Hnd']; subst.
    destruct (String.eqb_spec k' k) as [->|Hne].
    + exfalso. apply Hnotin. apply (in_map fst) in Hin. exact Hin.
    + auto.
Qed.

Lemma keys_set_present k v d :
  Dict.contains k d = true -> Dict.keys (Dict.set k v d) = Dict.keys d.
Proof.
  unfold Dict.contains.
  induction d as [|[k' v'] d IH]; simpl; [discriminate|].
  destruct (String.eqb_spec k' k) as [->|Hne]; simpl; [reflexivity|].
  intros H. now rewrite IH.
Qed.

Lemma keys_set_absent k v d :
  Dict.contains k d = false ->
  Dict.keys (Dict.set k v d) = Dict.keys d ++ [k].
Proof.
  unfold Dict.contains.
  induction d as [|[k' v'] d IH]; simpl; [reflexivity|].
  destruct (String.eqb_spec k' k) as [->|Hne]; simpl; [discriminate|].
  intros H. now rewrite IH.
Qed.

Lemma wf_set k v d : Dict.wf d -> Dict.wf (Dict.set k v d).
Proof.
  intros Hwf. unfold Dict.wf.
  destruct (Dict.contains k d) eqn:E.
  - now rewrite keys_set_present.
  - rewrite keys_set_absent by assumption.
    apply NoDup_app; [exact Hwf | repeat constructor; simpl; tauto |].
    intros x Hx [<-|[]].
    apply contains_in in Hx. congruence.
Qed.

Lemma count_absent k d : ~ In k (Dict.keys d) -> Dict.count k d = 0.
Proof.
  unfold Dict.count.
  induction d as [|[k' v'] d IH]; simpl; [reflexivity|].
  intros H. destruct (String.eqb_spec k' k) as [->|Hne]; [tauto|].
  apply IH. tauto.
Qed.

Lemma count_wf_present k d :
  Dict.wf d -> In k (Dict.keys d) -> Dict.count k d = 1.
Proof.
  unfold Dict.wf, Dict.count.
  induction d as [|[k' v'] d IH]; simpl; [tauto|].
  intros Hnd Hin. inversion Hnd as [|? ? Hnotin Hnd']; subst.
  destruct (String.eqb_spec k' k) as [->|Hne]; simpl.
  - f_equal. now apply count_absent.
  - destruct Hin as [?|Hin]; [congruence|]. auto.
Qed.

(** After [d[k] = v] there is exactly one item under [k]. *)
Lemma count_set k v d : Dict.wf d -> Dict.count k (Dict.set k v d) = 1.
Proof.
  intros Hwf. apply count_wf_present.
  - now apply wf_set.
  - apply contains_in, contains_set_same.
Qed.

End Facts.

End DictFacts.

(* ================================================================== *)
(** ** Exporting the call order *)
(* ================================================================== *)

Import DictFacts.

Lemma call_order_step_contains order spec_name caller s :
  Dict.contains s (call_order_step order (spec_name, caller)) = true <->
  Dict.contains s order = true \/ (s = spec_name /\ exported caller).
Proof.
  unfold call_order_step, exported.
  destruct (is_firstresult caller); simpl.
  - destruct (Nat.ltb_spec 1 (length (get_hookimpls caller))) as [Hlt|Hge].
    + rewrite contains_set. rewrite orb_true_iff.
      destruct (String.eqb_spec spec_name s) as [->|Hne].
      * tauto.
      * split; [intros [?|?]; [discriminate | tauto]|].
        intros [?|[? _]]; [tauto | congruence].
    + split; [tauto|]. intros [?|[_ [_ ?]]]; [assumption | lia].
  - split; [tauto|]. intros [?|[_ [? _]]]; [assumption | discriminate].
Qed.

Lemma call_order_fold_contains items order s :
  Dict.contains s (fold_left call_order_step items order) = true <->
  Dict.contains s order = true \/
  exists caller, In (s, caller) items /\ exported caller.
Proof.
  revert order. induction items as [|[spec_name caller] items IH];
    intros order; cbn [fold_left In].
  - split; [tauto|]. intros [?|[? [[] _]]]. assumption.
  - rewrite IH, call_order_step_contains. split.
    + intros [[?|[-> Hex]]|[c [Hin Hex]]].
      * now left.
      * right. exists caller. auto.
      * right. exists c. auto.
    + intros [?|[c [[Heq|Hin] Hex]]].
      * auto.
      * injection Heq as <- <-. auto.
      * right. exists c. auto.
Qed.

Lemma call_order_step_get_other order spec_name caller s :
  s <> spec_name ->
  Dict.get s (call_order_step order (spec_name, caller)) = Dict.get s order.
Proof.
  intros Hne. unfold call_order_step.
  destruct (negb (is_firstresult caller)); [reflexivity|].
  destruct (1 <? length (get_hookimpls caller))%nat; [|reflexivity].
  apply get_set_other. congruence.
Qed.

Lemma call_order_fold_get_other items order s :
  ~ In s (Dict.keys items) ->
  Dict.get s (fold_left call_order_step items order) = Dict.get s order.
Proof.
  revert order. induction items as [|[spec_name caller] items IH];
    intros order Hnotin; cbn [fold_left Dict.keys map fst In] in *;
    [reflexivity|].
  rewrite IH by tauto.
  apply call_order_step_get_other. intros ->. tauto.
Qed.

Lemma call_order_fold_get items order s caller :
  Dict.wf items -> Dict.get s items = Some caller -> exported caller ->
  Dict.get s (fold_left call_order_step items order)
  = Some (map export_entry (rev (get_hookimpls caller))).
Proof.
  unfold Dict.wf. revert order.
  induction items as [|[spec_name c] items IH]; intros order Hwf Hget Hex;
    cbn [fold_left Dict.keys map fst Dict.get] in *; [discriminate|].
  inversion Hwf as [|? ? Hnotin Hwf']; subst.
  destruct (String.eqb_spec spec_name s) as [->|Hne].
  - injection Hget as ->.
    rewrite call_order_fold_get_other by assumption.
    unfold call_order_step. destruct Hex as [-> Hlen]. simpl.
    apply Nat.ltb_lt in Hlen. rewrite Hlen.
    apply get_set_same.
  - now apply IH.
Qed.

(** The record read at a specification that is exported. *)
Lemma call_order_get self spec_name caller :
  Dict.wf (hooks self) ->
  Dict.get spec_name (hooks self) = Some caller -> exported caller ->
  Dict.get spec_name (call_order self)
  = Some (map export_entry (rev (get_hookimpls caller))).
Proof. intros. unfold call_order. now apply call_order_fold_get. Qed.

Lemma call_order_contains self spec_name :
  Dict.wf (hooks self) ->
  Dict.contains spec_name (call_order self) = true <->
  exists caller,
    Dict.get spec_name (hooks self) = Some caller /\ exported caller.
Proof.
  intros Hwf. unfold call_order. rewrite call_order_fold_contains.
  split.
  - intros [H|[c [Hin Hex]]]; [discriminate|].
    exists c. split; [now apply in_get_wf | assumption].
  - intros [c [Hget Hex]]. right. exists c.
    split; [now apply get_some_in | assumption].
Qed.

(** C3.  The record returned by [call_order] has an entry for a
    specification name exactly when the specification is first-result and
    has more than one implementation; collect-all specifications and
    specifications with at most one implementation are never exported. *)
Theorem call_order_entry_iff (self : PluginManager) (spec_name : string) :
  Dict.wf (hooks self) ->
  (Dict.contains spec_name (call_order self) = true <->
   exists caller,
     Dict.get spec_name (hooks self) = Some caller /\
     is_firstresult caller = true /\
     1 < length (get_hookimpls caller)) /\
  (forall caller,
     Dict.get spec_name (hooks self) = Some caller ->
     is_firstresult caller = false \/ length (get_hookimpls caller) <= 1 ->
     Dict.contains spec_name (call_order self) = false).
Proof.
  intros Hwf. split.
  - now apply call_order_contains.
  - intros caller Hget Hno.
    destruct (Dict.contains spec_name (call_order self)) eqn:E; [|reflexivity].
    apply call_order_contains in E; [|assumption].
    destruct E as [c [Hget' [Hfirst Hlen]]].
    rewrite Hget in Hget'. injection Hget' as <-.
    destruct Hno as [Hno|Hno]; [congruence | lia].
Qed.

Lemma sample_manager_wf : hooks_wf sample_manager.
Proof.
  split.
  - unfold Dict.wf. simpl.
    repeat constructor; simpl; intuition discriminate.
  - repeat constructor; unfold caller_wf; simpl;
      repeat constructor; simpl; intuition discriminate.
Qed.

Lemma call_order_entry_iff_witness :
  Dict.contains "napari_get_reader" (call_order sample_manager) = true /\
  Dict.contains "napari_provide_sample_data" (call_order sample_manager)
  = false /\
  Dict.contains "napari_get_writer" (call_order sample_manager) = false.
Proof.
  pose proof (call_order_entry_iff sample_manager "napari_get_reader"
                (proj1 sample_manager_wf)) as [[_ Hreader] _].
  pose proof (call_order_entry_iff sample_manager "napari_provide_sample_data"
                (proj1 sample_manager_wf)) as [_ Hsample].
  pose proof (call_order_entry_iff sample_manager "napari_get_writer"
                (proj1 sample_manager_wf)) as [_ Hwriter].
  split; [|split].
  - apply Hreader. eexists. split; [reflexivity|]. simpl. split; [reflexivity | lia].
  - eapply Hsample; [reflexivity|]. left. reflexivity.
  - eapply Hwriter; [reflexivity|]. right. simpl. lia.
Defined.

(* ================================================================== *)
(** ** Looking up and flagging implementations *)
(* ================================================================== *)

Lemma is_plugin_true name impl :
  is_plugin name impl = true <-> plugin_name impl = name.
Proof. unfold is_plugin. apply String.eqb_eq. Qed.

Lemma mem_in name names : mem name names = true <-> In name names.
Proof.
  unfold mem. rewrite existsb_exists. split.
  - intros [x [Hin Heq]]. apply String.eqb_eq in Heq. now subst.
  - intros Hin. exists name. split; [assumption | apply String.eqb_refl].
Qed.

Lemma mem_false name names : mem name names = false <-> ~ In name names.
Proof.
  rewrite <- mem_in. destruct (mem name names); split; intros; congruence.
Qed.

Lemma index_of_none name impls :
  index_of name impls = None <-> existsb (is_plugin name) impls = false.
Proof.
  induction impls as [|impl impls IH]; simpl; [tauto|].
  destruct (is_plugin name impl); simpl; [split; discriminate|].
  rewrite <- IH. destruct (index_of name impls); simpl; split; congruence.
Qed.

Lemma existsb_is_plugin name impls :
  existsb (is_plugin name) impls = true <-> In name (map plugin_name impls).
Proof.
  rewrite existsb_exists, in_map_iff. split.
  - intros [x [Hin Hx]]. exists x. now rewrite is_plugin_true in Hx.
  - intros [x [Hx Hin]]. exists x. now rewrite is_plugin_true.
Qed.

Lemma update_at_names i b impls :
  map plugin_name (update_at i (with_enabled b) impls)
  = map plugin_name impls.
Proof.
  revert i. induction impls as [|impl impls IH]; intros [|i]; simpl;
    try reflexivity.
  now rewrite IH.
Qed.

Lemma update_at_functions i b impls :
  map function (update_at i (with_enabled b) impls) = map function impls.
Proof.
  revert i. induction impls as [|impl impls IH]; intros [|i]; simpl;
    try reflexivity.
  now rewrite IH.
Qed.

(** Assigning [enabled] through the reference returned for [name]
    changes the flag found for [name] and no other. *)
Lemma find_update_at name i b q impls :
  index_of name impls = Some i ->
  option_map enabled
    (find (is_plugin q) (update_at i (with_enabled b) impls))
  = if String.eqb name q then Some b
    else option_map enabled (find (is_plugin q) impls).
Proof.
  revert i. induction impls as [|impl impls IH]; intros i; simpl;
    [discriminate|].
  destruct (is_plugin name impl) eqn:Hn.
  - intros [= <-]. simpl. apply is_plugin_true in Hn.
    unfold is_plugin at 1. simpl. rewrite Hn.
    destruct (String.eqb_spec name q) as [->|Hne]; [reflexivity|].
    unfold is_plugin. rewrite Hn.
    destruct (String.eqb_spec name q); [congruence | reflexivity].
  - destruct (index_of name impls) as [j|] eqn:Hj; simpl; [|discriminate].
    intros [= <-]. simpl.
    destruct (is_plugin q impl) eqn:Hq.
    + apply is_plugin_true in Hq.
      destruct (String.eqb_spec name q) as [->|Hne]; [|reflexivity].
      apply is_plugin_true in Hq. congruence.
    + now apply IH.
Qed.

Lemma implements_names caller caller' :
  map plugin_name (get_hookimpls caller')
  = map plugin_name (get_hookimpls caller) ->
  forall q, implements caller' q = implements caller q.
Proof.
  intros Hnames q. unfold implements.
  destruct (existsb (is_plugin q) (get_hookimpls caller)) eqn:E.
  - apply existsb_is_plugin. rewrite Hnames. now apply existsb_is_plugin.
  - destruct (existsb (is_plugin q) (get_hookimpls caller')) eqn:E';
      [|reflexivity].
    apply existsb_is_plugin in E'. rewrite Hnames in E'.
    apply existsb_is_plugin in E'. congruence.
Qed.

Lemma enabled_of_absent caller q :
  implements caller q = false -> enabled_of q caller = None.
Proof.
  unfold implements, enabled_of. intros H.
  destruct (find (is_plugin q) (get_hookimpls caller)) eqn:E; [|reflexivity].
  apply find_some in E. destruct E as [Hin Hq].
  assert (existsb (is_plugin q) (get_hookimpls caller) = true)
    by (apply existsb_exists; eauto).
  congruence.
Qed.

(** The inner loop never raises: entries without an implementation are
    skipped, the others have their flag assigned in list order and their
    name appended to [order]. *)
Lemma set_call_order_entries_spec ps :
  forall caller order,
  exists caller',
    set_call_order_entries caller order ps
    = Ok (caller', order ++ map Entry.plugin (installed caller ps)) /\
    is_firstresult caller' = is_firstresult caller /\
    map plugin_name (get_hookimpls caller')
    = map plugin_name (get_hookimpls caller) /\
    map function (get_hookimpls caller')
    = map function (get_hookimpls caller) /\
    (installed caller ps = [] -> caller' = caller) /\
    forall q,
      enabled_of q caller'
      = match recorded q ps with
        | Some e => if implements caller q then Some e else None
        | None => enabled_of q caller
        end.
Proof.
  induction ps as [|p ps IH]; intros caller order; simpl.
  - exists caller. rewrite app_nil_r. repeat split; auto.
  - unfold get_plugin_implementation, implements.
    destruct (index_of (Entry.plugin p) (get_hookimpls caller)) as [i|] eqn:Hi.
    + assert (Himp : existsb (is_plugin (Entry.plugin p))
                       (get_hookimpls caller) = true).
      { destruct (existsb (is_plugin (Entry.plugin p)) (get_hookimpls caller))
          eqn:E; [reflexivity|].
        apply index_of_none in E. congruence. }
      rewrite Himp. simpl.
      set (caller1 := set_enabled i (Entry.enabled p) caller).
      assert (Hnames1 : map plugin_name (get_hookimpls caller1)
                        = map plugin_name (get_hookimpls caller))
        by apply update_at_names.
      destruct (IH caller1 (order ++ [Entry.plugin p]))
        as [caller' (Hrun & Hfirst & Hnames & Hfuns & _ & Hflags)].
      exists caller'.
      assert (Hinst : installed caller1 ps = installed caller ps).
      { unfold installed. apply filter_ext. intros a.
        now apply implements_names. }
      rewrite Hinst in Hrun.
      rewrite Hrun, <- app_assoc. simpl.
      repeat split; auto.
      * congruence.
      * rewrite Hfuns. apply update_at_functions.
      * discriminate.
      * intros q. rewrite Hflags.
        rewrite (implements_names caller caller1 Hnames1).
        destruct (recorded q ps) as [e|]; [reflexivity|].
        unfold enabled_of, caller1, set_enabled, get_hookimpls; simpl.
        erewrite find_update_at by exact Hi.
        destruct (String.eqb_spec (Entry.plugin p) q) as [<-|Hne];
          [|reflexivity].
        fold (get_hookimpls caller). fold (implements caller (Entry.plugin p)).
        unfold implements. now rewrite Himp.
    + assert (Himp : existsb (is_plugin (Entry.plugin p))
                       (get_hookimpls caller) = false)
        by now apply index_of_none.
      rewrite Himp.
      destruct (IH caller order)
        as [caller' (Hrun & Hfirst & Hnames & Hfuns & Hsame & Hflags)].
      exists caller'. repeat split; auto.
      intros q. rewrite Hflags.
      destruct (recorded q ps) as [e|]; [reflexivity|].
      destruct (String.eqb_spec (Entry.plugin p) q) as [<-|Hne];
        [|reflexivity].
      rewrite Himp. now apply enabled_of_absent.
Qed.

(* ================================================================== *)
(** ** Bringing implementations to the front *)
(* ================================================================== *)

Lemma repeated_none names : repeated names = None <-> NoDup names.
Proof.
  induction names as [|n names IH]; simpl.
  - split; [constructor | reflexivity].
  - destruct (mem n names) eqn:E.
    + apply mem_in in E. split; [discriminate|].
      intros H. inversion H; subst. contradiction.
    + apply mem_false in E. rewrite IH. split.
      * intros H. now constructor.
      * intros H. now inversion H.
Qed.

(** [bring_to_front] accepts every list of distinct names. *)
Lemma bring_to_front_distinct order caller :
  NoDup order ->
  bring_to_front order caller = Ok (brought_to_front order caller).
Proof.
  intros Hnd. unfold bring_to_front.
  now rewrite (proj2 (repeated_none order) Hnd).
Qed.

(** When [bring_to_front] returns, the names were distinct. *)
Lemma bring_to_front_ok order caller caller' :
  bring_to_front order caller = Ok caller' ->
  NoDup order /\ caller' = brought_to_front order caller.
Proof.
  unfold bring_to_front. intros Hrun.
  destruct (repeated order) eqn:E; [discriminate|].
  apply repeated_none in E. now injection Hrun as <-.
Qed.

Lemma named_names calls names :
  (forall n, In n names -> existsb (is_plugin n) calls = true) ->
  map plugin_name
    (flat_map (fun n => match find (is_plugin n) calls with
                        | Some impl => [impl]
                        | None => []
                        end) names)
  = names.
Proof.
  induction names as [|n names IH]; intros Hall; simpl; [reflexivity|].
  rewrite map_app, IH by (intros; apply Hall; now right).
  destruct (find (is_plugin n) calls) as [impl|] eqn:E.
  - apply find_some in E. destruct E as [_ E].
    apply is_plugin_true in E. simpl. now rewrite E.
  - exfalso. assert (H : existsb (is_plugin n) calls = true)
      by (apply Hall; now left).
    apply existsb_exists in H. destruct H as [x [Hin Hx]].
    apply (find_none _ _ E) in Hin. congruence.
Qed.

Lemma others_names calls order :
  map plugin_name
    (filter (fun impl => negb (mem (plugin_name impl) order)) calls)
  = filter (fun n => negb (mem n order)) (map plugin_name calls).
Proof.
  induction calls as [|impl calls IH]; simpl; [reflexivity|].
  destruct (negb (mem (plugin_name impl) order)); simpl; now rewrite IH.
Qed.

Lemma filter_keeps_all (A : Type) (f : A -> bool) (l : list A) :
  (forall x, f x = true) -> filter f l = l.
Proof.
  intros Hall. induction l as [|x l IH]; simpl; [reflexivity|].
  now rewrite Hall, IH.
Qed.

Lemma filter_keeps_all_in (A : Type) (f : A -> bool) (l : list A) :
  (forall x, In x l -> f x = true) -> filter f l = l.
Proof.
  induction l as [|x l IH]; simpl; intros Hall; [reflexivity|].
  rewrite Hall, IH; auto.
Qed.

Lemma filter_drops_all_in (A : Type) (f : A -> bool) (l : list A) :
  (forall x, In x l -> f x = false) -> filter f l = [].
Proof.
  induction l as [|x l IH]; simpl; intros Hall; [reflexivity|].
  rewrite Hall, IH; auto.
Qed.

Lemma existsb_rev (A : Type) (f : A -> bool) (l : list A) :
  existsb f (rev l) = existsb f l.
Proof.
  destruct (existsb f l) eqn:E.
  - apply existsb_exists in E. destruct E as [x [Hin Hx]].
    apply existsb_exists. exists x. split; [now apply in_rev in Hin | auto].
  - destruct (existsb f (rev l)) eqn:E'; [|reflexivity].
    apply existsb_exists in E'. destruct E' as [x [Hin Hx]].
    apply in_rev in Hin.
    assert (existsb f l = true) by (apply existsb_exists; eauto).
    congruence.
Qed.

(** The dispatch order after [bring_to_front]: the named plugins in the
    given order, then the others as they were. *)
Lemma brought_to_front_names order caller :
  (forall n, In n order -> implements caller n = true) ->
  dispatch_names (brought_to_front order caller)
  = order ++ filter (fun n => negb (mem n order)) (dispatch_names caller).
Proof.
  intros Hall. unfold dispatch_names, dispatch_order, brought_to_front.
  unfold get_hookimpls at 1. simpl.
  rewrite rev_involutive, map_app, others_names. f_equal.
  apply named_names. intros n Hn.
  unfold dispatch_order. rewrite existsb_rev. now apply Hall.
Qed.

Lemma find_unique impls impl :
  NoDup (map plugin_name impls) -> In impl impls ->
  find (is_plugin (plugin_name impl)) impls = Some impl.
Proof.
  induction impls as [|a impls IH]; simpl; [tauto|].
  intros Hnd Hin. inversion Hnd as [|? ? Hnotin Hnd']; subst.
  destruct (is_plugin (plugin_name impl) a) eqn:E.
  - apply is_plugin_true in E. destruct Hin as [->|Hin]; [reflexivity|].
    exfalso. apply Hnotin. rewrite E. now apply in_map.
  - destruct Hin as [->|Hin]; [|auto].
    unfold is_plugin in E. now rewrite String.eqb_refl in E.
Qed.

Lemma find_same_elements impls impls' q :
  NoDup (map plugin_name impls) ->
  (forall impl, In impl impls' <-> In impl impls) ->
  find (is_plugin q) impls' = find (is_plugin q) impls.
Proof.
  intros Hnd Hsame.
  destruct (find (is_plugin q) impls') as [impl|] eqn:E.
  - apply find_some in E. destruct E as [Hin Hq].
    apply is_plugin_true in Hq. subst q. symmetry.
    apply find_unique; [assumption | now apply Hsame].
  - destruct (find (is_plugin q) impls) as [impl|] eqn:E'; [|reflexivity].
    apply find_some in E'. destruct E' as [Hin Hq].
    apply Hsame in Hin. apply (find_none _ _ E) in Hin. congruence.
Qed.

Lemma brought_to_front_elements order caller impl :
  caller_wf caller ->
  In impl (get_hookimpls (brought_to_front order caller))
  <-> In impl (get_hookimpls caller).
Proof.
  intros Hwf. unfold brought_to_front, get_hookimpls at 1. simpl.
  rewrite <- in_rev, in_app_iff, in_flat_map, filter_In.
  unfold dispatch_order. split.
  - intros [[n [_ Hfound]]|[Hin _]].
    + destruct (find (is_plugin n) (rev (get_hookimpls caller))) as [i|] eqn:E;
        [|destruct Hfound].
      destruct Hfound as [<-|[]]. apply find_some in E.
      now apply in_rev.
    + now apply in_rev.
  - intros Hin. destruct (mem (plugin_name impl) order) eqn:E.
    + left. exists (plugin_name impl). split.
      * now apply mem_in.
      * rewrite find_unique; [now left | | now apply in_rev in Hin].
        rewrite map_rev. apply NoDup_rev. exact Hwf.
    + right. split; [now apply in_rev in Hin | reflexivity].
Qed.

(** Reordering leaves every plugin's flag as it was. *)
Lemma brought_to_front_enabled order caller q :
  caller_wf caller ->
  enabled_of q (brought_to_front order caller) = enabled_of q caller.
Proof.
  intros Hwf. unfold enabled_of. f_equal.
  apply find_same_elements; [exact Hwf|].
  intros impl. now apply brought_to_front_elements.
Qed.

Lemma installed_implemented caller ps n :
  In n (map Entry.plugin (installed caller ps)) -> implements caller n = true.
Proof.
  unfold installed. rewrite in_map_iff. intros [p [<- Hin]].
  apply filter_In in Hin. tauto.
Qed.

Lemma nodup_installed caller ps :
  NoDup (map Entry.plugin ps) ->
  NoDup (map Entry.plugin (installed caller ps)).
Proof.
  unfold installed. induction ps as [|p ps IH]; simpl; intros Hnd;
    [constructor|].
  inversion Hnd as [|? ? Hnotin Hnd']; subst.
  destruct (implements caller (Entry.plugin p)); simpl; [|auto].
  constructor; [|auto].
  intros Hin. apply Hnotin. apply in_map_iff in Hin.
  destruct Hin as [x [Hx Hin]]. apply filter_In in Hin.
  apply in_map_iff. exists x. tauto.
Qed.

(** The body of the outer loop, whatever the method does: the flags are
    assigned first, and the method is called, once, exactly when a named
    plugin was found; it receives the names found, in record order. *)
Lemma set_call_order_body_spec method new_order spec_name caller :
  let ps := Dict.get_default spec_name [] new_order in
  let found := map Entry.plugin (installed caller ps) in
  exists c,
    set_call_order_body method new_order spec_name caller
    = match found with
      | [] => Ok c
      | _ :: _ => method found c
      end /\
    is_firstresult c = is_firstresult caller /\
    map plugin_name (get_hookimpls c)
    = map plugin_name (get_hookimpls caller) /\
    map function (get_hookimpls c) = map function (get_hookimpls caller) /\
    (found = [] -> c = caller) /\
    forall q,
      enabled_of q c
      = match recorded q ps with
        | Some e => if implements caller q then Some e else None
        | None => enabled_of q caller
        end.
Proof.
  intros ps found. unfold set_call_order_body.
  destruct (set_call_order_entries_spec ps caller [])
    as [c (Hrun & Hfirst & Hnames & Hfuns & Hsame & Hflags)].
  exists c. fold ps. rewrite Hrun. cbn [result_bind app]. fold found.
  split; [now destruct found|].
  repeat (split; [assumption|]).
  split; [|exact Hflags].
  intros Hnone. apply Hsame. now apply map_eq_nil in Hnone.
Qed.

(** The method is not called for a hook caller none of whose plugins the
    record names: the body returns the caller as it is, also for a
    method that would raise. *)
Lemma set_call_order_body_not_called method new_order spec_name caller :
  installed caller (Dict.get_default spec_name [] new_order) = [] ->
  set_call_order_body method new_order spec_name caller = Ok caller.
Proof.
  intros Hnone.
  destruct (set_call_order_body_spec method new_order spec_name caller)
    as [c (Hrun & _ & _ & _ & Hsame & _)].
  rewrite Hrun, Hnone. cbn [map]. now rewrite Hsame by now rewrite Hnone.
Qed.

(** What the body of the outer loop does to one hook caller when the
    plugins found are named once each. *)
Lemma set_call_order_caller_spec new_order spec_name caller :
  caller_wf caller ->
  let ps := Dict.get_default spec_name [] new_order in
  let found := map Entry.plugin (installed caller ps) in
  NoDup found ->
  exists caller',
    set_call_order_caller new_order spec_name caller = Ok caller' /\
    is_firstresult caller' = is_firstresult caller /\
    (forall q,
       enabled_of q caller'
       = match recorded q ps with
         | Some e => if implements caller q then Some e else None
         | None => enabled_of q caller
         end) /\
    dispatch_names caller'
    = found ++ filter (fun n => negb (mem n found)) (dispatch_names caller) /\
    (found = [] -> caller' = caller).
Proof.
  intros Hwf ps found Hnd. unfold set_call_order_caller.
  destruct (set_call_order_body_spec bring_to_front new_order spec_name
              caller)
    as [c (Hrun & Hfirst & Hnames & _ & Hsame & Hflags)].
  fold ps in Hrun, Hsame, Hflags. fold found in Hrun, Hsame.
  rewrite Hrun.
  assert (Hwf' : caller_wf c) by (unfold caller_wf; now rewrite Hnames).
  assert (Hpresent : forall n, In n found -> implements c n = true).
  { intros n Hn. rewrite (implements_names caller c Hnames).
    now apply (installed_implemented caller ps). }
  assert (Hdisp : dispatch_names c = dispatch_names caller).
  { unfold dispatch_names, dispatch_order. now rewrite !map_rev, Hnames. }
  destruct found as [|n found'] eqn:Efound.
  - exists c. split; [reflexivity|]. split; [assumption|].
    split; [assumption|]. split; [|assumption].
    simpl. rewrite Hdisp. rewrite filter_keeps_all; reflexivity.
  - rewrite bring_to_front_distinct by assumption.
    exists (brought_to_front (n :: found') c).
    split; [reflexivity|]. split; [assumption|]. split; [|split].
    + intros q. rewrite brought_to_front_enabled by assumption. apply Hflags.
    + rewrite brought_to_front_names by assumption. now rewrite Hdisp.
    + discriminate.
Qed.

(** A body that returns was given plugins named once each. *)
Lemma set_call_order_caller_distinct new_order spec_name caller caller' :
  set_call_order_caller new_order spec_name caller = Ok caller' ->
  NoDup (map Entry.plugin
           (installed caller (Dict.get_default spec_name [] new_order))).
Proof.
  intros Hrun. unfold set_call_order_caller in Hrun.
  destruct (set_call_order_body_spec bring_to_front new_order spec_name
              caller) as [c (Hbody & _)].
  rewrite Hbody in Hrun.
  destruct (map Entry.plugin
              (installed caller (Dict.get_default spec_name [] new_order)))
    as [|n order]; [constructor|].
  now apply bring_to_front_ok in Hrun.
Qed.

(* ================================================================== *)
(** ** Importing a call order *)
(* ================================================================== *)

(** When the outer loop returns, it has run its body on every hook
    caller and kept the specification names. *)
Lemma set_call_order_hooks_inv new_order items items' :
  set_call_order_hooks new_order items = Ok items' ->
  Dict.keys items' = Dict.keys items /\
  forall spec_name caller,
    Dict.get spec_name items = Some caller ->
    exists caller',
      Dict.get spec_name items' = Some caller' /\
      set_call_order_caller new_order spec_name caller = Ok caller'.
Proof.
  revert items'. induction items as [|[s c] items IH]; intros items' Hrun.
  - injection Hrun as <-. split; [reflexivity|]. discriminate.
  - cbn [set_call_order_hooks] in Hrun.
    destruct (set_call_order_caller new_order s c) as [c'|e] eqn:Hbody;
      [|discriminate].
    cbn [result_bind] in Hrun.
    destruct (set_call_order_hooks new_order items) as [rest'|e] eqn:Hrest;
      [|discriminate].
    cbn [result_bind] in Hrun. injection Hrun as <-.
    destruct (IH _ eq_refl) as [Hkeys Hget].
    split.
    + simpl. now rewrite Hkeys.
    + intros spec_name caller. simpl.
      destruct (String.eqb_spec s spec_name) as [->|Hne].
      * intros [= <-]. eauto.
      * apply Hget.
Qed.

(** The outer loop returns when its body returns on every hook caller. *)
Lemma set_call_order_hooks_runs new_order items :
  (forall spec_name caller,
     In (spec_name, caller) items ->
     exists caller',
       set_call_order_caller new_order spec_name caller = Ok caller') ->
  exists items', set_call_order_hooks new_order items = Ok items'.
Proof.
  induction items as [|[s c] items IH]; intros Hbody.
  - now exists [].
  - destruct (Hbody s c) as [c' Hc]; [now left|].
    destruct IH as [rest' Hrest]; [intros; apply Hbody; now right|].
    exists ((s, c') :: rest'). cbn [set_call_order_hooks].
    rewrite Hc. cbn [result_bind]. rewrite Hrest. reflexivity.
Qed.

Lemma set_call_order_hooks_spec new_order items :
  Forall (fun item => caller_wf (snd item)) items ->
  (forall spec_name caller,
     In (spec_name, caller) items ->
     NoDup (map Entry.plugin
              (installed caller (Dict.get_default spec_name [] new_order)))) ->
  exists items',
    set_call_order_hooks new_order items = Ok items' /\
    Dict.keys items' = Dict.keys items /\
    forall spec_name caller,
      Dict.get spec_name items = Some caller ->
      exists caller',
        Dict.get spec_name items' = Some caller' /\
        set_call_order_caller new_order spec_name caller = Ok caller'.
Proof.
  intros Hwf Hnd.
  destruct (set_call_order_hooks_runs new_order items) as [items' Hrun].
  - intros spec_name caller Hin. rewrite Forall_forall in Hwf.
    destruct (@set_call_order_caller_spec new_order spec_name caller)
      as [caller' [Hbody _]].
    + apply (Hwf (spec_name, caller) Hin).
    + now apply Hnd.
    + eauto.
  - exists items'. split; [assumption|].
    now apply set_call_order_hooks_inv.
Qed.

(** C2.  For a record that names no installed plugin twice under one
    specification, [set_call_order] returns: an entry naming a plugin
    without an implementation of the specification is skipped; the
    plugins that are found get the flag the record gives them, and they
    come first in dispatch order, in record order, followed by the other
    implementations in their previous order.  When no entry of a
    specification is found its hook caller is left untouched and its
    method [bring_to_front] is not called: the body of the loop returns
    the caller as it is for every method, even one that always raises. *)
Theorem set_call_order_skips_uninstalled
  (self : PluginManager) (new_order : CallOrderDict) :
  hooks_wf self ->
  (forall spec_name caller,
     Dict.get spec_name (hooks self) = Some caller ->
     NoDup (map Entry.plugin
              (installed caller (Dict.get_default spec_name [] new_order)))) ->
  exists self',
    set_call_order new_order self = Ok self' /\
    Dict.keys (hooks self') = Dict.keys (hooks self) /\
    forall spec_name caller,
      Dict.get spec_name (hooks self) = Some caller ->
      exists caller',
        Dict.get spec_name (hooks self') = Some caller' /\
        let ps := Dict.get_default spec_name [] new_order in
        let found := map Entry.plugin (installed caller ps) in
        (forall q,
           implements caller q = true ->
           enabled_of q caller'
           = match recorded q ps with
             | Some e => Some e
             | None => enabled_of q caller
             end) /\
        dispatch_names caller'
        = found ++ filter (fun n => negb (mem n found)) (dispatch_names caller) /\
        (found = [] ->
         caller' = caller /\
         forall method,
           set_call_order_body method new_order spec_name caller
           = Ok caller).
Proof.
  intros [Hkeys Hwf] Hnd.
  destruct (set_call_order_hooks_spec new_order Hwf)
    as [items' (Hrun & Hkeys' & Hget)].
  { intros spec_name caller Hin. apply Hnd. now apply in_get_wf. }
  exists {| hooks := items' |}. unfold set_call_order.
  rewrite Hrun. cbn [result_bind hooks].
  split; [reflexivity|]. split; [assumption|].
  intros spec_name caller Hcaller.
  destruct (Hget _ _ Hcaller) as [caller' [Hget' Hbody]].
  exists caller'. split; [assumption|].
  assert (Hc : caller_wf caller).
  { rewrite Forall_forall in Hwf.
    apply (Hwf (spec_name, caller)). now apply get_some_in. }
  destruct (set_call_order_caller_spec new_order spec_name Hc
              (Hnd _ _ Hcaller))
    as [c (Hbody' & _ & Hflags & Horder & Hsame)].
  rewrite Hbody in Hbody'. injection Hbody' as <-.
  split; [|split; [exact Horder|]].
  - intros q Hq. rewrite Hflags, Hq. reflexivity.
  - intros Hnone. split; [now apply Hsame|].
    intros method. apply set_call_order_body_not_called.
    now apply map_eq_nil in Hnone.
Qed.

Lemma stale_order_distinct spec_name caller :
  Dict.get spec_name (hooks sample_manager) = Some caller ->
  NoDup (map Entry.plugin
           (installed caller (Dict.get_default spec_name [] stale_order))).
Proof.
  unfold sample_manager. cbn [hooks Dict.get].
  destruct (String.eqb_spec "napari_get_reader" spec_name) as [<-|Hne].
  - intros [= <-]. vm_compute.
    repeat constructor; simpl; intuition discriminate.
  - intros _.
    assert (Hnone : Dict.get_default spec_name [] stale_order = []).
    { unfold stale_order, Dict.get_default. cbn [Dict.get].
      apply String.eqb_neq in Hne. now rewrite Hne. }
    rewrite Hnone. constructor.
Qed.

Lemma set_call_order_skips_uninstalled_witness :
  exists self',
    set_call_order stale_order sample_manager = Ok self' /\
    option_map dispatch_names (Dict.get "napari_get_reader" (hooks self'))
    = Some ["svg"; "builtins"; "pluginA"] /\
    option_map (enabled_of "svg") (Dict.get "napari_get_reader" (hooks self'))
    = Some (Some true) /\
    set_call_order_body (refusing (ValueError (RepeatedItem "builtins")))
      stale_order "napari_get_writer"
      {| is_firstresult := true; _nonwrappers := [impl 6 "builtins" true] |}
    = Ok {| is_firstresult := true;
            _nonwrappers := [impl 6 "builtins" true] |}.
Proof.
  destruct (set_call_order_skips_uninstalled stale_order sample_manager_wf
              stale_order_distinct)
    as [self' (Hrun & _ & Hcallers)].
  exists self'. split; [exact Hrun|].
  destruct (Hcallers "napari_get_reader" _ eq_refl)
    as [caller' (Hget & Hflags & Horder & _)].
  destruct (Hcallers "napari_get_writer" _ eq_refl)
    as [writer' (_ & _ & _ & Hnot_called)].
  rewrite Hget. simpl. split; [|split].
  - f_equal. exact Horder.
  - f_equal. apply (Hflags "svg"). reflexivity.
  - apply (proj2 (Hnot_called eq_refl)).
Defined.

(** The record [repeated_order] names the uninstalled plugin [gone], yet
    importing it raises: it also lists the installed plugin [svg] twice,
    which [bring_to_front] refuses, and [set_call_order] catches only
    the [KeyError] of the lookup. *)
Lemma set_call_order_repeated_plugin_counterexample :
  option_map (fun caller => implements caller "gone")
    (Dict.get "napari_get_reader" (hooks sample_manager)) = Some false /\
  hooks_wf sample_manager /\
  set_call_order repeated_order sample_manager
  = Raise (ValueError (RepeatedItem "svg")).
Proof.
  split; [reflexivity|]. split; [exact sample_manager_wf | reflexivity].
Qed.

(* ================================================================== *)
(** ** Round trip of the call order *)
(* ================================================================== *)

Lemma export_entry_plugin impls :
  map Entry.plugin (map export_entry impls) = map plugin_name impls.
Proof. rewrite map_map. reflexivity. Qed.

Lemma recorded_absent q impls :
  ~ In q (map plugin_name impls) -> recorded q (map export_entry impls) = None.
Proof.
  induction impls as [|a impls IH]; simpl; [reflexivity|].
  intros Hnot. rewrite IH by tauto.
  destruct (String.eqb_spec (plugin_name a) q); [tauto | reflexivity].
Qed.

(** In an exported list every plugin occurs once, so the flag recorded
    for a plugin is the flag of its implementation. *)
Lemma recorded_export q impls :
  NoDup (map plugin_name impls) ->
  recorded q (map export_entry impls)
  = option_map enabled (find (is_plugin q) impls).
Proof.
  induction impls as [|a impls IH]; simpl; [reflexivity|].
  intros Hnd. inversion Hnd as [|? ? Hnotin Hnd']; subst.
  unfold is_plugin at 1.
  destruct (String.eqb_spec (plugin_name a) q) as [<-|Hne].
  - now rewrite recorded_absent.
  - rewrite IH by assumption.
    now destruct (option_map enabled (find (is_plugin q) impls)).
Qed.

Lemma export_by_names impls :
  NoDup (map plugin_name impls) ->
  map export_entry impls
  = map (fun n =>
           {| Entry.plugin := n;
              Entry.enabled :=
                match option_map enabled (find (is_plugin n) impls) with
                | Some b => b
                | None => false
                end |})
        (map plugin_name impls).
Proof.
  intros Hnd. rewrite map_map. apply map_ext_in. intros a Ha.
  now rewrite find_unique.
Qed.

Lemma dispatch_wf caller :
  caller_wf caller -> NoDup (map plugin_name (dispatch_order caller)).
Proof.
  intros Hwf. unfold dispatch_order. rewrite map_rev.
  now apply NoDup_rev.
Qed.

Lemma find_dispatch caller q :
  caller_wf caller ->
  option_map enabled (find (is_plugin q) (dispatch_order caller))
  = enabled_of q caller.
Proof.
  intros Hwf. unfold enabled_of. f_equal.
  apply find_same_elements; [exact Hwf|].
  intros impl. unfold dispatch_order. symmetry. apply in_rev.
Qed.

(** Two callers with the same dispatch names and the same flag for every
    plugin export the same list. *)
Lemma export_dispatch_ext caller caller' :
  caller_wf caller ->
  dispatch_names caller' = dispatch_names caller ->
  (forall q, In q (dispatch_names caller) ->
             enabled_of q caller' = enabled_of q caller) ->
  map export_entry (dispatch_order caller')
  = map export_entry (dispatch_order caller).
Proof.
  intros Hwf Hnames Hflags.
  assert (Hwf' : caller_wf caller').
  { unfold caller_wf. apply (f_equal (@rev string)) in Hnames.
    unfold dispatch_names, dispatch_order in Hnames.
    rewrite <- !map_rev, !rev_involutive in Hnames.
    rewrite Hnames. exact Hwf. }
  rewrite !export_by_names by now apply dispatch_wf.
  fold (dispatch_names caller') (dispatch_names caller).
  rewrite Hnames. apply map_ext_in. intros n Hn.
  rewrite !find_dispatch by assumption.
  now rewrite Hflags.
Qed.

Lemma implements_dispatch caller n :
  implements caller n = true <-> In n (dispatch_names caller).
Proof.
  unfold implements, dispatch_names, dispatch_order.
  rewrite existsb_is_plugin, map_rev. apply in_rev.
Qed.

(** The lists of an exported record name every plugin once. *)
Lemma call_order_entries_distinct self spec_name :
  hooks_wf self ->
  NoDup (map Entry.plugin (Dict.get_default spec_name [] (call_order self))).
Proof.
  intros [Hkeys Hwf]. unfold Dict.get_default.
  destruct (Dict.get spec_name (call_order self)) as [entries|] eqn:E;
    [|constructor].
  assert (Hin : Dict.contains spec_name (call_order self) = true)
    by (unfold Dict.contains; now rewrite E).
  apply call_order_contains in Hin; [|assumption].
  destruct Hin as [caller [Hcaller Hexp]].
  rewrite (@call_order_get self spec_name caller Hkeys Hcaller Hexp) in E.
  injection E as <-.
  rewrite export_entry_plugin, map_rev. apply NoDup_rev.
  rewrite Forall_forall in Hwf.
  apply (Hwf (spec_name, caller)). now apply get_some_in.
Qed.

(** Importing the list exported from [old] into a caller with the same
    plugins reproduces the dispatch order and the flags of [old]. *)
Lemma round_trip_caller new_order spec_name old fresh :
  caller_wf old -> caller_wf fresh ->
  (forall name, implements old name = implements fresh name) ->
  Dict.get spec_name new_order
  = Some (map export_entry (rev (get_hookimpls old))) ->
  exists fresh',
    set_call_order_caller new_order spec_name fresh = Ok fresh' /\
    is_firstresult fresh' = is_firstresult fresh /\
    map export_entry (dispatch_order fresh')
    = map export_entry (dispatch_order old).
Proof.
  intros Hold Hfresh Hsame Hget.
  assert (Hnd : NoDup (map Entry.plugin
                         (installed fresh
                            (Dict.get_default spec_name [] new_order)))).
  { apply nodup_installed. unfold Dict.get_default. rewrite Hget.
    rewrite export_entry_plugin, map_rev. apply NoDup_rev. exact Hold. }
  destruct (set_call_order_caller_spec new_order spec_name Hfresh Hnd)
    as [fresh' (Hrun & Hfirst & Hflags & Horder & _)].
  exists fresh'. split; [exact Hrun|]. split; [exact Hfirst|].
  unfold Dict.get_default in Hflags, Horder. rewrite Hget in Hflags, Horder.
  fold (dispatch_order old) in Hflags, Horder.
  assert (Hall : installed fresh (map export_entry (dispatch_order old))
                 = map export_entry (dispatch_order old)).
  { unfold installed. apply filter_keeps_all_in. intros p Hp.
    rewrite <- Hsame. apply implements_dispatch.
    unfold dispatch_names. rewrite <- export_entry_plugin.
    now apply in_map. }
  rewrite Hall, export_entry_plugin in Horder.
  fold (dispatch_names old) in Horder.
  assert (Hnone : filter (fun n => negb (mem n (dispatch_names old)))
                    (dispatch_names fresh) = []).
  { apply filter_drops_all_in. intros n Hn.
    apply implements_dispatch in Hn. rewrite <- Hsame in Hn.
    apply implements_dispatch, mem_in in Hn. now rewrite Hn. }
  rewrite Hnone, app_nil_r in Horder.
  apply export_dispatch_ext; [assumption | assumption |].
  intros q Hq. rewrite Hflags.
  rewrite recorded_export by now apply dispatch_wf.
  rewrite find_dispatch by assumption.
  assert (Hq_old : implements old q = true) by now apply implements_dispatch.
  assert (Hq_fresh : implements fresh q = true) by now rewrite <- Hsame.
  rewrite Hq_fresh.
  destruct (enabled_of q old) eqn:E; [reflexivity|].
  unfold enabled_of in E.
  destruct (find (is_plugin q) (get_hookimpls old)) eqn:F; [discriminate|].
  apply existsb_exists in Hq_old. destruct Hq_old as [x [Hin Hx]].
  apply (find_none _ _ F) in Hin. congruence.
Qed.

(** C1.  Round trip: the record exported by [call_order] from a manager,
    imported with [set_call_order] into a fresh manager holding the same
    plugins, gives every first-result specification with more than one
    implementation the dispatch order (and the enabled flags) it had in
    the exporting manager; exporting again yields the same list for that
    specification. *)
Theorem call_order_round_trip (old fresh : PluginManager) :
  hooks_wf old -> hooks_wf fresh -> same_plugins old fresh ->
  exists fresh',
    set_call_order (call_order old) fresh = Ok fresh' /\
    forall spec_name caller,
      Dict.get spec_name (hooks old) = Some caller ->
      is_firstresult caller = true ->
      1 < length (get_hookimpls caller) ->
      exists caller',
        Dict.get spec_name (hooks fresh') = Some caller' /\
        dispatch_names caller' = dispatch_names caller /\
        map export_entry (dispatch_order caller')
        = map export_entry (dispatch_order caller) /\
        Dict.get spec_name (call_order fresh')
        = Dict.get spec_name (call_order old).
Proof.
  intros [Hkeys Hold] [Hkeys' Hfresh] Hsame.
  destruct (set_call_order_hooks_spec (call_order old) Hfresh)
    as [items' (Hrun & Hkeys'' & Hget)].
  { intros s c _. apply nodup_installed.
    apply call_order_entries_distinct. now split. }
  exists {| hooks := items' |}. unfold set_call_order.
  rewrite Hrun. simpl. split; [reflexivity|].
  intros spec_name caller Hcaller Hfirst Hlen.
  specialize (Hsame spec_name). rewrite Hcaller in Hsame.
  destruct (Dict.get spec_name (hooks fresh)) as [c|] eqn:Hc; [|destruct Hsame].
  destruct Hsame as [Hpolicy Hsame].
  destruct (Hget _ _ Hc) as [caller' [Hget' Hbody]].
  rewrite Forall_forall in Hold, Hfresh.
  assert (Hexp : exported caller) by now split.
  destruct (@round_trip_caller (call_order old) spec_name caller c)
    as [c' (Hbody' & Hfirst' & Hexport)].
  - apply (Hold (spec_name, caller)). now apply get_some_in.
  - apply (Hfresh (spec_name, c)). now apply get_some_in.
  - exact Hsame.
  - now apply call_order_get.
  - rewrite Hbody in Hbody'. injection Hbody' as <-.
    exists caller'. split; [assumption|]. split; [|split; [assumption|]].
    + unfold dispatch_names. rewrite <- !export_entry_plugin.
      now rewrite Hexport.
    + rewrite (@call_order_get old spec_name caller Hkeys Hcaller Hexp).
      rewrite (@call_order_get {| hooks := items' |} spec_name caller').
      * f_equal. exact Hexport.
      * unfold Dict.wf. cbn [hooks]. rewrite Hkeys''. exact Hkeys'.
      * exact Hget'.
      * split; [congruence|].
        apply (f_equal (@length Entry.t)) in Hexport.
        unfold dispatch_order in Hexport.
        rewrite !length_map, !length_rev in Hexport. now rewrite Hexport.
Qed.

Lemma fresh_manager_wf : hooks_wf fresh_manager.
Proof.
  split.
  - unfold Dict.wf. simpl.
    repeat constructor; simpl; intuition discriminate.
  - repeat constructor; unfold caller_wf; simpl;
      repeat constructor; simpl; intuition discriminate.
Qed.

Lemma sample_fresh_same_plugins : same_plugins sample_manager fresh_manager.
Proof.
  intros spec_name. unfold sample_manager, fresh_manager.
  cbn [hooks Dict.get].
  repeat (destruct (String.eqb _ spec_name); [split; [reflexivity|] |]);
    try exact I;
    intros name; unfold implements, is_plugin, get_hookimpls, impl;
    cbn [existsb _nonwrappers plugin_name];
    repeat match goal with
           | |- context [String.eqb ?a name] => destruct (String.eqb a name)
           end; reflexivity.
Qed.

Lemma call_order_round_trip_witness :
  exists fresh',
    set_call_order (call_order sample_manager) fresh_manager = Ok fresh' /\
    option_map dispatch_names (Dict.get "napari_get_reader" (hooks fresh'))
    = Some ["pluginA"; "svg"; "builtins"].
Proof.
  destruct (call_order_round_trip sample_manager_wf fresh_manager_wf
              sample_fresh_same_plugins) as [fresh' [Hrun Hcallers]].
  exists fresh'. split; [exact Hrun|].
  destruct (Hcallers "napari_get_reader" _ eq_refl eq_refl)
    as [caller' (Hget & Hnames & _)].
  - simpl. lia.
  - rewrite Hget. simpl. f_equal. exact Hnames.
Defined.

(* ================================================================== *)
(** ** Querying the dock widgets of a plugin *)
(* ================================================================== *)

Section GetPluginWidget.

Variable registry : Dict.t (Dict.t DockWidget).
Variable plugin_name : string.

Lemma get_plugin_widget_none widget_name :
  Dict.get plugin_name registry = None \/
  Dict.get plugin_name registry = Some [] ->
  get_plugin_widget registry plugin_name widget_name
  = Raise (KeyError (NoDockWidgets plugin_name)).
Proof. unfold get_plugin_widget. now intros [-> | ->]. Qed.

Lemma get_plugin_widget_many widget_name plg_wdgs :
  Dict.get plugin_name registry = Some plg_wdgs ->
  1 < length plg_wdgs ->
  widget_name = None \/ widget_name = Some "" ->
  get_plugin_widget registry plugin_name widget_name
  = Raise (ValueError (ManyDockWidgets plugin_name (Dict.keys plg_wdgs))).
Proof.
  unfold get_plugin_widget. intros -> Hlen Hname.
  destruct plg_wdgs as [|item plg_wdgs]; [simpl in Hlen; lia|].
  apply Nat.ltb_lt in Hlen. now destruct Hname as [-> | ->]; rewrite Hlen.
Qed.

Lemma get_plugin_widget_single widget_name name widget :
  Dict.get plugin_name registry = Some [(name, widget)] ->
  widget_name = None \/ widget_name = Some "" ->
  get_plugin_widget registry plugin_name widget_name = Ok widget.
Proof.
  unfold get_plugin_widget. intros -> Hname.
  destruct Hname as [-> | ->]; simpl; unfold getitem; simpl;
    now rewrite String.eqb_refl.
Qed.

Lemma get_plugin_widget_missing widget_name plg_wdgs :
  Dict.get plugin_name registry = Some plg_wdgs ->
  plg_wdgs <> [] -> widget_name <> "" ->
  Dict.contains widget_name plg_wdgs = false ->
  get_plugin_widget registry plugin_name (Some widget_name)
  = Raise (KeyError (NoWidgetNamed plugin_name widget_name)).
Proof.
  unfold get_plugin_widget. intros -> Hne Hname Habsent.
  destruct plg_wdgs as [|item plg_wdgs]; [congruence|].
  destruct widget_name; [congruence|]. now rewrite Habsent.
Qed.

Lemma get_plugin_widget_named widget_name plg_wdgs widget :
  Dict.get plugin_name registry = Some plg_wdgs ->
  widget_name <> "" ->
  Dict.get widget_name plg_wdgs = Some widget ->
  get_plugin_widget registry plugin_name (Some widget_name) = Ok widget.
Proof.
  unfold get_plugin_widget. intros -> Hname Hget.
  destruct plg_wdgs as [|item plg_wdgs]; [discriminate|].
  destruct widget_name; [congruence|].
  unfold Dict.contains, getitem. now rewrite Hget.
Qed.

End GetPluginWidget.

(** C4, as amended.  [get_plugin_widget] raises [KeyError] when the
    plugin has registered no dock widgets; raises [ValueError] when
    [widget_name] is omitted and the plugin has more than one widget;
    raises [KeyError] when a non-empty [widget_name] is given and the
    plugin has no widget of that name; and returns the only widget of a
    plugin when [widget_name] is omitted. *)
Theorem get_plugin_widget_errors
  (registry : Dict.t (Dict.t DockWidget)) (plugin_name : string) :
  (forall widget_name,
     Dict.get plugin_name registry = None \/
     Dict.get plugin_name registry = Some [] ->
     get_plugin_widget registry plugin_name widget_name
     = Raise (KeyError (NoDockWidgets plugin_name))) /\
  (forall plg_wdgs,
     Dict.get plugin_name registry = Some plg_wdgs ->
     1 < length plg_wdgs ->
     get_plugin_widget registry plugin_name None
     = Raise (ValueError (ManyDockWidgets plugin_name (Dict.keys plg_wdgs)))) /\
  (forall plg_wdgs widget_name,
     Dict.get plugin_name registry = Some plg_wdgs ->
     plg_wdgs <> [] ->
     widget_name <> "" ->
     Dict.contains widget_name plg_wdgs = false ->
     get_plugin_widget registry plugin_name (Some widget_name)
     = Raise (KeyError (NoWidgetNamed plugin_name widget_name))) /\
  (forall name widget,
     Dict.get plugin_name registry = Some [(name, widget)] ->
     get_plugin_widget registry plugin_name None = Ok widget).
Proof.
  repeat split.
  - intros. now apply get_plugin_widget_none.
  - intros. eapply get_plugin_widget_many; eauto.
  - intros. eapply get_plugin_widget_missing; eauto.
  - intros. eapply get_plugin_widget_single; eauto.
Qed.

(** C4 as stated fails: with the empty string given as [widget_name] and
    a plugin whose only widget is named ["One"], no widget has the
    given name, yet the widget is returned instead of a [KeyError]. *)
Lemma get_plugin_widget_given_name_counterexample :
  ~ (forall (registry : Dict.t (Dict.t DockWidget))
            (plugin_name widget_name : string) plg_wdgs,
        Dict.get plugin_name registry = Some plg_wdgs ->
        Dict.contains widget_name plg_wdgs = false ->
        exists m,
          get_plugin_widget registry plugin_name (Some widget_name)
          = Raise (KeyError m)).
Proof.
  intros H.
  destruct (H one_widget "pluginA" "" _ eq_refl eq_refl) as [m Hm].
  discriminate Hm.
Qed.

Lemma get_plugin_widget_errors_witness :
  get_plugin_widget no_widgets "pluginA" (Some "One")
  = Raise (KeyError (NoDockWidgets "pluginA")) /\
  get_plugin_widget two_widgets "pluginA" None
  = Raise (ValueError (ManyDockWidgets "pluginA" ["One"; "Two"])) /\
  get_plugin_widget one_widget "pluginA" (Some "Two")
  = Raise (KeyError (NoWidgetNamed "pluginA" "Two")) /\
  get_plugin_widget one_widget "pluginA" None = Ok (PyClass "One" 1, []).
Proof.
  pose proof (get_plugin_widget_errors no_widgets "pluginA")
    as (Hnone & _).
  pose proof (get_plugin_widget_errors two_widgets "pluginA")
    as (_ & Hmany & _).
  pose proof (get_plugin_widget_errors one_widget "pluginA")
    as (_ & _ & Hmissing & Hsingle).
  split; [|split; [|split]].
  - apply Hnone. right. reflexivity.
  - apply (Hmany _ eq_refl). simpl. lia.
  - apply (Hmissing _ "Two" eq_refl); [discriminate | discriminate |].
    reflexivity.
  - apply (Hsingle _ _ eq_refl).
Defined.

(** C10.  An empty [widget_name] is handled as an omitted one: the
    result is the same, so a plugin with one widget gets that widget and
    a plugin with several gets the [ValueError], not a [KeyError] for the
    empty name. *)
Theorem get_plugin_widget_empty_name
  (registry : Dict.t (Dict.t DockWidget)) (plugin_name : string) :
  get_plugin_widget registry plugin_name (Some "")
  = get_plugin_widget registry plugin_name None /\
  (forall name widget,
     Dict.get plugin_name registry = Some [(name, widget)] ->
     get_plugin_widget registry plugin_name (Some "") = Ok widget) /\
  (forall plg_wdgs,
     Dict.get plugin_name registry = Some plg_wdgs ->
     1 < length plg_wdgs ->
     get_plugin_widget registry plugin_name (Some "")
     = Raise (ValueError (ManyDockWidgets plugin_name (Dict.keys plg_wdgs)))).
Proof.
  repeat split.
  - intros. eapply get_plugin_widget_single; eauto.
  - intros. eapply get_plugin_widget_many; eauto.
Qed.

Lemma get_plugin_widget_empty_name_witness :
  get_plugin_widget one_widget "pluginA" (Some "")
  = Ok (PyClass "One" 1, []) /\
  get_plugin_widget two_widgets "pluginA" (Some "")
  = Raise (ValueError (ManyDockWidgets "pluginA" ["One"; "Two"])).
Proof.
  pose proof (get_plugin_widget_empty_name one_widget "pluginA")
    as (_ & Hsingle & _).
  pose proof (get_plugin_widget_empty_name two_widgets "pluginA")
    as (_ & _ & Hmany).
  split.
  - apply (Hsingle _ _ eq_refl).
  - apply (Hmany _ eq_refl). simpl. lia.
Defined.

(* ================================================================== *)
(** ** Facts about the callback monad and the registries *)
(* ================================================================== *)

Lemma for_each_app (A : Type) (body : A -> M unit) (xs ys : list A) s :
  for_each body (xs ++ ys) s
  = (for_each body xs ;; for_each body ys)%callback s.
Proof.
  revert s. induction xs as [|x xs IH]; intros s; simpl.
  - reflexivity.
  - unfold bind.
    destruct (body x s) as [[[]|e] s']; [|reflexivity].
    rewrite IH. reflexivity.
Qed.

Lemma for_each_cons (A : Type) (body : A -> M unit) (x : A) (xs : list A) s :
  for_each body (x :: xs) s = (body x ;; for_each body xs)%callback s.
Proof. reflexivity. Qed.

(** An item in the middle of a list is processed after the items before
    it and before the items after it. *)
Lemma for_each_middle (A : Type) (body : A -> M unit) (x : A)
  (before after : list A) s :
  for_each body (before ++ x :: after) s
  = (for_each body before ;; body x ;; for_each body after)%callback s.
Proof. now rewrite for_each_app. Qed.

Module RegistryFacts.

Section Facts.
Variable V : Type.
Implicit Types (registry : Dict.t (Dict.t V)) (v : V).

Lemma set_set k (a b : Dict.t V) registry :
  Dict.set k a (Dict.set k b registry) = Dict.set k a registry.
Proof.
  induction registry as [|[k' v'] registry IH]; simpl.
  - now rewrite String.eqb_refl.
  - destruct (String.eqb k' k) eqn:E; simpl; rewrite E;
      [reflexivity | now rewrite IH].
Qed.

Lemma get_default_set k (a : Dict.t V) registry :
  Dict.get_default k [] (Dict.set k a registry) = a.
Proof. unfold Dict.get_default. now rewrite get_set_same. Qed.

Lemma get_default_absent k registry :
  Dict.contains k registry = false -> Dict.get_default k [] registry = [].
Proof.
  unfold Dict.contains, Dict.get_default.
  now destruct (Dict.get k registry).
Qed.

(** Creating the plugin's dictionary first makes no difference to
    the assignment that follows. *)
Lemma set_item_created plugin name v registry :
  Dict.contains plugin registry = false ->
  set_item plugin name v (Dict.set plugin [] registry)
  = set_item plugin name v registry.
Proof.
  intros H. unfold set_item.
  now rewrite get_default_set, set_set, get_default_absent.
Qed.

Lemma items_set_item plugin name v registry :
  Dict.get_default plugin [] (set_item plugin name v registry)
  = Dict.set name v (Dict.get_default plugin [] registry).
Proof. unfold set_item. apply get_default_set. Qed.

Lemma get_set_item plugin name v registry :
  Dict.get name (Dict.get_default plugin [] (set_item plugin name v registry))
  = Some v.
Proof. rewrite items_set_item. apply get_set_same. Qed.

Lemma get_set_item_other plugin name name' v registry :
  name <> name' ->
  Dict.get name'
    (Dict.get_default plugin [] (set_item plugin name v registry))
  = Dict.get name' (Dict.get_default plugin [] registry).
Proof. intros H. rewrite items_set_item. now apply get_set_other. Qed.

Lemma count_set_item plugin name v registry :
  Dict.wf (Dict.get_default plugin [] registry) ->
  Dict.count name
    (Dict.get_default plugin [] (set_item plugin name v registry))
  = 1.
Proof. intros H. rewrite items_set_item. now apply count_set. Qed.

Lemma get_set_item_other_plugin plugin plugin' name v registry :
  plugin <> plugin' ->
  Dict.get plugin' (set_item plugin name v registry)
  = Dict.get plugin' registry.
Proof. intros H. unfold set_item. now apply get_set_other. Qed.

End Facts.

End RegistryFacts.

Import RegistryFacts.

(* ================================================================== *)
(** ** Dock widgets *)
(* ================================================================== *)

Section DockWidgets.

Variable camel_to_spaces : string -> string.
Variable object_str : PyObj -> string.
Variable plugin_name : string.

Local Abbreviation register_arg :=
  (register_dock_widget_arg camel_to_spaces object_str).
Local Abbreviation register :=
  (register_dock_widget camel_to_spaces object_str).
Local Abbreviation widget_name :=
  (dock_widget_name camel_to_spaces object_str).

(** An item whose class is not callable only adds a warning. *)
Lemma register_arg_non_callable arg _cls kwargs s :
  unpack_arg arg = Some (_cls, kwargs) ->
  callable _cls = false ->
  register_arg plugin_name arg s
  = warn (NonCallableWidget plugin_name dock_widget_hook _cls) s.
Proof.
  intros Harg Hcls. unfold register_dock_widget_arg.
  now rewrite Harg, Hcls.
Qed.

(** An accepted item is stored under the name computed for it, with a
    warning when that name was taken. *)
Lemma register_arg_accepted arg _cls kwargs name s :
  unpack_arg arg = Some (_cls, PyDict kwargs) ->
  callable _cls = true ->
  widget_name _cls kwargs = Ok name ->
  register_arg plugin_name arg s
  = (Ok tt, stored_dock_widget plugin_name name (_cls, kwargs) s).
Proof.
  intros Harg Hcls Hname.
  unfold register_dock_widget_arg.
  rewrite Harg, Hcls. cbn [negb].
  unfold bind, lift, read. rewrite Hname.
  unfold stored_dock_widget, overwrite_warning.
  destruct (Dict.contains plugin_name (dock_widgets s)) eqn:Hplugin; simpl.
  - destruct (Dict.contains name
                (Dict.get_default plugin_name [] (dock_widgets s)));
      simpl; [reflexivity|].
    now rewrite app_nil_r.
  - rewrite set_item_created by assumption.
    rewrite get_default_absent by assumption. simpl.
    now rewrite app_nil_r.
Qed.

Lemma unpack_alone arg :
  is_tuple arg = false -> unpack_arg arg = Some (arg, PyDict []).
Proof. now destruct arg. Qed.

Lemma iter_alone arg : is_list arg = false -> iter_args arg = [arg].
Proof. now destruct arg. Qed.

(** C6.  A dock-widget item that is a non-callable object, alone or as
    the first element of a tuple, is discarded with one warning naming
    the plugin and the hook when it is the only item of the hook result.
    When a callable without [__name__] (a [functools.partial], say)
    stands before it in the list, the call raises [AttributeError] at
    that callable and the loop is abandoned: the non-callable item is
    never looked at, no warning is issued for it, and the registries are
    left as they were. *)
Theorem non_callable_after_unnamed_callable (_cls arg : PyObj) (code : nat) :
  callable _cls = false ->
  (is_tuple _cls = false /\ arg = _cls) \/
  (exists rest, arg = PyTuple (_cls :: rest)) ->
  let w :=
    NonCallableWidget plugin_name
      "`napari_experimental_provide_dock_widget`" _cls in
  forall s,
    register (PyList [arg]) plugin_name s = (Ok tt, with_warnings [w] s) /\
    register (PyList [PyCallable None code; arg]) plugin_name s
    = (Raise (AttributeError (NoAttribute "__name__")), s).
Proof.
  intros Hcls Hshape w s.
  assert (Hstep : register_arg plugin_name arg s = warn w s).
  { destruct Hshape as [[Htuple ->] | [rest ->]].
    - eapply register_arg_non_callable; [now apply unpack_alone | assumption].
    - eapply register_arg_non_callable; [reflexivity | assumption]. }
  split.
  - unfold register_dock_widget. cbn [iter_args for_each].
    unfold bind. rewrite Hstep. reflexivity.
  - reflexivity.
Qed.

End DockWidgets.

Lemma non_callable_after_unnamed_callable_witness :
  register_dock_widget unchanged_name some_str
    (PyList [PyTuple [PyInt 5; PyDict []]]) "pluginA" empty_registries
  = (Ok tt,
     with_warnings
       [NonCallableWidget "pluginA"
          "`napari_experimental_provide_dock_widget`" (PyInt 5)]
       empty_registries) /\
  register_dock_widget unchanged_name some_str
    (PyList [PyCallable None 7; PyTuple [PyInt 5; PyDict []]]) "pluginA"
    empty_registries
  = (Raise (AttributeError (NoAttribute "__name__")), empty_registries).
Proof.
  apply (@non_callable_after_unnamed_callable unchanged_name some_str
           "pluginA" (PyInt 5) (PyTuple [PyInt 5; PyDict []]) 7 eq_refl).
  right. exists [PyDict []]. reflexivity.
Defined.

(* ================================================================== *)
(** ** Function widgets *)
(* ================================================================== *)

Section FunctionWidgets.

Variable plugin_name : string.

Local Abbreviation register_func :=
  (register_function_widget_func plugin_name).

(** The registry key of a function. *)
Local Abbreviation key name := (replace "_" " " name).

Lemma register_func_function name code s :
  register_func (PyFunction name code) s
  = (Ok tt,
     stored_function_widget plugin_name (key name)
       (PyFunction name code) s).
Proof.
  unfold register_function_widget_func. cbn [is_function negb].
  unfold bind, lift, read. cbn [getattr_name].
  unfold stored_function_widget, overwrite_warning.
  destruct (Dict.contains plugin_name (function_widgets s)) eqn:Hplugin;
    simpl.
  - destruct (Dict.contains (key name)
                (Dict.get_default plugin_name [] (function_widgets s)));
      simpl; [reflexivity|].
    now rewrite app_nil_r.
  - rewrite set_item_created by assumption.
    rewrite get_default_absent by assumption. simpl.
    now rewrite app_nil_r.
Qed.

Lemma register_func_other func s :
  is_function func = false ->
  register_func func s
  = (Ok tt,
     with_warnings
       [NonFunction plugin_name function_hook func (is_tuple func)] s).
Proof.
  intros H. unfold register_function_widget_func. now rewrite H.
Qed.

(** The loop of [register_function_widget] always runs to its end and
    touches the function widgets only. *)
Lemma register_funcs_total funcs :
  forall s, exists s',
    for_each register_func funcs s = (Ok tt, s') /\
    dock_widgets s' = dock_widgets s /\
    _sample_data s' = _sample_data s.
Proof.
  induction funcs as [|func funcs IH]; intros s.
  - exists s. repeat split.
  - cbn [for_each]. unfold bind.
    destruct (is_function func) eqn:Hf.
    + destruct func as [| | | | | | | |name code| |]; try discriminate.
      rewrite register_func_function.
      destruct (IH (stored_function_widget plugin_name (key name)
                      (PyFunction name code) s))
        as [s' (Hrun & Hdock & Hsample)].
      exists s'. now rewrite Hrun.
    + rewrite register_func_other by assumption.
      destruct (IH (with_warnings
                      [NonFunction plugin_name function_hook func
                         (is_tuple func)] s))
        as [s' (Hrun & Hdock & Hsample)].
      exists s'. now rewrite Hrun.
Qed.

(** Items that are stored under other keys leave a key as it is. *)
Lemma register_funcs_keep name funcs :
  (forall name' code',
     In (PyFunction name' code') funcs -> key name' <> key name) ->
  forall s s',
    for_each register_func funcs s = (Ok tt, s') ->
    Dict.get (key name)
      (Dict.get_default plugin_name [] (function_widgets s'))
    = Dict.get (key name)
        (Dict.get_default plugin_name [] (function_widgets s)).
Proof.
  induction funcs as [|func funcs IH]; intros Hkeys s s'.
  - intros [= ->]. reflexivity.
  - cbn [for_each]. unfold bind.
    destruct (is_function func) eqn:Hf.
    + destruct func as [| | | | | | | |fname fcode| |]; try discriminate.
      rewrite register_func_function. intros Hrun.
      rewrite (IH (fun n c H => Hkeys n c (or_intror H)) _ _ Hrun).
      cbn [function_widgets stored_function_widget].
      apply get_set_item_other. apply (Hkeys fname fcode). now left.
    + rewrite register_func_other by assumption. intros Hrun.
      now rewrite (IH (fun n c H => Hkeys n c (or_intror H)) _ _ Hrun).
Qed.

End FunctionWidgets.

(* ================================================================== *)
(** ** Sample data *)
(* ================================================================== *)

Lemma with_warnings_nil s : with_warnings [] s = s.
Proof. destruct s. unfold with_warnings. simpl. now rewrite app_nil_r. Qed.

Lemma with_warnings_cons w ws s :
  with_warnings ws (with_warnings [w] s) = with_warnings (w :: ws) s.
Proof. unfold with_warnings. simpl. now rewrite <- app_assoc. Qed.

Section Update.
Variable V : Type.
Implicit Types (d other : Dict.t V).

Lemma update_cons k (v : V) other d :
  Dict.update ((k, v) :: other) d = Dict.update other (Dict.set k v d).
Proof. reflexivity. Qed.

(** [d.update(other)]: the keys of [other] take the values of [other],
    the remaining keys keep theirs. *)
Lemma get_update k other d :
  Dict.wf other ->
  Dict.get k (Dict.update other d)
  = match Dict.get k other with
    | Some v => Some v
    | None => Dict.get k d
    end.
Proof.
  unfold Dict.wf. revert d.
  induction other as [|[k0 v0] other IH]; intros d Hwf; [reflexivity|].
  rewrite update_cons. simpl in Hwf.
  inversion Hwf as [|? ? Hnotin Hwf']; subst.
  rewrite IH by assumption. simpl.
  destruct (String.eqb_spec k0 k) as [->|Hne].
  - apply get_none_not_in in Hnotin. rewrite Hnotin.
    apply get_set_same.
  - now rewrite get_set_other.
Qed.

Lemma wf_update other d : Dict.wf d -> Dict.wf (Dict.update other d).
Proof.
  revert d. induction other as [|[k0 v0] other IH]; intros d Hwf;
    [assumption|].
  rewrite update_cons. apply IH. now apply wf_set.
Qed.

End Update.

Section SampleData.

Variable plugin_name : string.

Lemma check_datum_step name datum :
  match normalize_datum name datum with
  | None =>
      check_datum plugin_name name datum
      = inr (SampleMissingKeys sample_data_hook plugin_name name)
  | Some entry =>
      exists data,
        getitem "data" entry = Ok data /\
        check_datum plugin_name name datum
        = if callable data || is_str_or_path data then inl entry
          else inr (InvalidSampleData plugin_name name sample_data_hook
                      data)
  end.
Proof.
  unfold normalize_datum, check_datum, getitem, Dict.contains.
  destruct datum as [| | | | | | |d| | |];
    try (eexists; split; reflexivity).
  destruct (Dict.get "data" d) as [data|] eqn:Hdata; simpl; [|reflexivity].
  destruct (Dict.get "display_name" d); simpl; [|reflexivity].
  exists data. now rewrite Hdata.
Qed.

(** The loop over the items never raises; it accepts and warns as
    [check_datum] decides. *)
Lemma collect_sample_data_spec items :
  forall _data s,
    collect_sample_data plugin_name items _data s
    = (Ok (checked_data plugin_name items _data),
       with_warnings (checked_warnings plugin_name items) s).
Proof.
  induction items as [|[name datum] items IH]; intros _data s.
  - simpl. unfold ret. now rewrite with_warnings_nil.
  - cbn [collect_sample_data checked_data checked_warnings].
    pose proof (check_datum_step name datum) as Hstep.
    destruct (normalize_datum name datum) as [entry|].
    + destruct Hstep as [data [Hdata ->]].
      unfold bind, lift. rewrite Hdata.
      destruct (callable data || is_str_or_path data); cbn [negb].
      * apply IH.
      * unfold warn. rewrite IH. now rewrite with_warnings_cons.
    + rewrite Hstep. unfold bind, warn.
      rewrite IH. now rewrite with_warnings_cons.
Qed.

Lemma register_sample_data_dict items s :
  register_sample_data (PyDict items) plugin_name s
  = (Ok tt,
     stored_sample_data plugin_name (checked_data plugin_name items [])
       (checked_warnings plugin_name items) s).
Proof.
  unfold register_sample_data, bind.
  rewrite collect_sample_data_spec. unfold read, stored_sample_data.
  cbn [_sample_data with_warnings].
  destruct (Dict.contains plugin_name (_sample_data s)) eqn:Hplugin;
    cbn [negb ret write_sample_data _sample_data dock_widgets
           function_widgets warnings with_warnings].
  - reflexivity.
  - rewrite get_default_set, set_set.
    now rewrite (get_default_absent _ _ Hplugin).
Qed.

Lemma register_sample_data_other data s :
  is_dict data = false ->
  register_sample_data data plugin_name s
  = (Ok tt,
     with_warnings [NonDictSampleData plugin_name sample_data_hook] s).
Proof. now destruct data. Qed.

Lemma wf_checked_data items :
  forall _data, Dict.wf _data ->
                Dict.wf (checked_data plugin_name items _data).
Proof.
  induction items as [|[name datum] items IH]; intros _data Hwf;
    cbn [checked_data]; [assumption|].
  destruct (check_datum plugin_name name datum); apply IH;
    [now apply wf_set | assumption].
Qed.

(** What the local dictionary holds for a name once the loop is
    over. *)
Lemma get_checked_data name items :
  Dict.wf items ->
  forall _data,
    Dict.get name (checked_data plugin_name items _data)
    = match Dict.get name items with
      | Some datum =>
          match check_datum plugin_name name datum with
          | inl entry => Some entry
          | inr _ => Dict.get name _data
          end
      | None => Dict.get name _data
      end.
Proof.
  unfold Dict.wf.
  induction items as [|[k0 d0] items IH]; intros Hwf _data;
    [reflexivity|].
  cbn [checked_data Dict.get]. simpl in Hwf.
  inversion Hwf as [|? ? Hnotin Hwf']; subst.
  destruct (String.eqb_spec k0 name) as [->|Hne].
  - apply get_none_not_in in Hnotin.
    destruct (check_datum plugin_name name d0) as [entry|w];
      rewrite IH, Hnotin by assumption; [apply get_set_same | reflexivity].
  - destruct (check_datum plugin_name k0 d0) as [entry|w];
      rewrite IH by assumption.
    + destruct (Dict.get name items) as [datum|];
        [|now apply get_set_other].
      destruct (check_datum plugin_name name datum);
        [reflexivity | now apply get_set_other].
    + reflexivity.
Qed.

Lemma in_checked_warnings name datum w items :
  In (name, datum) items ->
  check_datum plugin_name name datum = inr w ->
  In w (checked_warnings plugin_name items).
Proof.
  induction items as [|[k0 d0] items IH]; [intros []|].
  intros [Heq|Hin] Hcheck; cbn [checked_warnings].
  - injection Heq as -> ->. rewrite Hcheck. now left.
  - destruct (check_datum plugin_name k0 d0); [auto | right; auto].
Qed.

(** The registry entry of a name after the whole call. *)
Lemma get_registered_sample name datum items s :
  Dict.wf items -> In (name, datum) items ->
  Dict.get name
    (Dict.get_default plugin_name []
       (_sample_data
          (stored_sample_data plugin_name
             (checked_data plugin_name items [])
             (checked_warnings plugin_name items) s)))
  = match check_datum plugin_name name datum with
    | inl entry => Some entry
    | inr _ =>
        Dict.get name (Dict.get_default plugin_name [] (_sample_data s))
    end.
Proof.
  intros Hwf Hin. cbn [_sample_data stored_sample_data].
  rewrite get_default_set, get_update
    by (apply wf_checked_data; constructor).
  rewrite get_checked_data by assumption.
  rewrite (in_get_wf _ _ Hwf Hin).
  now destruct (check_datum plugin_name name datum).
Qed.

End SampleData.

(** C7.  [register_sample_data] never raises on a mapping and treats
    each of its items as follows.  A shorthand value that is callable, a
    string or a path is stored as [{'data': value, 'display_name':
    name}]; a dictionary is stored as it is when it has both keys and
    its ['data'] is callable, a string or a path; a dictionary lacking
    one of the keys, and any item whose ['data'] is of another kind, is
    left out with a warning, the registry keeping what it had under that
    name. *)
Theorem register_sample_data_normalizes
  (plugin_name : string) (items : Dict.t PyObj) (s : Registries) :
  Dict.wf items ->
  exists s',
    register_sample_data (PyDict items) plugin_name s = (Ok tt, s') /\
    forall name datum,
      In (name, datum) items ->
      let stored :=
        Dict.get name (Dict.get_default plugin_name [] (_sample_data s')) in
      let before :=
        Dict.get name (Dict.get_default plugin_name [] (_sample_data s)) in
      let valid data := (callable data || is_str_or_path data)%bool in
      (is_dict datum = false ->
       if valid datum
       then stored = Some [("data", datum); ("display_name", PyStr name)]
       else stored = before /\
            In (InvalidSampleData plugin_name name sample_data_hook datum)
              (warnings s')) /\
      (forall d,
         datum = PyDict d ->
         (Dict.contains "data" d = false \/
          Dict.contains "display_name" d = false ->
          stored = before /\
          In (SampleMissingKeys sample_data_hook plugin_name name)
            (warnings s')) /\
         (forall data,
            Dict.get "data" d = Some data ->
            Dict.contains "display_name" d = true ->
            if valid data
            then stored = Some d
            else stored = before /\
                 In (InvalidSampleData plugin_name name sample_data_hook data)
                   (warnings s'))).
Proof.
  intros Hwf. eexists. split; [apply register_sample_data_dict|].
  intros name datum Hin stored before valid.
  assert (Hstored :
            stored = match check_datum plugin_name name datum with
                     | inl entry => Some entry
                     | inr _ => before
                     end)
    by now apply get_registered_sample.
  assert (Hwarn : forall w, check_datum plugin_name name datum = inr w ->
                            In w (warnings
                                    (stored_sample_data plugin_name
                                       (checked_data plugin_name items [])
                                       (checked_warnings plugin_name items)
                                       s))).
  { intros w Hw. cbn [warnings stored_sample_data].
    apply in_or_app. right. now apply (in_checked_warnings _ _ _ _ Hin). }
  clearbody stored before. split.
  - intros Hdict. subst valid. cbv beta.
    assert (Hcheck : check_datum plugin_name name datum
                     = if callable datum || is_str_or_path datum
                       then inl [("data", datum); ("display_name", PyStr name)]
                       else inr (InvalidSampleData plugin_name name
                                   sample_data_hook datum))
      by (destruct datum; try reflexivity; discriminate).
    destruct (callable datum || is_str_or_path datum).
    + now rewrite Hstored, Hcheck.
    + split; [now rewrite Hstored, Hcheck | now apply Hwarn].
  - intros d ->. split.
    + intros Hmissing.
      assert (Hcheck : check_datum plugin_name name (PyDict d)
                       = inr (SampleMissingKeys sample_data_hook plugin_name
                                name)).
      { unfold check_datum. unfold Dict.contains in Hmissing.
        destruct (Dict.get "data" d); [|reflexivity].
        destruct (Dict.get "display_name" d); [|reflexivity].
        destruct Hmissing; discriminate. }
      split; [now rewrite Hstored, Hcheck | now apply Hwarn].
    + intros data Hdata Hname. subst valid. cbv beta.
      assert (Hcheck : check_datum plugin_name name (PyDict d)
                       = if callable data || is_str_or_path data
                         then inl d
                         else inr (InvalidSampleData plugin_name name
                                     sample_data_hook data)).
      { unfold check_datum. rewrite Hdata. unfold Dict.contains in Hname.
        now destruct (Dict.get "display_name" d). }
      destruct (callable data || is_str_or_path data).
      * now rewrite Hstored, Hcheck.
      * split; [now rewrite Hstored, Hcheck | now apply Hwarn].
Qed.

Lemma register_sample_data_normalizes_witness :
  exists s',
    register_sample_data (PyDict [("foo", PyFunction "<lambda>" 1)])
      "pluginA" empty_registries
    = (Ok tt, s') /\
    Dict.get "foo" (Dict.get_default "pluginA" [] (_sample_data s'))
    = Some [("data", PyFunction "<lambda>" 1); ("display_name", PyStr "foo")].
Proof.
  assert (Hwf : Dict.wf [("foo", PyFunction "<lambda>" 1)])
    by (repeat constructor; simpl; tauto).
  destruct (register_sample_data_normalizes "pluginA" empty_registries Hwf)
    as [s' [Hrun Hitems]].
  exists s'. split; [exact Hrun|].
  destruct (Hitems "foo" (PyFunction "<lambda>" 1) (or_introl eq_refl))
    as [Hshort _].
  exact (Hshort eq_refl).
Defined.

(* ================================================================== *)
(** ** Which items are accepted, and under which key *)
(* ================================================================== *)

Lemma for_each_single (A : Type) (body : A -> M unit) (x : A) s :
  for_each body [x] s = body x s.
Proof.
  cbn [for_each]. unfold bind, ret.
  now destruct (body x s) as [[[]|e] s'].
Qed.

(** C8, as amended.  [register_function_widget] accepts the items that
    are plain functions (instances of [FunctionType]), alone or in a
    list, and stores each under its name with underscores replaced by
    spaces; every other item, callable or not, is discarded with a
    warning.  The call never raises, and a function is found under its
    key afterwards unless a later item of the list took the same key. *)
Theorem function_widget_accepts_functions (plugin_name : string) :
  (forall name code s,
     exists s',
       register_function_widget_func plugin_name (PyFunction name code) s
       = (Ok tt, s') /\
       function_widgets s'
       = set_item plugin_name (replace "_" " " name) (PyFunction name code)
           (function_widgets s)) /\
  (forall func s,
     is_function func = false ->
     register_function_widget_func plugin_name func s
     = (Ok tt,
        with_warnings
          [NonFunction plugin_name function_hook func (is_tuple func)] s)) /\
  (forall func s,
     is_list func = false ->
     register_function_widget func plugin_name s
     = register_function_widget_func plugin_name func s) /\
  (forall func before after s,
     register_function_widget (PyList (before ++ func :: after)) plugin_name s
     = (register_function_widget (PyList before) plugin_name ;;
        register_function_widget_func plugin_name func ;;
        register_function_widget (PyList after) plugin_name)%callback s) /\
  (forall args s,
     exists s', register_function_widget args plugin_name s = (Ok tt, s')) /\
  (forall name code before after s,
     (forall name' code',
        In (PyFunction name' code') after ->
        replace "_" " " name' <> replace "_" " " name) ->
     exists s',
       register_function_widget
         (PyList (before ++ PyFunction name code :: after)) plugin_name s
       = (Ok tt, s') /\
       Dict.get (replace "_" " " name)
         (Dict.get_default plugin_name [] (function_widgets s'))
       = Some (PyFunction name code)).
Proof.
  split; [|split; [|split; [|split; [|split]]]].
  - intros name code s. eexists. split; [apply register_func_function|].
    reflexivity.
  - intros func s Hf. now apply register_func_other.
  - intros func s Hlist. unfold register_function_widget.
    rewrite iter_alone by assumption. apply for_each_single.
  - intros func before after s. unfold register_function_widget.
    cbn [iter_args]. apply for_each_middle.
  - intros args s. unfold register_function_widget.
    destruct (register_funcs_total plugin_name (iter_args args) s)
      as [s' [Hrun _]].
    now exists s'.
  - intros name code before after s Hkeys.
    unfold register_function_widget. cbn [iter_args].
    rewrite for_each_middle. unfold bind.
    destruct (register_funcs_total plugin_name before s) as [s1 [Hbefore _]].
    rewrite Hbefore, register_func_function.
    destruct (register_funcs_total plugin_name after
                (stored_function_widget plugin_name (replace "_" " " name)
                   (PyFunction name code) s1)) as [s2 [Hafter _]].
    exists s2. split; [exact Hafter|].
    rewrite (register_funcs_keep _ _ _ Hkeys _ Hafter).
    apply get_set_item.
Qed.

(** C8 as stated fails: a class is callable, yet it is not stored. *)
Lemma callable_item_accepted_counterexample :
  ~ (forall (func : PyObj) (plugin_name : string) (s : Registries),
        callable func = true ->
        exists s' name,
          register_function_widget func plugin_name s = (Ok tt, s') /\
          Dict.get name
            (Dict.get_default plugin_name [] (function_widgets s'))
          = Some func).
Proof.
  intros H.
  destruct (H (PyClass "Widget" 1) "pluginA" empty_registries eq_refl)
    as (s' & name & Hrun & Hget).
  injection Hrun as <-. discriminate Hget.
Qed.

Lemma function_widget_accepts_functions_witness :
  exists s',
    register_function_widget
      (PyList [PyInt 3; PyFunction "threshold_otsu" 7]) "pluginA"
      empty_registries
    = (Ok tt, s') /\
    Dict.get "threshold otsu"
      (Dict.get_default "pluginA" [] (function_widgets s'))
    = Some (PyFunction "threshold_otsu" 7).
Proof.
  destruct (function_widget_accepts_functions "pluginA")
    as (_ & _ & _ & _ & _ & Hstored).
  apply (Hstored "threshold_otsu" 7 [PyInt 3] [] empty_registries).
  intros name' code' [].
Defined.

Section Keys.

Variable camel_to_spaces : string -> string.
Variable object_str : PyObj -> string.

Local Abbreviation widget_name :=
  (dock_widget_name camel_to_spaces object_str).
Local Abbreviation str := (py_str object_str).

Lemma nonempty_true s : nonempty s = true <-> s <> "".
Proof. destruct s; simpl; split; congruence. Qed.

Lemma widget_name_default _cls kwargs class_name :
  Dict.get "name" kwargs = None ->
  getattr_name _cls = Ok class_name ->
  widget_name _cls kwargs = Ok (camel_to_spaces class_name).
Proof.
  intros Hname Hcls. unfold dock_widget_name, Dict.get_default.
  rewrite Hname, Hcls. reflexivity.
Qed.

Lemma widget_name_explicit _cls kwargs v :
  Dict.get "name" kwargs = Some v ->
  str v <> "" ->
  widget_name _cls kwargs = Ok (str v).
Proof.
  intros Hname Hv. unfold dock_widget_name, Dict.get_default.
  rewrite Hname. apply nonempty_true in Hv. now rewrite Hv.
Qed.

Lemma widget_name_empty _cls kwargs v class_name :
  Dict.get "name" kwargs = Some v ->
  str v = "" ->
  getattr_name _cls = Ok class_name ->
  widget_name _cls kwargs = Ok (camel_to_spaces class_name).
Proof.
  intros Hname Hv Hcls. unfold dock_widget_name, Dict.get_default.
  rewrite Hname, Hv, Hcls. reflexivity.
Qed.

(** C9, as amended.  An accepted dock-widget item without a name in
    its options is stored under [camel_to_spaces] of the [__name__] of
    its callable; a name given in the options is used, in its [str]
    form, when that form is not empty, and otherwise the item falls
    back to the transformed [__name__]; an accepted function widget is
    stored under its [__name__] with underscores replaced by
    spaces. *)
Theorem registry_key_of_item (plugin_name : string) :
  (forall arg _cls kwargs class_name s,
     unpack_arg arg = Some (_cls, PyDict kwargs) ->
     callable _cls = true ->
     getattr_name _cls = Ok class_name ->
     Dict.get "name" kwargs = None ->
     exists s',
       register_dock_widget_arg camel_to_spaces object_str plugin_name arg s
       = (Ok tt, s') /\
       dock_widgets s'
       = set_item plugin_name (camel_to_spaces class_name) (_cls, kwargs)
           (dock_widgets s)) /\
  (forall arg _cls kwargs v s,
     unpack_arg arg = Some (_cls, PyDict kwargs) ->
     callable _cls = true ->
     Dict.get "name" kwargs = Some v ->
     str v <> "" ->
     exists s',
       register_dock_widget_arg camel_to_spaces object_str plugin_name arg s
       = (Ok tt, s') /\
       dock_widgets s'
       = set_item plugin_name (str v) (_cls, kwargs) (dock_widgets s)) /\
  (forall arg _cls kwargs v class_name s,
     unpack_arg arg = Some (_cls, PyDict kwargs) ->
     callable _cls = true ->
     getattr_name _cls = Ok class_name ->
     Dict.get "name" kwargs = Some v ->
     str v = "" ->
     exists s',
       register_dock_widget_arg camel_to_spaces object_str plugin_name arg s
       = (Ok tt, s') /\
       dock_widgets s'
       = set_item plugin_name (camel_to_spaces class_name) (_cls, kwargs)
           (dock_widgets s)) /\
  (forall name code s,
     exists s',
       register_function_widget_func plugin_name (PyFunction name code) s
       = (Ok tt, s') /\
       function_widgets s'
       = set_item plugin_name (replace "_" " " name) (PyFunction name code)
           (function_widgets s)).
Proof.
  split; [|split; [|split]].
  - intros arg _cls kwargs class_name s Harg Hcall Hcls Hname.
    eexists.
    split;
      [apply register_arg_accepted;
       [eassumption | assumption
       | eapply widget_name_default; eassumption]
      | reflexivity].
  - intros arg _cls kwargs v s Harg Hcall Hname Hv.
    eexists.
    split;
      [apply register_arg_accepted;
       [eassumption | assumption
       | eapply widget_name_explicit; eassumption]
      | reflexivity].
  - intros arg _cls kwargs v class_name s Harg Hcall Hcls Hname Hv.
    eexists.
    split;
      [apply register_arg_accepted;
       [eassumption | assumption
       | eapply widget_name_empty; eassumption]
      | reflexivity].
  - intros name code s. eexists. split; [apply register_func_function|].
    reflexivity.
Qed.

End Keys.

(** C9 as stated fails: with the empty string given as the name in the
    options, the item is not stored under that name. *)
Lemma explicit_name_precedence_counterexample :
  ~ (forall (camel_to_spaces : string -> string)
            (object_str : PyObj -> string)
            (plugin_name : string) (_cls : PyObj) (kwargs : Dict.t PyObj)
            (v : PyObj) (s : Registries),
        callable _cls = true ->
        Dict.get "name" kwargs = Some v ->
        exists s',
          register_dock_widget_arg camel_to_spaces object_str plugin_name
            (PyTuple [_cls; PyDict kwargs]) s
          = (Ok tt, s') /\
          dock_widgets s'
          = set_item plugin_name (py_str object_str v) (_cls, kwargs)
              (dock_widgets s)).
Proof.
  intros H.
  destruct (H unchanged_name some_str "pluginA" (PyClass "MyWidget" 1)
              [("name", PyStr "")] (PyStr "") empty_registries
              eq_refl eq_refl) as (s' & Hrun & Hstored).
  injection Hrun as <-. discriminate Hstored.
Qed.

Lemma registry_key_of_item_witness :
  (exists s',
     register_dock_widget_arg unchanged_name some_str "pluginA"
       (PyClass "MyWidget" 1) empty_registries
     = (Ok tt, s') /\
     dock_widgets s'
     = [("pluginA", [("MyWidget", (PyClass "MyWidget" 1, []))])]) /\
  (exists s',
     register_dock_widget_arg unchanged_name some_str "pluginA"
       (PyTuple [PyClass "MyWidget" 1; PyDict [("name", PyStr "Mine")]])
       empty_registries
     = (Ok tt, s') /\
     dock_widgets s'
     = [("pluginA",
         [("Mine", (PyClass "MyWidget" 1, [("name", PyStr "Mine")]))])]).
Proof.
  destruct (registry_key_of_item unchanged_name some_str "pluginA")
    as (Hdefault & Hexplicit & _).
  split.
  - apply (Hdefault (PyClass "MyWidget" 1) (PyClass "MyWidget" 1) []
             "MyWidget" empty_registries); reflexivity.
  - apply (Hexplicit
             (PyTuple [PyClass "MyWidget" 1; PyDict [("name", PyStr "Mine")]])
             (PyClass "MyWidget" 1) [("name", PyStr "Mine")] (PyStr "Mine")
             empty_registries); try reflexivity.
    discriminate.
Defined.

(* ================================================================== *)
(** ** Registering twice under one name *)
(* ================================================================== *)

Lemma overwrite_warning_taken (V : Type) w plugin_name name
  (registry : Dict.t (Dict.t V)) :
  Dict.contains name (Dict.get_default plugin_name [] registry) = true ->
  overwrite_warning w plugin_name name registry = [w].
Proof. unfold overwrite_warning. now intros ->. Qed.

(** A dock widget registered under a name that is taken replaces the
    entry, which stays the only one of that name, and a warning is
    issued. *)
Lemma dock_widget_overwrite_warns camel_to_spaces object_str
  plugin_name arg _cls kwargs name s :
  unpack_arg arg = Some (_cls, PyDict kwargs) ->
  callable _cls = true ->
  dock_widget_name camel_to_spaces object_str _cls kwargs = Ok name ->
  Dict.wf (Dict.get_default plugin_name [] (dock_widgets s)) ->
  Dict.contains name (Dict.get_default plugin_name [] (dock_widgets s))
  = true ->
  exists s',
    register_dock_widget_arg camel_to_spaces object_str plugin_name arg s
    = (Ok tt, s') /\
    Dict.get name (Dict.get_default plugin_name [] (dock_widgets s'))
    = Some (_cls, kwargs) /\
    Dict.count name (Dict.get_default plugin_name [] (dock_widgets s')) = 1 /\
    warnings s' = warnings s ++ [DockWidgetOverwritten plugin_name name].
Proof.
  intros Harg Hcall Hname Hwf Htaken. eexists.
  split; [eapply register_arg_accepted; eassumption|].
  cbn [dock_widgets warnings stored_dock_widget].
  split; [apply get_set_item|].
  split; [now apply count_set_item|].
  now rewrite overwrite_warning_taken.
Qed.

(** The same for a function widget. *)
Lemma function_widget_overwrite_warns plugin_name name code s :
  let key := replace "_" " " name in
  Dict.wf (Dict.get_default plugin_name [] (function_widgets s)) ->
  Dict.contains key (Dict.get_default plugin_name [] (function_widgets s))
  = true ->
  exists s',
    register_function_widget_func plugin_name (PyFunction name code) s
    = (Ok tt, s') /\
    Dict.get key (Dict.get_default plugin_name [] (function_widgets s'))
    = Some (PyFunction name code) /\
    Dict.count key (Dict.get_default plugin_name [] (function_widgets s'))
    = 1 /\
    warnings s' = warnings s ++ [FunctionWidgetOverwritten plugin_name key].
Proof.
  intros key Hwf Htaken. eexists.
  split; [apply register_func_function|].
  cbn [function_widgets warnings stored_function_widget].
  split; [apply get_set_item|].
  split; [now apply count_set_item|].
  unfold key. now rewrite overwrite_warning_taken.
Qed.

(** Sample data registered under a name, taken or not, is stored without
    any warning. *)
Lemma sample_data_registered_silently plugin_name name func_name code s :
  exists s',
    register_sample_data (PyDict [(name, PyFunction func_name code)])
      plugin_name s
    = (Ok tt, s') /\
    Dict.get name (Dict.get_default plugin_name [] (_sample_data s'))
    = Some [("data", PyFunction func_name code);
            ("display_name", PyStr name)] /\
    warnings s' = warnings s.
Proof.
  eexists. split; [apply register_sample_data_dict|].
  cbn [_sample_data warnings stored_sample_data checked_data
         checked_warnings check_datum callable orb].
  split.
  - rewrite get_default_set. cbn [Dict.update fold_left fst snd Dict.set].
    apply get_set_same.
  - apply app_nil_r.
Qed.

(** C5.  The sample-data registry at the input where it departs from the
    other two: a plugin registers the sample ["foo"] twice.  The second
    entry replaces the first and stays the only entry of that name, and
    the list of warnings is empty. *)
Theorem sample_data_overwritten_without_warning :
  exists s1 s2,
    register_sample_data first_samples "pluginA" empty_registries
    = (Ok tt, s1) /\
    register_sample_data second_samples "pluginA" s1 = (Ok tt, s2) /\
    Dict.get "foo" (Dict.get_default "pluginA" [] (_sample_data s1))
    = Some [("data", PyFunction "make_first" 1);
            ("display_name", PyStr "foo")] /\
    Dict.get "foo" (Dict.get_default "pluginA" [] (_sample_data s2))
    = Some [("data", PyFunction "make_second" 2);
            ("display_name", PyStr "foo")] /\
    Dict.count "foo" (Dict.get_default "pluginA" [] (_sample_data s2)) = 1 /\
    warnings s2 = [].
Proof.
  do 2 eexists.
  split; [reflexivity|].
  split; [reflexivity|].
  repeat split.
Qed.

(* ================================================================== *)
(** ** More on the exported record *)
(* ================================================================== *)

Lemma exportedb_iff caller : exportedb caller = true <-> exported caller.
Proof.
  unfold exportedb, exported. rewrite andb_true_iff, Nat.ltb_lt. tauto.
Qed.

Lemma call_order_step_exported order spec_name caller :
  call_order_step order (spec_name, caller)
  = if exportedb caller
    then Dict.set spec_name (map export_entry (rev (get_hookimpls caller)))
           order
    else order.
Proof.
  unfold call_order_step, exportedb.
  now destruct (is_firstresult caller).
Qed.

Lemma nodup_keys_filter (V : Type) (f : string * V -> bool) (d : Dict.t V) :
  Dict.wf d -> Dict.wf (filter f d).
Proof.
  unfold Dict.wf, Dict.keys.
  induction d as [|[k v] d IH]; simpl; intros Hnd; [constructor|].
  inversion Hnd as [|? ? Hnotin Hnd']; subst.
  destruct (f (k, v)); simpl; [|auto].
  constructor; [|auto].
  intros Hin. apply Hnotin. apply in_map_iff in Hin.
  destruct Hin as [[k' v'] [Hk Hin]]. simpl in Hk. subst k'.
  apply filter_In in Hin. apply in_map_iff. exists (k, v').
  split; [reflexivity | tauto].
Qed.

Lemma call_order_fold_keys items :
  forall order,
    Dict.wf items ->
    (forall k, In k (Dict.keys items) -> ~ In k (Dict.keys order)) ->
    Dict.keys (fold_left call_order_step items order)
    = Dict.keys order
      ++ Dict.keys (filter (fun item => exportedb (snd item)) items).
Proof.
  unfold Dict.wf.
  induction items as [|[spec_name caller] items IH]; intros order Hwf Hfresh.
  - simpl. now rewrite app_nil_r.
  - cbn [fold_left filter snd]. inversion Hwf as [|? ? Hnotin Hwf']; subst.
    rewrite call_order_step_exported.
    destruct (exportedb caller).
    + rewrite IH; [|assumption|].
      * rewrite keys_set_absent.
        -- now rewrite <- app_assoc.
        -- destruct (Dict.contains spec_name order) eqn:E; [|reflexivity].
           apply contains_in in E. exfalso.
           apply (Hfresh spec_name); [now left | assumption].
      * intros k Hk Hin.
        rewrite keys_set_absent in Hin.
        -- apply in_app_or in Hin. destruct Hin as [Hin|[<-|[]]].
           ++ apply (Hfresh k); [now right | assumption].
           ++ apply Hnotin. exact Hk.
        -- destruct (Dict.contains spec_name order) eqn:E; [|reflexivity].
           apply contains_in in E. exfalso.
           apply (Hfresh spec_name); [now left | assumption].
    + apply IH; [assumption|].
      intros k Hk. apply Hfresh. now right.
Qed.

(** X1.  The keys of the exported record are the names of the
    first-result specifications with more than one implementation, in
    the order of the manager's hooks, each once. *)
Theorem call_order_keys (self : PluginManager) :
  Dict.wf (hooks self) ->
  Dict.keys (call_order self)
  = Dict.keys (filter (fun item => exportedb (snd item)) (hooks self)) /\
  Dict.wf (call_order self).
Proof.
  intros Hwf.
  assert (Hkeys : Dict.keys (call_order self)
                  = Dict.keys (filter (fun item => exportedb (snd item))
                                 (hooks self))).
  { unfold call_order. rewrite call_order_fold_keys; auto. }
  split; [exact Hkeys|].
  unfold Dict.wf. rewrite Hkeys. now apply nodup_keys_filter.
Qed.

Lemma call_order_keys_witness :
  Dict.keys (call_order sample_manager) = ["napari_get_reader"].
Proof.
  exact (proj1 (@call_order_keys sample_manager (proj1 sample_manager_wf))).
Defined.

(** X2.  Every list of the exported record is the list of the
    implementations of its specification, read backwards: it has as many
    entries as the specification has implementations, at least two, and
    names every plugin once when no plugin has two implementations. *)
Theorem call_order_lists (self : PluginManager) (spec_name : string)
  (entries : list Entry.t) :
  Dict.wf (hooks self) ->
  Dict.get spec_name (call_order self) = Some entries ->
  exists caller,
    Dict.get spec_name (hooks self) = Some caller /\
    is_firstresult caller = true /\
    entries = map export_entry (rev (get_hookimpls caller)) /\
    length entries = length (get_hookimpls caller) /\
    2 <= length entries /\
    (caller_wf caller -> NoDup (map Entry.plugin entries)).
Proof.
  intros Hwf Hget.
  assert (Hin : Dict.contains spec_name (call_order self) = true)
    by (unfold Dict.contains; now rewrite Hget).
  apply call_order_contains in Hin; [|assumption].
  destruct Hin as [caller [Hcaller Hexp]].
  rewrite (@call_order_get self spec_name caller Hwf Hcaller Hexp) in Hget.
  injection Hget as <-.
  exists caller. destruct Hexp as [Hfirst Hlen].
  repeat split; try assumption.
  - now rewrite length_map, length_rev.
  - rewrite length_map, length_rev. lia.
  - intros Hc. rewrite export_entry_plugin, map_rev.
    now apply NoDup_rev.
Qed.

Lemma call_order_lists_witness :
  exists caller,
    Dict.get "napari_get_reader" (hooks sample_manager) = Some caller /\
    is_firstresult caller = true /\
    length (get_hookimpls caller) = 3.
Proof.
  destruct (@call_order_lists sample_manager "napari_get_reader" _
              (proj1 sample_manager_wf) eq_refl)
    as [caller (Hget & Hfirst & _ & Hlen & _)].
  exists caller. repeat split; try assumption.
  symmetry. exact Hlen.
Defined.

(* ================================================================== *)
(** ** Imports that change nothing, and what every import keeps *)
(* ================================================================== *)

Lemma set_call_order_hooks_fixed new_order items :
  (forall spec_name caller,
     In (spec_name, caller) items ->
     set_call_order_caller new_order spec_name caller = Ok caller) ->
  set_call_order_hooks new_order items = Ok items.
Proof.
  induction items as [|[s c] items IH]; intros Hfixed; [reflexivity|].
  cbn [set_call_order_hooks].
  rewrite (Hfixed s c) by now left. cbn [result_bind].
  rewrite IH by (intros; apply Hfixed; now right).
  reflexivity.
Qed.

Lemma set_call_order_caller_nothing_installed new_order spec_name caller :
  installed caller (Dict.get_default spec_name [] new_order) = [] ->
  set_call_order_caller new_order spec_name caller = Ok caller.
Proof.
  intros Hnone. unfold set_call_order_caller.
  now apply set_call_order_body_not_called.
Qed.

(** X3.  A record that, for every specification of the manager, names no
    installed plugin (in particular the empty record, or a record about
    other specifications) leaves the manager exactly as it is. *)
Theorem set_call_order_nothing_installed
  (self : PluginManager) (new_order : CallOrderDict) :
  (forall spec_name caller,
     In (spec_name, caller) (hooks self) ->
     installed caller (Dict.get_default spec_name [] new_order) = []) ->
  set_call_order new_order self = Ok self.
Proof.
  intros Hnone. unfold set_call_order.
  rewrite set_call_order_hooks_fixed.
  - now destruct self.
  - intros spec_name caller Hin.
    apply set_call_order_caller_nothing_installed. now apply Hnone.
Qed.

Lemma set_call_order_nothing_installed_witness :
  set_call_order [] sample_manager = Ok sample_manager /\
  set_call_order
    [("napari_get_reader", [{| Entry.plugin := "gone";
                               Entry.enabled := false |}]);
     ("napari_get_layer_data", [{| Entry.plugin := "builtins";
                                   Entry.enabled := false |}])]
    sample_manager
  = Ok sample_manager.
Proof.
  split; apply set_call_order_nothing_installed;
    intros spec_name caller Hin; simpl in Hin;
    repeat (destruct Hin as [Hin|Hin]; [injection Hin as <- <-; reflexivity|]);
    destruct Hin.
Defined.

Lemma with_enabled_same impl : with_enabled (enabled impl) impl = impl.
Proof. now destruct impl. Qed.

Lemma index_of_in impls impl :
  In impl impls -> exists i, index_of (plugin_name impl) impls = Some i.
Proof.
  induction impls as [|a impls IH]; simpl; [tauto|].
  intros Hin. destruct (is_plugin (plugin_name impl) a) eqn:E; [eauto|].
  destruct Hin as [->|Hin].
  - unfold is_plugin in E. now rewrite String.eqb_refl in E.
  - destruct (IH Hin) as [i ->]. simpl. eauto.
Qed.

(** Writing to an implementation the flag it has changes nothing. *)
Lemma update_at_own_flag impls impl i :
  NoDup (map plugin_name impls) -> In impl impls ->
  index_of (plugin_name impl) impls = Some i ->
  update_at i (with_enabled (enabled impl)) impls = impls.
Proof.
  revert i. induction impls as [|a impls IH]; intros i Hnd Hin; simpl;
    [destruct Hin|].
  inversion Hnd as [|? ? Hnotin Hnd']; subst.
  destruct (is_plugin (plugin_name impl) a) eqn:E.
  - intros [= <-]. apply is_plugin_true in E.
    destruct Hin as [->|Hin].
    + now destruct impl.
    + exfalso. apply Hnotin. rewrite E. now apply in_map.
  - destruct (index_of (plugin_name impl) impls) as [j|] eqn:Hj;
      simpl; [|discriminate].
    intros [= <-]. cbn [update_at]. f_equal. destruct Hin as [->|Hin].
    + unfold is_plugin in E. now rewrite String.eqb_refl in E.
    + now apply IH.
Qed.

Lemma set_enabled_own_flag caller impl i :
  caller_wf caller -> In impl (get_hookimpls caller) ->
  index_of (plugin_name impl) (get_hookimpls caller) = Some i ->
  set_enabled i (enabled impl) caller = caller.
Proof.
  intros Hwf Hin Hi. unfold set_enabled.
  fold (get_hookimpls caller). rewrite update_at_own_flag by assumption.
  now destruct caller.
Qed.

(** Entries exported from a caller, imported into the same caller,
    assign to each implementation the flag it has. *)
Lemma set_call_order_entries_own caller impls :
  caller_wf caller ->
  (forall impl, In impl impls -> In impl (get_hookimpls caller)) ->
  forall order,
    set_call_order_entries caller order (map export_entry impls)
    = Ok (caller, order ++ map plugin_name impls).
Proof.
  intros Hwf. induction impls as [|impl impls IH]; intros Hsub order.
  - simpl. now rewrite app_nil_r.
  - cbn [map set_call_order_entries export_entry Entry.plugin Entry.enabled].
    unfold get_plugin_implementation.
    destruct (index_of_in (get_hookimpls caller) impl) as [i Hi];
      [apply Hsub; now left|].
    rewrite Hi, set_enabled_own_flag; try assumption; [|apply Hsub; now left].
    rewrite IH by (intros; apply Hsub; now right).
    now rewrite <- app_assoc.
Qed.

Lemma named_all calls impls :
  NoDup (map plugin_name calls) ->
  (forall impl, In impl impls -> In impl calls) ->
  flat_map (fun n => match find (is_plugin n) calls with
                     | Some impl => [impl]
                     | None => []
                     end) (map plugin_name impls)
  = impls.
Proof.
  intros Hnd. induction impls as [|impl impls IH]; intros Hsub;
    [reflexivity|].
  cbn [map flat_map]. rewrite find_unique; [|assumption|apply Hsub; now left].
  rewrite IH by (intros; apply Hsub; now right). reflexivity.
Qed.

(** Bringing all implementations to the front in their present order
    changes nothing. *)
Lemma brought_to_front_own_order caller :
  caller_wf caller ->
  brought_to_front (dispatch_names caller) caller = caller.
Proof.
  intros Hwf. unfold brought_to_front.
  assert (Hnd : NoDup (map plugin_name (dispatch_order caller)))
    by now apply dispatch_wf.
  unfold dispatch_names at 1.
  rewrite named_all by auto.
  rewrite filter_drops_all_in.
  - rewrite app_nil_r. unfold dispatch_order. rewrite rev_involutive.
    now destruct caller.
  - intros impl Hin.
    assert (Hmem : mem (plugin_name impl) (dispatch_names caller) = true).
    { apply mem_in. unfold dispatch_names. now apply in_map. }
    now rewrite Hmem.
Qed.

Lemma set_call_order_caller_own self spec_name caller :
  Dict.wf (hooks self) -> caller_wf caller ->
  Dict.get spec_name (hooks self) = Some caller ->
  set_call_order_caller (call_order self) spec_name caller = Ok caller.
Proof.
  intros Hkeys Hwf Hget. unfold set_call_order_caller, set_call_order_body.
  destruct (exportedb caller) eqn:Hexp.
  - apply exportedb_iff in Hexp.
    unfold Dict.get_default.
    rewrite (@call_order_get self spec_name caller Hkeys Hget Hexp).
    rewrite set_call_order_entries_own;
      [|assumption | intros impl Hin; now apply in_rev].
    cbn [result_bind app]. fold (dispatch_order caller).
    fold (dispatch_names caller).
    destruct (dispatch_names caller) eqn:E; [reflexivity|].
    rewrite <- E.
    rewrite bring_to_front_distinct by (apply dispatch_wf; assumption).
    now rewrite brought_to_front_own_order.
  - assert (Hnone : Dict.get spec_name (call_order self) = None).
    { destruct (Dict.get spec_name (call_order self)) eqn:E; [|reflexivity].
      assert (Hin : Dict.contains spec_name (call_order self) = true)
        by (unfold Dict.contains; now rewrite E).
      apply call_order_contains in Hin; [|assumption].
      destruct Hin as [c [Hc Hex]]. rewrite Hget in Hc. injection Hc as <-.
      apply exportedb_iff in Hex. congruence. }
    unfold Dict.get_default. now rewrite Hnone.
Qed.

(** X4.  Importing into a manager the record it exports itself leaves
    the manager exactly as it is. *)
Theorem set_call_order_own_export (self : PluginManager) :
  hooks_wf self -> set_call_order (call_order self) self = Ok self.
Proof.
  intros [Hkeys Hwf]. unfold set_call_order.
  rewrite set_call_order_hooks_fixed.
  - now destruct self.
  - intros spec_name caller Hin. rewrite Forall_forall in Hwf.
    apply set_call_order_caller_own; try assumption.
    + apply (Hwf (spec_name, caller) Hin).
    + now apply in_get_wf.
Qed.

Lemma set_call_order_own_export_witness :
  set_call_order (call_order sample_manager) sample_manager
  = Ok sample_manager.
Proof. exact (set_call_order_own_export sample_manager_wf). Defined.

Lemma dispatch_names_nodup_wf caller :
  NoDup (dispatch_names caller) -> caller_wf caller.
Proof.
  unfold dispatch_names, dispatch_order, caller_wf. rewrite map_rev.
  intros H. apply NoDup_rev in H. now rewrite rev_involutive in H.
Qed.

Lemma front_order_nodup order names :
  NoDup order -> NoDup names ->
  NoDup (order ++ filter (fun n => negb (mem n order)) names).
Proof.
  intros Horder Hnd. apply NoDup_app.
  - exact Horder.
  - now apply NoDup_filter.
  - intros x Hx Hin.
    apply (proj2 (mem_in _ _)) in Hx.
    apply filter_In in Hin. destruct Hin as [_ Hin].
    rewrite Hx in Hin. discriminate.
Qed.

Lemma map_identity impls impls' :
  map function impls' = map function impls ->
  map plugin_name impls' = map plugin_name impls ->
  map identity impls' = map identity impls.
Proof.
  revert impls'. induction impls as [|a impls IH]; intros [|b impls'];
    simpl; try discriminate; [reflexivity|].
  intros [= Hf Hfs] [= Hn Hns]. unfold identity at 1 3.
  rewrite Hf, Hn. f_equal. now apply IH.
Qed.

Lemma brought_to_front_permutation order caller :
  caller_wf caller -> NoDup order ->
  (forall n, In n order -> implements caller n = true) ->
  Permutation (get_hookimpls (brought_to_front order caller))
    (get_hookimpls caller).
Proof.
  intros Hwf Horder Hpresent. apply NoDup_Permutation.
  - apply (NoDup_map_inv plugin_name).
    apply dispatch_names_nodup_wf.
    rewrite brought_to_front_names by assumption.
    apply front_order_nodup; [assumption | now apply dispatch_wf].
  - now apply (NoDup_map_inv plugin_name).
  - intros impl. now apply brought_to_front_elements.
Qed.

(** What the body of the outer loop keeps of a hook caller. *)
Lemma set_call_order_caller_keeps new_order spec_name caller caller' :
  caller_wf caller ->
  set_call_order_caller new_order spec_name caller = Ok caller' ->
  caller_wf caller' /\
  is_firstresult caller' = is_firstresult caller /\
  Permutation (map identity (get_hookimpls caller'))
    (map identity (get_hookimpls caller)).
Proof.
  intros Hwf Hrun.
  pose proof (set_call_order_caller_distinct _ _ _ Hrun) as Hnd.
  destruct (set_call_order_caller_spec new_order spec_name Hwf Hnd)
    as [c (Hrun' & Hfirst & _ & Horder & _)].
  rewrite Hrun in Hrun'. injection Hrun' as <-.
  split; [|split; [exact Hfirst|]].
  - apply dispatch_names_nodup_wf. rewrite Horder.
    apply front_order_nodup; [assumption | now apply dispatch_wf].
  - unfold set_call_order_caller, set_call_order_body in Hrun.
    destruct (set_call_order_entries_spec
                (Dict.get_default spec_name [] new_order) caller [])
      as [c1 (Hentries & _ & Hnames & Hfuns & _ & _)].
    rewrite Hentries in Hrun. cbn [result_bind app] in Hrun.
    assert (Hid : map identity (get_hookimpls c1)
                  = map identity (get_hookimpls caller))
      by now apply map_identity.
    set (order := map Entry.plugin
                    (installed caller
                       (Dict.get_default spec_name [] new_order))) in *.
    assert (Hpresent : forall n, In n order -> implements c1 n = true).
    { intros n Hn. rewrite (implements_names caller c1 Hnames).
      now apply (installed_implemented caller
                   (Dict.get_default spec_name [] new_order)). }
    assert (Hwf1 : caller_wf c1) by (unfold caller_wf; now rewrite Hnames).
    rewrite <- Hid.
    destruct order as [|n order'] eqn:E.
    + injection Hrun as <-. reflexivity.
    + apply bring_to_front_ok in Hrun. destruct Hrun as [_ ->].
      apply Permutation_map.
      now apply brought_to_front_permutation.
Qed.

(** X5.  An import never loses, duplicates or invents an implementation:
    every specification keeps its policy and the same implementations
    (only their order and flags change), and the manager's invariant
    still holds afterwards. *)
Theorem set_call_order_keeps_implementations
  (self self' : PluginManager) (new_order : CallOrderDict) :
  hooks_wf self ->
  set_call_order new_order self = Ok self' ->
  hooks_wf self' /\
  Dict.keys (hooks self') = Dict.keys (hooks self) /\
  forall spec_name caller,
    Dict.get spec_name (hooks self) = Some caller ->
    exists caller',
      Dict.get spec_name (hooks self') = Some caller' /\
      is_firstresult caller' = is_firstresult caller /\
      Permutation (map identity (get_hookimpls caller'))
        (map identity (get_hookimpls caller)).
Proof.
  intros [Hkeys Hwf] Hrun.
  unfold set_call_order in Hrun.
  destruct (set_call_order_hooks new_order (hooks self)) as [items'|e]
    eqn:Hrun'; [|discriminate].
  cbn [result_bind] in Hrun. injection Hrun as <-. cbn [hooks].
  destruct (set_call_order_hooks_inv _ _ Hrun') as [Hkeys' Hget].
  rewrite Forall_forall in Hwf.
  assert (Hcallers :
            forall spec_name caller,
              Dict.get spec_name (hooks self) = Some caller ->
              exists caller',
                Dict.get spec_name items' = Some caller' /\
                caller_wf caller' /\
                is_firstresult caller' = is_firstresult caller /\
                Permutation (map identity (get_hookimpls caller'))
                  (map identity (get_hookimpls caller))).
  { intros spec_name caller Hcaller.
    destruct (Hget _ _ Hcaller) as [caller' [Hget' Hbody]].
    exists caller'. split; [assumption|].
    apply (set_call_order_caller_keeps new_order spec_name); [|assumption].
    apply (Hwf (spec_name, caller)). now apply get_some_in. }
  split; [split|split; [assumption|]].
  - unfold Dict.wf. cbn [hooks]. now rewrite Hkeys'.
  - cbn [hooks]. apply Forall_forall. intros [s c'] Hin. cbn [snd].
    assert (Hs : In s (Dict.keys (hooks self))).
    { rewrite <- Hkeys'. apply (in_map fst) in Hin. exact Hin. }
    apply contains_in in Hs. unfold Dict.contains in Hs.
    destruct (Dict.get s (hooks self)) as [caller|] eqn:Hcaller;
      [|discriminate].
    destruct (Hcallers _ _ Hcaller) as [caller' (Hget' & Hwf' & _)].
    assert (Hwf'' : Dict.wf items')
      by (unfold Dict.wf; now rewrite Hkeys').
    rewrite (in_get_wf _ _ Hwf'' Hin) in Hget'.
    now injection Hget' as <-.
  - intros spec_name caller Hcaller.
    destruct (Hcallers _ _ Hcaller) as [caller' (Hget' & _ & Hrest)].
    exists caller'. now split.
Qed.

Lemma set_call_order_keeps_implementations_witness :
  exists self',
    set_call_order stale_order sample_manager = Ok self' /\
    hooks_wf self' /\
    Dict.keys (hooks self') = Dict.keys (hooks sample_manager).
Proof.
  eexists. split; [reflexivity|].
  destruct (@set_call_order_keeps_implementations sample_manager _
              stale_order sample_manager_wf eq_refl) as (Hwf & Hkeys & _).
  split; assumption.
Defined.

(* ================================================================== *)
(** ** All outcomes of a widget query *)
(* ================================================================== *)

(** X6.  [get_plugin_widget] either returns an entry of the plugin's
    dictionary (the one of the given name when a non-empty name is
    given) or raises one of its three documented errors; the indexing
    [list(plg_wdgs)[0]] and the lookup [plg_wdgs[widget_name]] inside it
    never fail. *)
Theorem get_plugin_widget_outcomes
  (registry : Dict.t (Dict.t DockWidget)) (plugin_name : string)
  (widget_name : option string) :
  match get_plugin_widget registry plugin_name widget_name with
  | Ok widget =>
      exists plg_wdgs name,
        Dict.get plugin_name registry = Some plg_wdgs /\
        Dict.get name plg_wdgs = Some widget /\
        (forall given,
           widget_name = Some given -> given <> "" -> name = given)
  | Raise e =>
      e = KeyError (NoDockWidgets plugin_name) \/
      (exists plg_wdgs,
         Dict.get plugin_name registry = Some plg_wdgs /\
         1 < length plg_wdgs /\
         e = ValueError (ManyDockWidgets plugin_name (Dict.keys plg_wdgs))) \/
      (exists given,
         widget_name = Some given /\ given <> "" /\
         e = KeyError (NoWidgetNamed plugin_name given))
  end.
Proof.
  unfold get_plugin_widget.
  destruct (Dict.get plugin_name registry) as [[|[k v] rest]|] eqn:Hplugin;
    [now left | | now left].
  assert (Homitted :
            match
              (if (1 <? length ((k, v) :: rest))%nat
               then Raise (ValueError
                             (ManyDockWidgets plugin_name
                                (Dict.keys ((k, v) :: rest))))
               else match Dict.keys ((k, v) :: rest) with
                    | [] => Raise (IndexError (OutOfRange 0))
                    | name :: _ => getitem name ((k, v) :: rest)
                    end)
            with
            | Ok widget =>
                exists plg_wdgs name,
                  Some ((k, v) :: rest) = Some plg_wdgs /\
                  Dict.get name plg_wdgs = Some widget
            | Raise e =>
                exists plg_wdgs,
                  Some ((k, v) :: rest) = Some plg_wdgs /\
                  1 < length plg_wdgs /\
                  e = ValueError
                        (ManyDockWidgets plugin_name (Dict.keys plg_wdgs))
            end).
  { destruct (Nat.ltb_spec 1 (length ((k, v) :: rest))) as [Hlt|Hge].
    - exists ((k, v) :: rest). auto.
    - cbn [Dict.keys map fst]. unfold getitem. cbn [Dict.get].
      rewrite String.eqb_refl. exists ((k, v) :: rest), k.
      split; [reflexivity|]. cbn [Dict.get]. now rewrite String.eqb_refl. }
  destruct widget_name as [[|c given]|].
  - destruct (if (1 <? length ((k, v) :: rest))%nat then _ else _)
      as [widget|e].
    + destruct Homitted as (plg & name & Hplg & Hget).
      exists plg, name. repeat split; try assumption.
      intros given [= <-] Hne. congruence.
    + right. left. exact Homitted.
  - destruct (Dict.contains (String c given) ((k, v) :: rest)) eqn:Hin;
      cbn [negb].
    + unfold getitem. unfold Dict.contains in Hin.
      destruct (Dict.get (String c given) ((k, v) :: rest)) as [widget|]
        eqn:Hget; [|discriminate].
      exists ((k, v) :: rest), (String c given).
      repeat split; try assumption.
      now intros given' [= <-] _.
    + right. right. exists (String c given).
      repeat split. discriminate.
  - destruct (if (1 <? length ((k, v) :: rest))%nat then _ else _)
      as [widget|e].
    + destruct Homitted as (plg & name & Hplg & Hget).
      exists plg, name. repeat split; try assumption.
      intros given [=].
    + right. left. exact Homitted.
Qed.

(* ================================================================== *)
(** ** What a callback leaves alone *)
(* ================================================================== *)

Lemma for_each_preserves (A : Type) (R : Registries -> Registries -> Prop)
  (body : A -> M unit) :
  (forall s, R s s) ->
  (forall a b c, R a b -> R b c -> R a c) ->
  (forall x s, R s (snd (body x s))) ->
  forall xs s, R s (snd (for_each body xs s)).
Proof.
  intros Hrefl Htrans Hstep. induction xs as [|x xs IH]; intros s.
  - apply Hrefl.
  - cbn [for_each]. unfold bind. specialize (Hstep x s).
    destruct (body x s) as [[[]|e] s1]; cbn [snd] in *.
    + apply (Htrans _ s1); [assumption | apply IH].
    + assumption.
Qed.

Lemma extends_warnings_refl s : extends_warnings s s.
Proof. exists []. now rewrite app_nil_r. Qed.

Lemma extends_warnings_trans a b c :
  extends_warnings a b -> extends_warnings b c -> extends_warnings a c.
Proof.
  intros [ws Hab] [ws' Hbc]. exists (ws ++ ws').
  now rewrite Hbc, Hab, app_assoc.
Qed.

Section Grows.
Variable V : Type.
Variable plugin_name : string.
Implicit Types (registry : Dict.t (Dict.t V)).

Lemma grows_refl registry : grows plugin_name registry registry.
Proof.
  split; [|split].
  - intros p _. reflexivity.
  - intros p n H. exact H.
  - tauto.
Qed.

Lemma grows_trans (a b c : Dict.t (Dict.t V)) :
  grows plugin_name a b -> grows plugin_name b c -> grows plugin_name a c.
Proof.
  intros (Hab & Kab & Wab) (Hbc & Kbc & Wbc). split; [|split].
  - intros p Hp. now rewrite Hbc, Hab.
  - intros p n H. apply Kbc, Kab, H.
  - intros H. apply Wbc, Wab, H.
Qed.

Lemma get_default_set_other (k k' : string) (x : Dict.t V) registry :
  k <> k' ->
  Dict.get_default k' [] (Dict.set k x registry)
  = Dict.get_default k' [] registry.
Proof. intros H. unfold Dict.get_default. now rewrite get_set_other. Qed.

Lemma forall_set (P : Dict.t V -> Prop) k (x : Dict.t V) registry :
  P x ->
  Forall (fun item => P (snd item)) registry ->
  Forall (fun item => P (snd item)) (Dict.set k x registry).
Proof.
  intros Hx. induction registry as [|[k' v'] registry IH]; simpl; intros H.
  - now constructor.
  - inversion H as [|? ? Hhead Htail]; subst.
    destruct (String.eqb k' k); constructor; auto.
Qed.

Lemma wf_items registry p :
  registry_wf registry -> Dict.wf (Dict.get_default p [] registry).
Proof.
  intros [_ Hall]. unfold Dict.get_default.
  destruct (Dict.get p registry) as [d|] eqn:E; [|constructor].
  apply get_some_in in E. rewrite Forall_forall in Hall.
  apply (Hall (p, d) E).
Qed.

(** Replacing the dictionary of [plugin_name] by one that has at least
    the same names. *)
Lemma grows_set (x : Dict.t V) registry :
  (forall n,
     Dict.contains n (Dict.get_default plugin_name [] registry) = true ->
     Dict.contains n x = true) ->
  (registry_wf registry -> Dict.wf x) ->
  grows plugin_name registry (Dict.set plugin_name x registry).
Proof.
  intros Hkeeps Hwf. split; [|split].
  - intros p Hp. apply get_set_other. congruence.
  - intros p n Hn. destruct (string_dec plugin_name p) as [<-|Hne].
    + rewrite get_default_set. now apply Hkeeps.
    + now rewrite get_default_set_other.
  - intros H. split.
    + apply wf_set. apply H.
    + apply forall_set; [now apply Hwf | apply H].
Qed.

Lemma grows_set_item name (v : V) registry :
  grows plugin_name registry (set_item plugin_name name v registry).
Proof.
  unfold set_item. apply grows_set.
  - intros n Hn. rewrite contains_set, Hn. apply orb_true_r.
  - intros Hwf. apply wf_set. now apply wf_items.
Qed.

Lemma contains_update n (other d : Dict.t V) :
  Dict.contains n d = true -> Dict.contains n (Dict.update other d) = true.
Proof.
  revert d. induction other as [|[k v] other IH]; intros d Hn; [exact Hn|].
  rewrite update_cons. apply IH. rewrite contains_set, Hn.
  apply orb_true_r.
Qed.

Lemma grows_update (other : Dict.t V) registry :
  grows plugin_name registry
    (Dict.set plugin_name
       (Dict.update other (Dict.get_default plugin_name [] registry))
       registry).
Proof.
  apply grows_set.
  - intros n Hn. now apply contains_update.
  - intros Hwf. apply wf_update. now apply wf_items.
Qed.

End Grows.

Section DockFrame.

Variable camel_to_spaces : string -> string.
Variable object_str : PyObj -> string.
Variable plugin_name : string.

Local Abbreviation register_arg :=
  (register_dock_widget_arg camel_to_spaces object_str plugin_name).
Local Abbreviation no_name := (AttributeError (NoAttribute "__name__")).

Lemma getattr_name_cases o :
  (exists name, getattr_name o = Ok name) \/ getattr_name o = Raise no_name.
Proof. destruct o as [| | | | | | | | | |[name|]]; simpl; eauto. Qed.

Lemma dock_widget_name_cases _cls kwargs :
  (exists name,
     dock_widget_name camel_to_spaces object_str _cls kwargs = Ok name) \/
  dock_widget_name camel_to_spaces object_str _cls kwargs = Raise no_name.
Proof.
  unfold dock_widget_name.
  destruct (nonempty _); [eauto|].
  destruct (getattr_name_cases _cls) as [[name ->]| ->]; simpl; eauto.
Qed.

(** The three ways the loop body can end: a warning and nothing else,
    an entry stored, or an [AttributeError] with nothing changed. *)
Lemma register_arg_cases arg s :
  (exists w, register_arg arg s = (Ok tt, with_warnings [w] s)) \/
  (exists name _cls kwargs,
     unpack_arg arg = Some (_cls, PyDict kwargs) /\
     callable _cls = true /\
     dock_widget_name camel_to_spaces object_str _cls kwargs = Ok name /\
     register_arg arg s
     = (Ok tt, stored_dock_widget plugin_name name (_cls, kwargs) s)) \/
  register_arg arg s = (Raise no_name, s).
Proof.
  destruct (unpack_arg arg) as [[_cls kwargs]|] eqn:Harg.
  - destruct (callable _cls) eqn:Hcall.
    + destruct (is_dict kwargs) eqn:Hdict.
      * destruct kwargs as [| | | | | | |kw| | |]; try discriminate.
        destruct (dock_widget_name_cases _cls kw) as [[name Hname]|Hname].
        -- right. left. exists name, _cls, kw.
           repeat split; try assumption.
           now apply register_arg_accepted.
        -- right. right. unfold register_dock_widget_arg.
           rewrite Harg, Hcall. cbn [negb]. unfold bind, lift.
           now rewrite Hname.
      * unfold register_dock_widget_arg. rewrite Harg, Hcall. cbn [negb].
        destruct (getattr_name_cases _cls) as [[name Hname]|Hname].
        -- left. exists (InvalidKwargs plugin_name dock_widget_hook name).
           destruct kwargs; try discriminate;
             unfold bind, lift; now rewrite Hname.
        -- right. right.
           destruct kwargs; try discriminate;
             unfold bind, lift; now rewrite Hname.
    + left. exists (NonCallableWidget plugin_name dock_widget_hook _cls).
      eapply register_arg_non_callable; eassumption.
  - left. exists (InvalidTuple plugin_name dock_widget_hook).
    unfold register_dock_widget_arg. now rewrite Harg.
Qed.

Lemma changes_only_dock_widgets_refl s :
  changes_only_dock_widgets plugin_name s s.
Proof.
  split; [apply grows_refl|]. split; [reflexivity|]. split; [reflexivity|].
  apply extends_warnings_refl.
Qed.

Lemma changes_only_dock_widgets_trans a b c :
  changes_only_dock_widgets plugin_name a b ->
  changes_only_dock_widgets plugin_name b c ->
  changes_only_dock_widgets plugin_name a c.
Proof.
  intros (Gab & Fab & Sab & Wab) (Gbc & Fbc & Sbc & Wbc).
  split; [|split; [|split]].
  - eapply grows_trans; eassumption.
  - congruence.
  - congruence.
  - eapply extends_warnings_trans; eassumption.
Qed.

Lemma register_arg_changes arg s :
  changes_only_dock_widgets plugin_name s (snd (register_arg arg s)).
Proof.
  destruct (register_arg_cases arg s)
    as [[w ->]|[(name & _cls & kwargs & _ & _ & _ & ->)| ->]]; cbn [snd].
  - split; [apply grows_refl|]. split; [reflexivity|].
    split; [reflexivity|]. now exists [w].
  - split; [apply grows_set_item|]. split; [reflexivity|].
    split; [reflexivity|].
    cbn [warnings stored_dock_widget]. eexists. reflexivity.
  - apply changes_only_dock_widgets_refl.
Qed.

(** X7.  Whatever a dock-widget hook returns, and whether or not the
    call raises, [register_dock_widget] leaves the function widgets, the
    sample data and the dock widgets of every other plugin as they were;
    it removes no registered widget name, keeps the keys of the registry
    distinct, and only appends to the warnings. *)
Theorem register_dock_widget_changes (args : PyObj) (s : Registries) :
  changes_only_dock_widgets plugin_name s
    (snd (register_dock_widget camel_to_spaces object_str args plugin_name s)).
Proof.
  unfold register_dock_widget.
  apply (for_each_preserves (changes_only_dock_widgets plugin_name)).
  - apply changes_only_dock_widgets_refl.
  - apply changes_only_dock_widgets_trans.
  - apply register_arg_changes.
Qed.

(** X8.  [register_dock_widget] returns normally or raises the
    [AttributeError] of a missing [__name__], nothing else. *)
Theorem register_dock_widget_raises_only_attribute_error
  (args : PyObj) (s : Registries) :
  fst (register_dock_widget camel_to_spaces object_str args plugin_name s)
  = Ok tt \/
  fst (register_dock_widget camel_to_spaces object_str args plugin_name s)
  = Raise (AttributeError (NoAttribute "__name__")).
Proof.
  unfold register_dock_widget. generalize (iter_args args). intros items.
  revert s. induction items as [|arg items IH]; intros s.
  - now left.
  - cbn [for_each]. unfold bind.
    destruct (register_arg_cases arg s)
      as [[w ->]|[(name & _cls & kwargs & _ & _ & _ & ->)| ->]].
    + apply IH.
    + apply IH.
    + now right.
Qed.

End DockFrame.

(* ================================================================== *)
(** ** Dock widgets: names, tuples, lookups *)
(* ================================================================== *)

Lemma for_each_ext (A : Type) (f g : A -> M unit) (xs : list A) :
  (forall x, In x xs -> forall s, f x s = g x s) ->
  forall s, for_each f xs s = for_each g xs s.
Proof.
  induction xs as [|x xs IH]; intros Hext s; [reflexivity|].
  cbn [for_each]. unfold bind. rewrite Hext by now left.
  destruct (g x s) as [[[]|e] s1]; [|reflexivity].
  apply IH. intros y Hy. apply Hext. now right.
Qed.

Section DockNames.

Variable camel_to_spaces : string -> string.
Variable object_str : PyObj -> string.
Variable plugin_name : string.

Local Abbreviation register_arg :=
  (register_dock_widget_arg camel_to_spaces object_str plugin_name).
Local Abbreviation register :=
  (fun args => register_dock_widget camel_to_spaces object_str args
                 plugin_name).
Local Abbreviation no_name := (AttributeError (NoAttribute "__name__")).
Local Abbreviation given_name kwargs :=
  (py_str object_str (Dict.get_default "name" (PyStr "") kwargs)).

(** X9.  A callable without [__name__] (a [functools.partial], say) is
    registered only when its options give a non-empty name.  Otherwise
    the lookup of [__name__] raises [AttributeError]: nothing is stored,
    no warning is issued, and the items after it in the list are not
    processed. *)
Theorem callable_without_name (arg _cls kwargs : PyObj) :
  unpack_arg arg = Some (_cls, kwargs) ->
  callable _cls = true ->
  getattr_name _cls = Raise no_name ->
  (forall kw s,
     kwargs = PyDict kw -> given_name kw <> "" ->
     register_arg arg s
     = (Ok tt, stored_dock_widget plugin_name (given_name kw) (_cls, kw) s)) /\
  (is_dict kwargs = false \/
   (exists kw, kwargs = PyDict kw /\ given_name kw = "") ->
   (forall s, register_arg arg s = (Raise no_name, s)) /\
   (forall before after s,
      register (PyList (before ++ arg :: after)) s
      = (register (PyList before) ;; lift (Raise no_name))%callback s)).
Proof.
  intros Harg Hcall Hname. split.
  - intros kw s -> Hgiven. apply register_arg_accepted; try assumption.
    unfold dock_widget_name. apply nonempty_true in Hgiven.
    now rewrite Hgiven.
  - intros Hbad.
    assert (Hstep : forall s, register_arg arg s = (Raise no_name, s)).
    { intros s. unfold register_dock_widget_arg.
      rewrite Harg, Hcall. cbn [negb].
      destruct Hbad as [Hdict|[kw [-> Hempty]]].
      - destruct kwargs; try discriminate;
          unfold bind, lift; now rewrite Hname.
      - unfold bind, lift, dock_widget_name.
        rewrite Hempty, Hname. reflexivity. }
    split; [exact Hstep|].
    intros before after s. unfold register_dock_widget. cbn [iter_args].
    rewrite for_each_middle. unfold bind, lift.
    destruct (for_each register_arg before s) as [[[]|e] s1]; [|reflexivity].
    now rewrite Hstep.
Qed.

(** X10.  The tuple forms of a dock-widget item: the empty tuple is
    dropped with a warning; a second element that is not a [dict] drops
    the item with a warning naming the class; elements after the second
    are ignored; and a one-element tuple is the same as its element. *)
Theorem dock_widget_tuples :
  (forall s,
     register_arg (PyTuple []) s
     = (Ok tt, with_warnings [InvalidTuple plugin_name dock_widget_hook] s)) /\
  (forall _cls kwargs rest class_name s,
     callable _cls = true -> is_dict kwargs = false ->
     getattr_name _cls = Ok class_name ->
     register_arg (PyTuple (_cls :: kwargs :: rest)) s
     = (Ok tt,
        with_warnings
          [InvalidKwargs plugin_name dock_widget_hook class_name] s)) /\
  (forall _cls kwargs rest s,
     register_arg (PyTuple (_cls :: kwargs :: rest)) s
     = register_arg (PyTuple [_cls; kwargs]) s) /\
  (forall _cls s,
     is_tuple _cls = false ->
     register_arg (PyTuple [_cls]) s = register_arg _cls s).
Proof.
  split; [|split; [|split]].
  - reflexivity.
  - intros _cls kwargs rest class_name s Hcall Hdict Hname.
    unfold register_dock_widget_arg. cbn [unpack_arg].
    rewrite Hcall. cbn [negb].
    destruct kwargs; try discriminate;
      unfold bind, lift; now rewrite Hname.
  - reflexivity.
  - intros _cls s Htuple. unfold register_dock_widget_arg.
    now rewrite (unpack_alone _ Htuple).
Qed.

(** X11.  An accepted dock widget can be fetched at once: by the name it
    was stored under, when that name is not empty, and without a name
    when the plugin had no widget before. *)
Theorem registered_dock_widget_found (arg _cls : PyObj)
  (kwargs : Dict.t PyObj) (name : string) (s : Registries) :
  unpack_arg arg = Some (_cls, PyDict kwargs) ->
  callable _cls = true ->
  dock_widget_name camel_to_spaces object_str _cls kwargs = Ok name ->
  exists s',
    register_arg arg s = (Ok tt, s') /\
    (name <> "" ->
     get_plugin_widget (dock_widgets s') plugin_name (Some name)
     = Ok (_cls, kwargs)) /\
    (Dict.get_default plugin_name [] (dock_widgets s) = [] ->
     get_plugin_widget (dock_widgets s') plugin_name None
     = Ok (_cls, kwargs)).
Proof.
  intros Harg Hcall Hname. eexists.
  split; [eapply register_arg_accepted; eassumption|].
  cbn [dock_widgets stored_dock_widget]. unfold set_item. split.
  - intros Hne. eapply get_plugin_widget_named.
    + apply get_set_same.
    + exact Hne.
    + apply get_set_same.
  - intros Hempty. rewrite Hempty. cbn [Dict.set].
    eapply get_plugin_widget_single; [apply get_set_same | now left].
Qed.

(** X12.  Storing an accepted dock widget warns exactly when its name
    was taken for that plugin; afterwards there is one entry of that
    name, and the plugin's widgets of other names are untouched. *)
Theorem dock_widget_warns_iff_taken (arg _cls : PyObj)
  (kwargs : Dict.t PyObj) (name : string) (s : Registries) :
  unpack_arg arg = Some (_cls, PyDict kwargs) ->
  callable _cls = true ->
  dock_widget_name camel_to_spaces object_str _cls kwargs = Ok name ->
  exists s',
    register_arg arg s = (Ok tt, s') /\
    warnings s'
    = warnings s
      ++ (if Dict.contains name
               (Dict.get_default plugin_name [] (dock_widgets s))
          then [DockWidgetOverwritten plugin_name name] else []) /\
    (Dict.wf (Dict.get_default plugin_name [] (dock_widgets s)) ->
     Dict.count name (Dict.get_default plugin_name [] (dock_widgets s'))
     = 1) /\
    (forall other,
       other <> name ->
       Dict.get other (Dict.get_default plugin_name [] (dock_widgets s'))
       = Dict.get other (Dict.get_default plugin_name [] (dock_widgets s))).
Proof.
  intros Harg Hcall Hname. eexists.
  split; [eapply register_arg_accepted; eassumption|].
  cbn [dock_widgets warnings stored_dock_widget]. split; [reflexivity|].
  split.
  - intros Hwf. now apply count_set_item.
  - intros other Hne. apply get_set_item_other. congruence.
Qed.

(** X13.  A list returned by the dock-widget hook is handled as its
    items would be if they were returned one at a time (for items that
    are not themselves lists). *)
Theorem register_dock_widget_list (items : list PyObj) (s : Registries) :
  Forall (fun item => is_list item = false) items ->
  register (PyList items) s = for_each register items s.
Proof.
  intros Hitems. unfold register_dock_widget. cbn [iter_args].
  apply for_each_ext. intros x Hx s1. rewrite Forall_forall in Hitems.
  rewrite (iter_alone _ (Hitems x Hx)). symmetry. apply for_each_single.
Qed.

End DockNames.

Lemma callable_without_name_witness :
  register_dock_widget unchanged_name some_str
    (PyList [PyCallable None 7; PyClass "MyWidget" 1]) "pluginA"
    empty_registries
  = (Raise (AttributeError (NoAttribute "__name__")), empty_registries).
Proof.
  destruct (@callable_without_name unchanged_name some_str "pluginA"
              (PyCallable None 7) (PyCallable None 7) (PyDict [])
              eq_refl eq_refl eq_refl) as [_ Hraise].
  destruct Hraise as [_ Hlist].
  - right. exists []. split; reflexivity.
  - exact (Hlist [] [PyClass "MyWidget" 1] empty_registries).
Defined.

Lemma registered_dock_widget_found_witness :
  exists s',
    register_dock_widget_arg unchanged_name some_str "pluginA"
      (PyClass "MyWidget" 1) empty_registries
    = (Ok tt, s') /\
    get_plugin_widget (dock_widgets s') "pluginA" (Some "MyWidget")
    = Ok (PyClass "MyWidget" 1, []) /\
    get_plugin_widget (dock_widgets s') "pluginA" None
    = Ok (PyClass "MyWidget" 1, []).
Proof.
  destruct (@registered_dock_widget_found unchanged_name some_str "pluginA"
              (PyClass "MyWidget" 1) (PyClass "MyWidget" 1) [] "MyWidget"
              empty_registries eq_refl eq_refl eq_refl)
    as [s' (Hrun & Hnamed & Hfirst)].
  exists s'. split; [exact Hrun|]. split.
  - apply Hnamed. discriminate.
  - apply Hfirst. reflexivity.
Defined.

Lemma dock_widget_warns_iff_taken_witness :
  exists s',
    register_dock_widget_arg unchanged_name some_str "pluginA"
      (PyClass "One" 9)
      {| dock_widgets := one_widget; function_widgets := [];
         _sample_data := []; warnings := [] |}
    = (Ok tt, s') /\
    warnings s' = [DockWidgetOverwritten "pluginA" "One"].
Proof.
  destruct (@dock_widget_warns_iff_taken unchanged_name some_str "pluginA"
              (PyClass "One" 9) (PyClass "One" 9) [] "One"
              {| dock_widgets := one_widget; function_widgets := [];
                 _sample_data := []; warnings := [] |}
              eq_refl eq_refl eq_refl)
    as [s' (Hrun & Hwarn & _)].
  exists s'. split; [exact Hrun | exact Hwarn].
Defined.

Lemma register_dock_widget_list_witness :
  register_dock_widget unchanged_name some_str
    (PyList [PyClass "One" 1; PyInt 5]) "pluginA" empty_registries
  = for_each
      (fun args => register_dock_widget unchanged_name some_str args
                     "pluginA")
      [PyClass "One" 1; PyInt 5] empty_registries.
Proof.
  apply register_dock_widget_list. repeat constructor.
Defined.

(* ================================================================== *)
(** ** Function widgets: what is touched, tuples, overwriting *)
(* ================================================================== *)

Section FunctionFrame.

Variable plugin_name : string.

Local Abbreviation register_func :=
  (register_function_widget_func plugin_name).

Lemma changes_only_function_widgets_refl s :
  changes_only_function_widgets plugin_name s s.
Proof.
  split; [apply grows_refl|]. split; [reflexivity|]. split; [reflexivity|].
  apply extends_warnings_refl.
Qed.

Lemma changes_only_function_widgets_trans a b c :
  changes_only_function_widgets plugin_name a b ->
  changes_only_function_widgets plugin_name b c ->
  changes_only_function_widgets plugin_name a c.
Proof.
  intros (Gab & Fab & Sab & Wab) (Gbc & Fbc & Sbc & Wbc).
  split; [|split; [|split]].
  - eapply grows_trans; eassumption.
  - congruence.
  - congruence.
  - eapply extends_warnings_trans; eassumption.
Qed.

Lemma register_func_changes func s :
  changes_only_function_widgets plugin_name s (snd (register_func func s)).
Proof.
  destruct (is_function func) eqn:Hf.
  - destruct func as [| | | | | | | |name code| |]; try discriminate.
    rewrite register_func_function. cbn [snd].
    split; [apply grows_set_item|]. split; [reflexivity|].
    split; [reflexivity|].
    cbn [warnings stored_function_widget]. eexists. reflexivity.
  - rewrite register_func_other by assumption. cbn [snd].
    split; [apply grows_refl|]. split; [reflexivity|].
    split; [reflexivity|]. eexists. reflexivity.
Qed.

(** X14.  Whatever the function hook returns, [register_function_widget]
    leaves the dock widgets, the sample data and the function widgets of
    every other plugin as they were; it removes no registered name,
    keeps the keys of the registry distinct, and only appends to the
    warnings. *)
Theorem register_function_widget_changes (args : PyObj) (s : Registries) :
  changes_only_function_widgets plugin_name s
    (snd (register_function_widget args plugin_name s)).
Proof.
  unfold register_function_widget.
  apply (for_each_preserves (changes_only_function_widgets plugin_name)).
  - apply changes_only_function_widgets_refl.
  - apply changes_only_function_widgets_trans.
  - apply register_func_changes.
Qed.

(** X15.  A tuple handed to [register_function_widget] is not iterated:
    whatever it holds, functions included, nothing is stored and the one
    warning carries the hint to use a list; the same items in a list are
    processed one by one. *)
Theorem function_widget_tuple_rejected (items : list PyObj) (s : Registries) :
  register_function_widget (PyTuple items) plugin_name s
  = (Ok tt,
     with_warnings
       [NonFunction plugin_name function_hook (PyTuple items) true] s) /\
  function_widgets
    (snd (register_function_widget (PyTuple items) plugin_name s))
  = function_widgets s /\
  register_function_widget (PyList items) plugin_name s
  = for_each register_func items s /\
  (forall func,
     is_function func = false -> is_tuple func = false ->
     register_func func s
     = (Ok tt,
        with_warnings
          [NonFunction plugin_name function_hook func false] s)).
Proof.
  split; [reflexivity|]. split; [reflexivity|]. split; [reflexivity|].
  intros func Hf Ht. rewrite register_func_other by assumption.
  now rewrite Ht.
Qed.

(** X16.  Storing a function widget warns exactly when its key was taken
    for that plugin; afterwards there is one entry under the key, and
    the plugin's other function widgets are untouched. *)
Theorem function_widget_warns_iff_taken (name : string) (code : nat)
  (s : Registries) :
  exists s',
    register_func (PyFunction name code) s = (Ok tt, s') /\
    warnings s'
    = warnings s
      ++ (if Dict.contains (replace "_" " " name)
               (Dict.get_default plugin_name [] (function_widgets s))
          then [FunctionWidgetOverwritten plugin_name
                  (replace "_" " " name)]
          else []) /\
    (Dict.wf (Dict.get_default plugin_name [] (function_widgets s)) ->
     Dict.count (replace "_" " " name)
       (Dict.get_default plugin_name [] (function_widgets s'))
     = 1) /\
    (forall other,
       other <> replace "_" " " name ->
       Dict.get other
         (Dict.get_default plugin_name [] (function_widgets s'))
       = Dict.get other
           (Dict.get_default plugin_name [] (function_widgets s))).
Proof.
  eexists. split; [apply register_func_function|].
  cbn [function_widgets warnings stored_function_widget].
  split; [reflexivity|]. split.
  - intros Hwf. now apply count_set_item.
  - intros other Hne. apply get_set_item_other. congruence.
Qed.

End FunctionFrame.

(* ================================================================== *)
(** ** Sample data: what is touched and what is kept *)
(* ================================================================== *)

Section SampleFrame.

Variable plugin_name : string.

Lemma get_checked_data_absent name items :
  ~ In name (Dict.keys items) ->
  forall _data,
    Dict.get name (checked_data plugin_name items _data)
    = Dict.get name _data.
Proof.
  induction items as [|[k d] items IH]; intros Hnot _data; [reflexivity|].
  cbn [checked_data]. simpl in Hnot.
  destruct (check_datum plugin_name k d).
  - rewrite IH by tauto. apply get_set_other. tauto.
  - apply IH. tauto.
Qed.

(** X17.  [register_sample_data] never raises, whatever it is given.  It
    leaves the dock widgets, the function widgets and the sample data of
    every other plugin as they were, removes no registered sample name,
    keeps the keys of the registry distinct and only appends to the
    warnings.  Given something that is not a [dict] it only warns; given
    a [dict], even an empty one, it makes sure the plugin has an entry
    in the registry. *)
Theorem register_sample_data_changes (data : PyObj) (s : Registries) :
  fst (register_sample_data data plugin_name s) = Ok tt /\
  changes_only_sample_data plugin_name s
    (snd (register_sample_data data plugin_name s)) /\
  (is_dict data = false ->
   snd (register_sample_data data plugin_name s)
   = with_warnings [NonDictSampleData plugin_name sample_data_hook] s) /\
  (is_dict data = true ->
   Dict.contains plugin_name
     (_sample_data (snd (register_sample_data data plugin_name s)))
   = true).
Proof.
  destruct (is_dict data) eqn:Hdict.
  - destruct data as [| | | | | | |items| | |]; try discriminate.
    rewrite register_sample_data_dict. cbn [fst snd].
    split; [reflexivity|]. split; [|split; [discriminate|]].
    + split; [apply grows_update|]. split; [reflexivity|].
      split; [reflexivity|].
      cbn [warnings stored_sample_data]. eexists. reflexivity.
    + intros _. cbn [_sample_data stored_sample_data].
      apply contains_set_same.
  - rewrite register_sample_data_other by assumption. cbn [fst snd].
    split; [reflexivity|]. split; [|split; [reflexivity | discriminate]].
    split; [apply grows_refl|]. split; [reflexivity|].
    split; [reflexivity|]. eexists. reflexivity.
Qed.

(** X18.  Samples of the plugin whose names do not occur in the mapping
    keep their entries: registering more sample data replaces only the
    names it mentions. *)
Theorem register_sample_data_keeps_other_names
  (items : Dict.t PyObj) (name : string) (s : Registries) :
  ~ In name (Dict.keys items) ->
  Dict.get name
    (Dict.get_default plugin_name []
       (_sample_data
          (snd (register_sample_data (PyDict items) plugin_name s))))
  = Dict.get name (Dict.get_default plugin_name [] (_sample_data s)).
Proof.
  intros Hnot. rewrite register_sample_data_dict.
  cbn [snd _sample_data stored_sample_data].
  rewrite get_default_set.
  rewrite get_update by (apply wf_checked_data; constructor).
  now rewrite get_checked_data_absent.
Qed.

End SampleFrame.

Lemma register_sample_data_keeps_other_names_witness :
  Dict.get "foo"
    (Dict.get_default "pluginA" []
       (_sample_data
          (snd (register_sample_data
                  (PyDict [("bar", PyStr "https://example.org/bar.tif")])
                  "pluginA"
                  (snd (register_sample_data first_samples "pluginA"
                          empty_registries))))))
  = Some [("data", PyFunction "make_first" 1);
          ("display_name", PyStr "foo")].
Proof.
  rewrite register_sample_data_keeps_other_names.
  - reflexivity.
  - simpl. intros [H|[]]. discriminate H.
Defined.

(* ================================================================== *)
(** ** The list of available samples *)
(* ================================================================== *)

Lemma in_available_samples registry p n :
  In (p, n) (available_samples registry) <->
  exists d, In (p, d) registry /\ In n (Dict.keys d).
Proof.
  unfold available_samples. rewrite in_flat_map. split.
  - intros [[k d] [Hin Hpair]]. cbn [fst snd] in Hpair.
    apply in_map_iff in Hpair. destruct Hpair as [n' [[= <- <-] Hn]].
    now exists d.
  - intros [d [Hin Hn]]. exists (p, d). split; [assumption|].
    cbn [fst snd]. apply in_map_iff. now exists n.
Qed.

Lemma registered_is_available registry p n :
  Dict.contains n (Dict.get_default p [] registry) = true ->
  In (p, n) (available_samples registry).
Proof.
  unfold Dict.get_default. intros Hn. apply in_available_samples.
  destruct (Dict.get p registry) as [d|] eqn:E; [|discriminate].
  exists d. split; [now apply get_some_in | now apply contains_in].
Qed.

Lemma nodup_map_pair (p : string) (names : list string) :
  NoDup names -> NoDup (map (fun n => (p, n)) names).
Proof.
  induction names as [|n names IH]; simpl; intros Hnd; [constructor|].
  inversion Hnd as [|? ? Hnotin Hnd']; subst. constructor; [|auto].
  intros Hin. apply in_map_iff in Hin. destruct Hin as [n' [[= <-] Hn]].
  tauto.
Qed.

(** X19.  [available_samples] lists exactly the pairs of a plugin and a
    sample name registered for it, and lists no pair twice. *)
Theorem available_samples_registered
  (registry : Dict.t (Dict.t SampleDict)) :
  registry_wf registry ->
  (forall p n,
     In (p, n) (available_samples registry) <->
     Dict.contains n (Dict.get_default p [] registry) = true) /\
  NoDup (available_samples registry).
Proof.
  intros [Hwf Hall]. split.
  - intros p n. split; [|apply registered_is_available].
    intros Hin. apply in_available_samples in Hin.
    destruct Hin as [d [Hd Hn]].
    unfold Dict.get_default. rewrite (in_get_wf _ _ Hwf Hd).
    now apply contains_in.
  - unfold Dict.wf in Hwf.
    induction registry as [|[k d] registry IH]; [constructor|].
    cbn [available_samples flat_map fst snd].
    inversion Hwf as [|? ? Hnotin Hwf']; subst.
    inversion Hall as [|? ? Hd Hall']; subst. cbn [snd] in Hd.
    apply NoDup_app.
    + apply nodup_map_pair. exact Hd.
    + now apply IH.
    + intros [p n] Hfirst Hrest.
      apply in_map_iff in Hfirst. destruct Hfirst as [n' [[= <- <-] _]].
      apply in_available_samples in Hrest. destruct Hrest as [d' [Hd' _]].
      apply Hnotin. apply (in_map fst) in Hd'. exact Hd'.
Qed.

Lemma available_samples_registered_witness :
  In ("pluginA", "foo")
    (available_samples
       (_sample_data
          (snd (register_sample_data first_samples "pluginA"
                  empty_registries)))).
Proof.
  assert (Hwf : registry_wf
                  (_sample_data
                     (snd (register_sample_data first_samples "pluginA"
                             empty_registries)))).
  { split; repeat constructor; simpl; intuition discriminate. }
  apply (proj1 (available_samples_registered Hwf)). reflexivity.
Defined.

Section AvailableAfter.

Variable plugin_name : string.

Lemma in_set_cases (V : Type) k (x : V) (d : Dict.t V) p v :
  In (p, v) (Dict.set k x d) -> In (p, v) d \/ (p = k /\ v = x).
Proof.
  induction d as [|[k' v'] d IH]; simpl.
  - intros [[= <- <-]|[]]. now right.
  - destruct (String.eqb_spec k' k) as [->|Hne]; simpl.
    + intros [[= <- <-]|Hin]; [now right | left; now right].
    + intros [Heq|Hin]; [left; now left|].
      destruct (IH Hin) as [H|H]; [left; now right | now right].
Qed.

Lemma contains_update_cases (V : Type) n (other d : Dict.t V) :
  Dict.contains n (Dict.update other d) = true ->
  Dict.contains n d = true \/ In n (Dict.keys other).
Proof.
  revert d. induction other as [|[k v] other IH]; intros d Hn; [now left|].
  rewrite update_cons in Hn. destruct (IH _ Hn) as [H|H].
  - rewrite contains_set in H. apply orb_true_iff in H.
    destruct H as [H|H]; [|now left].
    apply String.eqb_eq in H. right. now left.
  - right. now right.
Qed.

Lemma contains_checked_data n items :
  forall _data,
    Dict.contains n (checked_data plugin_name items _data) = true ->
    Dict.contains n _data = true \/ In n (Dict.keys items).
Proof.
  induction items as [|[k d] items IH]; intros _data Hn; [now left|].
  cbn [checked_data] in Hn.
  destruct (check_datum plugin_name k d).
  - destruct (IH _ Hn) as [H|H]; [|right; now right].
    rewrite contains_set in H. apply orb_true_iff in H.
    destruct H as [H|H]; [|now left].
    apply String.eqb_eq in H. right. now left.
  - destruct (IH _ Hn) as [H|H]; [now left | right; now right].
Qed.

Lemma check_datum_shorthand name datum :
  shorthand datum = true ->
  check_datum plugin_name name datum
  = inl [("data", datum); ("display_name", PyStr name)].
Proof.
  unfold shorthand. rewrite andb_true_iff. intros [Hdict Hvalid].
  destruct datum; try discriminate; cbn [check_datum];
    cbn [is_dict negb] in Hdict; now rewrite ?Hvalid.
Qed.

Lemma check_datum_dict name d data :
  Dict.get "data" d = Some data ->
  Dict.contains "display_name" d = true ->
  (callable data || is_str_or_path data)%bool = true ->
  check_datum plugin_name name (PyDict d) = inl d.
Proof.
  intros Hdata Hname Hvalid. unfold check_datum, Dict.contains in *.
  rewrite Hdata. destruct (Dict.get "display_name" d); [|discriminate].
  now rewrite Hvalid.
Qed.

Variable items : Dict.t PyObj.
Variable s : Registries.

Local Abbreviation before := (available_samples (_sample_data s)).
Local Abbreviation after :=
  (available_samples
     (_sample_data
        (snd (register_sample_data (PyDict items) plugin_name s)))).

Lemma accepted_is_available name datum entry :
  Dict.wf items -> In (name, datum) items ->
  check_datum plugin_name name datum = inl entry ->
  In (plugin_name, name) after.
Proof.
  intros Hwf Hin Hcheck. apply registered_is_available.
  rewrite register_sample_data_dict. cbn [snd].
  unfold Dict.contains.
  rewrite (@get_registered_sample plugin_name name datum items s Hwf Hin).
  now rewrite Hcheck.
Qed.

(** X20.  After [register_sample_data] the available samples are those
    there were before together with the accepted names of the mapping:
    no pair disappears, every new pair belongs to the registering plugin
    and is a key of the mapping, and every accepted item is listed. *)
Theorem available_samples_after :
  Dict.wf (_sample_data s) ->
  (forall p n, In (p, n) before -> In (p, n) after) /\
  (forall p n,
     In (p, n) after ->
     In (p, n) before \/ (p = plugin_name /\ In n (Dict.keys items))) /\
  (Dict.wf items ->
   forall name datum,
     In (name, datum) items ->
     (shorthand datum = true -> In (plugin_name, name) after) /\
     (forall d data,
        datum = PyDict d ->
        Dict.get "data" d = Some data ->
        Dict.contains "display_name" d = true ->
        (callable data || is_str_or_path data)%bool = true ->
        In (plugin_name, name) after)).
Proof.
  intros Hwf. split; [|split].
  - intros p n Hin. apply registered_is_available.
    rewrite register_sample_data_dict.
    cbn [snd _sample_data stored_sample_data].
    destruct (grows_update plugin_name
                (checked_data plugin_name items []) (_sample_data s))
      as (_ & Hkeeps & _).
    apply Hkeeps.
    apply in_available_samples in Hin. destruct Hin as [d [Hd Hn]].
    unfold Dict.get_default. rewrite (in_get_wf _ _ Hwf Hd).
    now apply contains_in.
  - intros p n Hin. rewrite register_sample_data_dict in Hin.
    cbn [snd _sample_data stored_sample_data] in Hin.
    apply in_available_samples in Hin. destruct Hin as [d [Hd Hn]].
    apply in_set_cases in Hd. destruct Hd as [Hd|[-> ->]].
    + left. apply in_available_samples. now exists d.
    + apply contains_in in Hn. apply contains_update_cases in Hn.
      destruct Hn as [Hn|Hn].
      * left. now apply registered_is_available.
      * right. split; [reflexivity|].
        apply contains_in in Hn. apply contains_checked_data in Hn.
        destruct Hn as [Hn|Hn]; [discriminate | exact Hn].
  - intros Hitems name datum Hin. split.
    + intros Hshort. eapply accepted_is_available; try eassumption.
      now apply check_datum_shorthand.
    + intros d data -> Hdata Hname Hvalid.
      eapply accepted_is_available; try eassumption.
      eapply check_datum_dict; eassumption.
Qed.

End AvailableAfter.

Lemma available_samples_after_witness :
  In ("pluginA", "foo")
    (available_samples
       (_sample_data
          (snd (register_sample_data second_samples "pluginB"
                  (snd (register_sample_data first_samples "pluginA"
                          empty_registries)))))) /\
  In ("pluginB", "foo")
    (available_samples
       (_sample_data
          (snd (register_sample_data second_samples "pluginB"
                  (snd (register_sample_data first_samples "pluginA"
                          empty_registries)))))).
Proof.
  assert (Hwf : Dict.wf
                  (_sample_data
                     (snd (register_sample_data first_samples "pluginA"
                             empty_registries))))
    by (repeat constructor; simpl; tauto).
  destruct (@available_samples_after "pluginB"
              [("foo", PyFunction "make_second" 2)] _ Hwf)
    as (Hkept & _ & Hnew).
  split.
  - apply Hkept. simpl. now left.
  - refine (proj1 (Hnew _ "foo" (PyFunction "make_second" 2) _) eq_refl).
    + repeat constructor; simpl; tauto.
    + now left.
Defined.

Section NewPlugin.

Variable plugin_name : string.

Lemma set_absent (V : Type) k (v : V) (d : Dict.t V) :
  Dict.contains k d = false -> Dict.set k v d = d ++ [(k, v)].
Proof.
  unfold Dict.contains.
  induction d as [|[k' v'] d IH]; simpl; [reflexivity|].
  destruct (String.eqb k' k); [discriminate|].
  intros H. now rewrite IH.
Qed.

Lemma not_in_contains (V : Type) k (d : Dict.t V) :
  ~ In k (Dict.keys d) -> Dict.contains k d = false.
Proof.
  intros H. destruct (Dict.contains k d) eqn:E; [|reflexivity].
  apply contains_in in E. tauto.
Qed.

Lemma keys_update_fresh (V : Type) (other : Dict.t V) :
  forall d,
    Dict.wf other ->
    (forall k, In k (Dict.keys other) -> ~ In k (Dict.keys d)) ->
    Dict.keys (Dict.update other d) = Dict.keys d ++ Dict.keys other.
Proof.
  unfold Dict.wf.
  induction other as [|[k v] other IH]; intros d Hwf Hfresh.
  - simpl. now rewrite app_nil_r.
  - rewrite update_cons. simpl in Hwf.
    inversion Hwf as [|? ? Hnotin Hwf']; subst.
    assert (Hk : Dict.contains k d = false)
      by (apply not_in_contains, Hfresh; now left).
    rewrite IH; [|assumption|].
    + rewrite keys_set_absent by assumption. simpl.
      now rewrite <- app_assoc.
    + intros k' Hk' Hin. rewrite keys_set_absent in Hin by assumption.
      apply in_app_or in Hin. destruct Hin as [Hin|[<-|[]]].
      * apply (Hfresh k'); [now right | assumption].
      * tauto.
Qed.

Lemma keys_checked_shorthand items :
  forall _data,
    Dict.wf items ->
    Forall (fun item => shorthand (snd item) = true) items ->
    (forall k, In k (Dict.keys items) -> ~ In k (Dict.keys _data)) ->
    Dict.keys (checked_data plugin_name items _data)
    = Dict.keys _data ++ Dict.keys items.
Proof.
  unfold Dict.wf.
  induction items as [|[k d] items IH]; intros _data Hwf Hall Hfresh.
  - simpl. now rewrite app_nil_r.
  - cbn [checked_data]. simpl in Hwf.
    inversion Hwf as [|? ? Hnotin Hwf']; subst.
    inversion Hall as [|? ? Hd Hall']; subst. cbn [snd] in Hd.
    rewrite (check_datum_shorthand plugin_name k d Hd).
    assert (Hk : Dict.contains k _data = false)
      by (apply not_in_contains, Hfresh; now left).
    rewrite IH; [|assumption|assumption|].
    + rewrite keys_set_absent by assumption. simpl.
      now rewrite <- app_assoc.
    + intros k' Hk' Hin. rewrite keys_set_absent in Hin by assumption.
      apply in_app_or in Hin. destruct Hin as [Hin|[<-|[]]].
      * apply (Hfresh k'); [now right | assumption].
      * tauto.
Qed.

Lemma available_samples_app (a b : Dict.t (Dict.t SampleDict)) :
  available_samples (a ++ b) = available_samples a ++ available_samples b.
Proof. unfold available_samples. apply flat_map_app. Qed.

(** X21.  Samples are listed in registration order: when a plugin
    registers for the first time a mapping of shorthand values, its
    samples are appended to the list, after all earlier ones, in the
    order of the mapping. *)
Theorem available_samples_appended (items : Dict.t PyObj) (s : Registries) :
  Dict.contains plugin_name (_sample_data s) = false ->
  Dict.wf items ->
  Forall (fun item => shorthand (snd item) = true) items ->
  available_samples
    (_sample_data (snd (register_sample_data (PyDict items) plugin_name s)))
  = available_samples (_sample_data s)
    ++ map (fun item => (plugin_name, fst item)) items.
Proof.
  intros Hnew Hwf Hall. rewrite register_sample_data_dict.
  cbn [snd _sample_data stored_sample_data].
  rewrite set_absent by assumption.
  rewrite available_samples_app. f_equal.
  cbn [available_samples flat_map fst snd]. rewrite app_nil_r.
  rewrite (get_default_absent _ _ Hnew).
  rewrite keys_update_fresh.
  - rewrite keys_checked_shorthand by (simpl; auto).
    cbn [Dict.keys map app]. unfold Dict.keys. now rewrite map_map.
  - apply wf_checked_data. constructor.
  - simpl. auto.
Qed.

End NewPlugin.

Lemma available_samples_appended_witness :
  available_samples
    (_sample_data
       (snd (register_sample_data
               (PyDict [("cells", PyFunction "cells" 3);
                        ("moon", PyStr "moon.tif")])
               "pluginB"
               (snd (register_sample_data first_samples "pluginA"
                       empty_registries)))))
  = [("pluginA", "foo"); ("pluginB", "cells"); ("pluginB", "moon")].
Proof.
  rewrite available_samples_appended.
  - reflexivity.
  - reflexivity.
  - repeat constructor; simpl; intuition discriminate.
  - repeat constructor.
Defined.

(* ================================================================== *)
(** ** Importing twice *)
(* ================================================================== *)

Lemma map_fixed (A : Type) (f : A -> A) (l : list A) :
  (forall x, In x l -> f x = x) -> map f l = l.
Proof.
  induction l as [|x l IH]; simpl; intros H; [reflexivity|].
  rewrite H by now left. f_equal. apply IH. intros; apply H; now right.
Qed.

Lemma existsb_is_plugin_false name impls :
  existsb (is_plugin name) impls = false <->
  ~ In name (map plugin_name impls).
Proof.
  rewrite <- existsb_is_plugin.
  destruct (existsb (is_plugin name) impls); split; congruence.
Qed.

(** Under the invariant, assigning through the reference found for a
    name is assigning to every implementation of that name. *)
Lemma update_at_as_map name i b impls :
  NoDup (map plugin_name impls) ->
  index_of name impls = Some i ->
  update_at i (with_enabled b) impls
  = map (fun x => if is_plugin name x then with_enabled b x else x) impls.
Proof.
  revert i. induction impls as [|a impls IH]; intros i Hnd; simpl;
    [discriminate|].
  inversion Hnd as [|? ? Hnotin Hnd']; subst.
  destruct (is_plugin name a) eqn:E.
  - intros [= <-]. cbn [update_at]. f_equal. symmetry. apply map_fixed.
    intros x Hx. destruct (is_plugin name x) eqn:Ex; [|reflexivity].
    exfalso. apply Hnotin. apply is_plugin_true in E, Ex.
    rewrite E, <- Ex. now apply in_map.
  - destruct (index_of name impls) as [j|] eqn:Hj; simpl; [|discriminate].
    intros [= <-]. cbn [update_at]. f_equal. now apply IH.
Qed.

Lemma flagged_name ps impl : plugin_name (flagged ps impl) = plugin_name impl.
Proof. unfold flagged. now destruct (recorded (plugin_name impl) ps). Qed.

Lemma flagged_twice ps impl : flagged ps (flagged ps impl) = flagged ps impl.
Proof.
  unfold flagged at 1. rewrite flagged_name. unfold flagged.
  now destruct (recorded (plugin_name impl) ps).
Qed.

Lemma flagged_names ps impls :
  map plugin_name (map (flagged ps) impls) = map plugin_name impls.
Proof. rewrite map_map. apply map_ext. intros. apply flagged_name. Qed.

(** The inner loop, implementation by implementation. *)
Lemma set_call_order_entries_flagged ps :
  forall caller order,
    caller_wf caller ->
    set_call_order_entries caller order ps
    = Ok ({| is_firstresult := is_firstresult caller;
             _nonwrappers := map (flagged ps) (get_hookimpls caller) |},
          order ++ map Entry.plugin (installed caller ps)).
Proof.
  induction ps as [|p ps IH]; intros caller order Hwf.
  - cbn [set_call_order_entries installed filter map].
    rewrite app_nil_r. unfold flagged. cbn [recorded].
    rewrite map_id. now destruct caller.
  - cbn [set_call_order_entries installed filter].
    unfold get_plugin_implementation, implements.
    destruct (index_of (Entry.plugin p) (get_hookimpls caller)) as [i|]
      eqn:Hi.
    + assert (Himp : existsb (is_plugin (Entry.plugin p))
                       (get_hookimpls caller) = true).
      { destruct (existsb (is_plugin (Entry.plugin p)) (get_hookimpls caller))
          eqn:E; [reflexivity|].
        apply index_of_none in E. congruence. }
      rewrite Himp.
      set (caller1 := set_enabled i (Entry.enabled p) caller).
      assert (Hnames1 : map plugin_name (get_hookimpls caller1)
                        = map plugin_name (get_hookimpls caller))
        by apply update_at_names.
      assert (Hwf1 : caller_wf caller1)
        by (unfold caller_wf; now rewrite Hnames1).
      rewrite (IH caller1 (order ++ [Entry.plugin p]) Hwf1).
      assert (Hinst : installed caller1 ps = installed caller ps).
      { unfold installed. apply filter_ext. intros a.
        now apply implements_names. }
      fold (installed caller ps). rewrite Hinst, <- app_assoc.
      cbn [map app]. f_equal. f_equal.
      unfold caller1, set_enabled, get_hookimpls.
      cbn [_nonwrappers is_firstresult].
      erewrite update_at_as_map; [|exact Hwf|exact Hi]. rewrite map_map.
      f_equal. apply map_ext. intros x. unfold flagged at 2. cbn [recorded].
      destruct (is_plugin (Entry.plugin p) x) eqn:Ex.
      * unfold flagged. cbn [with_enabled plugin_name].
        apply is_plugin_true in Ex.
        destruct (recorded (plugin_name x) ps); [reflexivity|].
        rewrite <- Ex, String.eqb_refl. reflexivity.
      * unfold flagged.
        destruct (recorded (plugin_name x) ps); [reflexivity|].
        unfold is_plugin in Ex. rewrite String.eqb_sym in Ex.
        now rewrite Ex.
    + assert (Himp : existsb (is_plugin (Entry.plugin p))
                       (get_hookimpls caller) = false)
        by now apply index_of_none.
      rewrite Himp. rewrite (IH caller order Hwf).
      fold (installed caller ps). f_equal. f_equal. f_equal.
      apply map_ext_in. intros x Hx. unfold flagged. cbn [recorded].
      destruct (recorded (plugin_name x) ps); [reflexivity|].
      destruct (String.eqb_spec (Entry.plugin p) (plugin_name x)) as [E|E];
        [|reflexivity].
      exfalso. rewrite existsb_is_plugin_false in Himp.
      apply Himp. rewrite E. now apply in_map.
Qed.

Lemma dispatch_brought_to_front order caller :
  dispatch_order (brought_to_front order caller)
  = flat_map (fun n => match find (is_plugin n) (dispatch_order caller) with
                       | Some impl => [impl]
                       | None => []
                       end) order
    ++ filter (fun impl => negb (mem (plugin_name impl) order))
         (dispatch_order caller).
Proof.
  unfold brought_to_front. unfold dispatch_order at 1.
  unfold get_hookimpls at 1. cbn [_nonwrappers].
  apply rev_involutive.
Qed.

Lemma filter_twice (A : Type) (f : A -> bool) (l : list A) :
  filter f (filter f l) = filter f l.
Proof.
  apply filter_keeps_all_in. intros x Hx. apply filter_In in Hx. tauto.
Qed.

(** Bringing the same names to the front a second time changes
    nothing. *)
Lemma brought_to_front_twice order caller :
  caller_wf caller ->
  brought_to_front order (brought_to_front order caller)
  = brought_to_front order caller.
Proof.
  intros Hwf.
  assert (Hnd : NoDup (map plugin_name (dispatch_order caller)))
    by now apply dispatch_wf.
  assert (Hsame : forall impl,
             In impl (dispatch_order (brought_to_front order caller))
             <-> In impl (dispatch_order caller)).
  { intros impl. unfold dispatch_order. rewrite <- !in_rev.
    now apply brought_to_front_elements. }
  unfold brought_to_front at 1. cbn [is_firstresult brought_to_front].
  unfold brought_to_front at 3. f_equal. f_equal.
  rewrite (@flat_map_ext _ _ _
             (fun n => match find (is_plugin n) (dispatch_order caller) with
                       | Some impl => [impl]
                       | None => []
                       end)).
  - rewrite dispatch_brought_to_front at 1.
    rewrite filter_app, filter_twice. f_equal.
    rewrite filter_drops_all_in; [now rewrite app_nil_l|].
    intros impl Hin. apply in_flat_map in Hin.
    destruct Hin as [n [Hn Hfound]].
    destruct (find (is_plugin n) (dispatch_order caller)) as [i|] eqn:E;
      [|destruct Hfound].
    destruct Hfound as [<-|[]]. apply find_some in E. destruct E as [_ E].
    apply is_plugin_true in E. rewrite E.
    apply (proj2 (mem_in _ _)) in Hn.
    now rewrite Hn.
  - intros n. now rewrite (find_same_elements _ _ n Hnd Hsame).
Qed.

Lemma implements_permutation caller caller' :
  Permutation (map identity (get_hookimpls caller'))
    (map identity (get_hookimpls caller)) ->
  forall q, implements caller' q = implements caller q.
Proof.
  intros Hperm q.
  assert (Hnames : Permutation (map plugin_name (get_hookimpls caller'))
                     (map plugin_name (get_hookimpls caller))).
  { apply (Permutation_map snd) in Hperm.
    now rewrite !map_map in Hperm. }
  unfold implements.
  destruct (existsb (is_plugin q) (get_hookimpls caller)) eqn:E.
  - apply existsb_is_plugin. apply existsb_is_plugin in E.
    apply Permutation_sym in Hnames.
    now apply (Permutation_in _ Hnames).
  - apply existsb_is_plugin_false. apply existsb_is_plugin_false in E.
    intros Hin. apply E. now apply (Permutation_in _ Hnames).
Qed.

Lemma set_call_order_caller_twice new_order spec_name caller caller' :
  caller_wf caller ->
  set_call_order_caller new_order spec_name caller = Ok caller' ->
  set_call_order_caller new_order spec_name caller' = Ok caller'.
Proof.
  intros Hwf Hrun.
  destruct (set_call_order_caller_keeps _ _ Hwf Hrun)
    as (Hwf' & _ & Hperm).
  unfold set_call_order_caller, set_call_order_body in *.
  set (ps := Dict.get_default spec_name [] new_order) in *.
  rewrite set_call_order_entries_flagged in Hrun by assumption.
  rewrite set_call_order_entries_flagged by assumption.
  cbn [result_bind app] in *.
  assert (Hinst : installed caller' ps = installed caller ps).
  { unfold installed. apply filter_ext. intros a.
    now apply implements_permutation. }
  rewrite Hinst.
  set (c1 := {| is_firstresult := is_firstresult caller;
                _nonwrappers := map (flagged ps) (get_hookimpls caller) |})
    in *.
  assert (Hwf1 : caller_wf c1).
  { unfold caller_wf, c1, get_hookimpls. cbn [_nonwrappers].
    rewrite flagged_names. exact Hwf. }
  assert (Hfixed : map (flagged ps) (get_hookimpls caller')
                   = get_hookimpls caller').
  { apply map_fixed. intros x Hx.
    assert (Hx1 : In x (get_hookimpls c1)).
    { destruct (map Entry.plugin (installed caller ps)) as [|n order].
      - injection Hrun as <-. exact Hx.
      - apply bring_to_front_ok in Hrun. destruct Hrun as [_ ->].
        now apply (brought_to_front_elements (n :: order) x Hwf1). }
    unfold c1, get_hookimpls in Hx1. cbn [_nonwrappers] in Hx1.
    apply in_map_iff in Hx1. destruct Hx1 as [y [<- _]].
    apply flagged_twice. }
  rewrite Hfixed.
  assert (Heta : {| is_firstresult := is_firstresult caller';
                    _nonwrappers := get_hookimpls caller' |} = caller')
    by now destruct caller'.
  rewrite Heta.
  destruct (map Entry.plugin (installed caller ps)) as [|n order];
    [reflexivity|].
  apply bring_to_front_ok in Hrun. destruct Hrun as [Hnd ->].
  rewrite !bring_to_front_distinct by assumption.
  now rewrite brought_to_front_twice.
Qed.

(** X22.  Importing is idempotent: importing the same record a second
    time changes nothing. *)
Theorem set_call_order_twice
  (self self' : PluginManager) (new_order : CallOrderDict) :
  hooks_wf self ->
  set_call_order new_order self = Ok self' ->
  set_call_order new_order self' = Ok self'.
Proof.
  intros [Hkeys Hwf] Hrun.
  unfold set_call_order in Hrun.
  destruct (set_call_order_hooks new_order (hooks self)) as [items'|e]
    eqn:Hrun'; [|discriminate].
  cbn [result_bind] in Hrun. injection Hrun as <-.
  destruct (set_call_order_hooks_inv _ _ Hrun') as [Hkeys' Hget].
  unfold set_call_order. cbn [hooks].
  rewrite set_call_order_hooks_fixed; [reflexivity|].
  intros s c' Hin.
  assert (Hs : In s (Dict.keys (hooks self))).
  { rewrite <- Hkeys'. apply (in_map fst) in Hin. exact Hin. }
  apply contains_in in Hs. unfold Dict.contains in Hs.
  destruct (Dict.get s (hooks self)) as [caller|] eqn:Hcaller;
    [|discriminate].
  destruct (Hget _ _ Hcaller) as [caller' [Hget' Hbody]].
  assert (Hwf'' : Dict.wf items') by (unfold Dict.wf; now rewrite Hkeys').
  rewrite (in_get_wf _ _ Hwf'' Hin) in Hget'. injection Hget' as <-.
  apply (set_call_order_caller_twice new_order s (caller := caller));
    [|assumption].
  rewrite Forall_forall in Hwf.
  apply (Hwf (s, caller)). now apply get_some_in.
Qed.

Lemma set_call_order_twice_witness :
  exists self',
    set_call_order stale_order sample_manager = Ok self' /\
    set_call_order stale_order self' = Ok self'.
Proof.
  eexists. split; [reflexivity|].
  exact (@set_call_order_twice sample_manager _ stale_order
           sample_manager_wf eq_refl).
Defined.

(* ================================================================== *)
(** ** Dock widgets: when the call returns, and two widgets of a plugin *)
(* ================================================================== *)

Section DockTotal.

Variable camel_to_spaces : string -> string.
Variable object_str : PyObj -> string.
Variable plugin_name : string.

Local Abbreviation register_arg :=
  (register_dock_widget_arg camel_to_spaces object_str plugin_name).
Local Abbreviation no_name := (AttributeError (NoAttribute "__name__")).

(** The loop body raises only for a callable without [__name__]. *)
Lemma register_arg_raises arg s e :
  fst (register_arg arg s) = Raise e ->
  exists _cls kwargs,
    unpack_arg arg = Some (_cls, kwargs) /\
    callable _cls = true /\
    getattr_name _cls = Raise no_name.
Proof.
  unfold register_dock_widget_arg.
  destruct (unpack_arg arg) as [[_cls kwargs]|] eqn:Harg; [|discriminate].
  destruct (callable _cls) eqn:Hcall; [|discriminate].
  intros Hraise. exists _cls, kwargs.
  split; [reflexivity|]. split; [exact Hcall|].
  destruct (getattr_name_cases _cls) as [[name Hname]|Hname]; [|exact Hname].
  exfalso. cbn [negb] in Hraise.
  destruct (is_dict kwargs) eqn:Hdict.
  - destruct kwargs as [| | | | | | |kw| | |]; try discriminate.
    assert (Hwidget : exists n,
               dock_widget_name camel_to_spaces object_str _cls kw = Ok n).
    { unfold dock_widget_name. destruct (nonempty _); [eauto|].
      rewrite Hname. simpl. eauto. }
    destruct Hwidget as [n Hn].
    assert (Hrun : register_arg (PyTuple [_cls; PyDict kw]) s
                   = (Ok tt,
                      stored_dock_widget plugin_name n (_cls, kw) s))
      by now apply register_arg_accepted.
    unfold register_dock_widget_arg in Hrun. cbn [unpack_arg] in Hrun.
    rewrite Hcall in Hrun. cbn [negb] in Hrun.
    rewrite Hrun in Hraise. discriminate.
  - destruct kwargs; try discriminate;
      unfold bind, lift in Hraise; rewrite Hname in Hraise; discriminate.
Qed.

(** X23.  [register_dock_widget] returns normally whenever every
    callable among the items has a [__name__]. *)
Theorem register_dock_widget_returns (args : PyObj) (s : Registries) :
  (forall arg _cls kwargs,
     In arg (iter_args args) ->
     unpack_arg arg = Some (_cls, kwargs) ->
     callable _cls = true ->
     exists name, getattr_name _cls = Ok name) ->
  fst (register_dock_widget camel_to_spaces object_str args plugin_name s)
  = Ok tt.
Proof.
  unfold register_dock_widget. generalize (iter_args args). intros items.
  revert s. induction items as [|arg items IH]; intros s Hnamed;
    [reflexivity|].
  cbn [for_each]. unfold bind.
  destruct (register_arg arg s) as [[[]|e] s1] eqn:Hstep.
  - apply IH. intros a c k Ha. apply Hnamed. now right.
  - exfalso.
    destruct (register_arg_raises arg s (e := e)) as (c & k & Hc & Hcall & He).
    + now rewrite Hstep.
    + destruct (Hnamed arg c k (or_introl eq_refl) Hc Hcall) as [n Hn].
      congruence.
Qed.

Lemma two_keys_length (V : Type) (a b : string) (d : Dict.t V) :
  a <> b -> Dict.contains a d = true -> Dict.contains b d = true ->
  1 < length d.
Proof.
  intros Hne Ha Hb. destruct d as [|[k v] [|item d]]; simpl.
  - discriminate.
  - unfold Dict.contains in *. simpl in *.
    destruct (String.eqb_spec k a); [|discriminate].
    destruct (String.eqb_spec k b); [|discriminate]. congruence.
  - lia.
Qed.

(** X24.  Once a plugin has registered two dock widgets under different
    names, each is returned for its own name and a query without a name
    raises the [ValueError]. *)
Theorem two_dock_widgets (first second : PyObj)
  (_cls1 _cls2 : PyObj) (kwargs1 kwargs2 : Dict.t PyObj)
  (name1 name2 : string) (s : Registries) :
  unpack_arg first = Some (_cls1, PyDict kwargs1) ->
  unpack_arg second = Some (_cls2, PyDict kwargs2) ->
  callable _cls1 = true -> callable _cls2 = true ->
  dock_widget_name camel_to_spaces object_str _cls1 kwargs1 = Ok name1 ->
  dock_widget_name camel_to_spaces object_str _cls2 kwargs2 = Ok name2 ->
  name1 <> "" -> name2 <> "" -> name1 <> name2 ->
  exists s',
    register_dock_widget camel_to_spaces object_str
      (PyList [first; second]) plugin_name s
    = (Ok tt, s') /\
    get_plugin_widget (dock_widgets s') plugin_name (Some name1)
    = Ok (_cls1, kwargs1) /\
    get_plugin_widget (dock_widgets s') plugin_name (Some name2)
    = Ok (_cls2, kwargs2) /\
    get_plugin_widget (dock_widgets s') plugin_name None
    = Raise (ValueError
               (ManyDockWidgets plugin_name
                  (Dict.keys
                     (Dict.get_default plugin_name [] (dock_widgets s'))))).
Proof.
  intros Harg1 Harg2 Hcall1 Hcall2 Hname1 Hname2 Hne1 Hne2 Hne.
  eexists. split.
  - unfold register_dock_widget. cbn [iter_args for_each]. unfold bind.
    rewrite (register_arg_accepted _ _ plugin_name _ s Harg1 Hcall1 Hname1).
    rewrite (register_arg_accepted _ _ plugin_name _ _ Harg2 Hcall2 Hname2).
    reflexivity.
  - cbn [dock_widgets stored_dock_widget].
    set (registry := set_item plugin_name name2 (_cls2, kwargs2)
                       (set_item plugin_name name1 (_cls1, kwargs1)
                          (dock_widgets s))).
    assert (Hitems : Dict.get plugin_name registry
                     = Some (Dict.get_default plugin_name [] registry)).
    { unfold registry. rewrite items_set_item. unfold set_item at 1.
      now rewrite get_set_same. }
    assert (Hget2 : Dict.get name2 (Dict.get_default plugin_name [] registry)
                    = Some (_cls2, kwargs2))
      by apply get_set_item.
    assert (Hget1 : Dict.get name1 (Dict.get_default plugin_name [] registry)
                    = Some (_cls1, kwargs1)).
    { unfold registry. rewrite get_set_item_other by congruence.
      apply get_set_item. }
    split; [|split].
    + eapply get_plugin_widget_named; eassumption.
    + eapply get_plugin_widget_named; eassumption.
    + eapply get_plugin_widget_many; [exact Hitems | | now left].
      apply (two_keys_length (a := name1) (b := name2)); try assumption.
      * rewrite !items_set_item, contains_set, contains_set_same.
        apply orb_true_r.
      * rewrite items_set_item. apply contains_set_same.
Qed.

End DockTotal.

Lemma register_dock_widget_returns_witness :
  fst (register_dock_widget unchanged_name some_str
         (PyList [PyClass "One" 1; PyTuple []; PyInt 5]) "pluginA"
         empty_registries)
  = Ok tt.
Proof.
  apply register_dock_widget_returns.
  intros arg _cls kwargs Hin Harg Hcall. simpl in Hin.
  destruct Hin as [<-|[<-|[<-|[]]]]; simpl in Harg.
  - injection Harg as <- _. now exists "One".
  - discriminate Harg.
  - injection Harg as <- _. discriminate Hcall.
Defined.

Lemma two_dock_widgets_witness :
  exists s',
    register_dock_widget unchanged_name some_str
      (PyList [PyClass "One" 1; PyClass "Two" 2]) "pluginA" empty_registries
    = (Ok tt, s') /\
    get_plugin_widget (dock_widgets s') "pluginA" None
    = Raise (ValueError (ManyDockWidgets "pluginA" ["One"; "Two"])).
Proof.
  destruct (@two_dock_widgets unchanged_name some_str "pluginA"
              (PyClass "One" 1) (PyClass "Two" 2)
              (PyClass "One" 1) (PyClass "Two" 2) [] [] "One" "Two"
              empty_registries eq_refl eq_refl eq_refl eq_refl eq_refl
              eq_refl)
    as [s' (Hrun & _ & _ & Hmany)]; try discriminate.
  exists s'. split; [exact Hrun|].
  rewrite Hmany. injection Hrun as <-. reflexivity.
Defined.
